(** * Personal-fact extraction pipeline: a shallow embedding

    The development follows [src/preprocessor/json_context_extractor.py]
    (class [JSONContextExtractor]) and the parts of
    [database/supabase_manager.py] it calls.  Python lists are Rocq lists,
    insertion-ordered dicts with string keys are association lists, Python
    ints are [Z], JSON numbers (confidences) are rationals, exceptions are
    the [Raise] branch of [result].  Log lines ([print]) are left out. *)

From Stdlib Require Import List ZArith Lia Bool String Ascii QArith Arith.
From Stdlib Require Import DecimalString DecimalNat Permutation.
Import ListNotations.
Close Scope Q_scope.
Open Scope string_scope.
Open Scope list_scope.

Set Implicit Arguments.

(** ** Python built-ins used by the extractor *)

Module Py.

(** The exceptions the embedded code can raise. *)
Inductive exn : Type :=
| ValueError.

Inductive result (A : Type) : Type :=
| Ok (a : A)
| Raise (e : exn).
Arguments Ok {A} a.
Arguments Raise {A} e.

Definition bind {A B} (r : result A) (k : A -> result B) : result B :=
  match r with
  | Ok a => k a
  | Raise e => Raise e
  end.

(** An index of a slice, as [PySlice_AdjustIndices] clamps it for a
    step of 1: a negative index counts from the end. *)
Definition adjust_index (len i : Z) : Z :=
  (if i <? 0 then Z.max 0 (i + len) else Z.min i len)%Z.

(** [l[start:stop]] *)
Definition slice {A} (l : list A) (start stop : Z) : list A :=
  let len := Z.of_nat (List.length l) in
  let a := adjust_index len start in
  let b := adjust_index len stop in
  firstn (Z.to_nat (b - a)) (skipn (Z.to_nat a) l).

(** [range(0, stop, step)] as a list, for [0 <= stop]; a zero step is a
    [ValueError]. *)
Definition range0 (stop step : Z) : result (list Z) :=
  (if step =? 0 then Raise ValueError
   else if step <? 0 then Ok []
   else Ok (map (fun k => Z.of_nat k * step)
                (seq 0 (Z.to_nat ((stop + step - 1) / step)))))%Z.

End Py.

Import Py.

(** ** 4.2 Chunker: [chunk_messages] *)

Section Chunker.

Variable Msg : Type.
Variables chunk_size overlap_size : Z.

(** The body of the [for] loop, over the indices the range yields:
    append the window when it is not empty, stop at the first window
    that reaches the end of the messages. *)
Fixpoint chunk_loop (messages : list Msg) (idxs : list Z) : list (list Msg) :=
  match idxs with
  | [] => []
  | i :: rest =>
      let chunk := slice messages i (i + chunk_size) in
      let appended := match chunk with [] => [] | _ => [chunk] end in
      if (i + chunk_size >=? Z.of_nat (List.length messages))%Z
      then appended
      else appended ++ chunk_loop messages rest
  end.

Definition chunk_messages (messages : list Msg) : result (list (list Msg)) :=
  match messages with
  | [] => Ok []
  | _ =>
      bind (range0 (Z.of_nat (List.length messages))
                   (chunk_size - overlap_size))
           (fun idxs => Ok (chunk_loop messages idxs))
  end.

End Chunker.

(** [l[-n:]] for [0 < n], and the empty list for [n = 0]: the last [n]
    elements of a chunk. *)
Definition lastn {A} (n : nat) (l : list A) : list A :=
  skipn (List.length l - n) l.

(** ** Strings

    Text is modelled as ASCII strings: [lower] folds the letters [A]-[Z],
    [strip] removes the ASCII white space [str.strip] removes.  On text
    of ASCII characters ([ascii_text]) they are [str.lower] and
    [str.strip]; on other text Python folds and strips more (the cased
    letters and the white space of Unicode), so that a candidate the
    model drops is dropped by the code, and a statement that a candidate
    is kept asks for ASCII text. *)

Definition lower_ascii (c : ascii) : ascii :=
  let n := nat_of_ascii c in
  if ((65 <=? n) && (n <=? 90))%nat then ascii_of_nat (n + 32) else c.

Fixpoint lower (s : string) : string :=
  match s with
  | EmptyString => EmptyString
  | String c r => String (lower_ascii c) (lower r)
  end.

Definition is_space (c : ascii) : bool :=
  let n := nat_of_ascii c in
  (((9 <=? n) && (n <=? 13)) || ((28 <=? n) && (n <=? 32)))%nat.

Fixpoint lstrip (s : string) : string :=
  match s with
  | EmptyString => EmptyString
  | String c r => if is_space c then lstrip r else s
  end.

Fixpoint rstrip (s : string) : string :=
  match s with
  | EmptyString => EmptyString
  | String c r =>
      match rstrip r with
      | EmptyString => if is_space c then EmptyString else String c EmptyString
      | r' => String c r'
      end
  end.

Definition strip (s : string) : string := lstrip (rstrip s).

(** [s in l] for a list (or set) of strings. *)
Definition str_in (s : string) (l : list string) : bool :=
  existsb (String.eqb s) l.

(** ** Insertion-ordered dicts with string keys *)

Definition dict (V : Type) : Type := list (string * V).

Fixpoint dict_get {V} (d : dict V) (k : string) : option V :=
  match d with
  | [] => None
  | (k', v) :: r => if String.eqb k' k then Some v else dict_get r k
  end.

(** [d[k] = v]: in place when the key is there, at the end otherwise. *)
Fixpoint dict_set {V} (d : dict V) (k : string) (v : V) : dict V :=
  match d with
  | [] => [(k, v)]
  | (k', v') :: r =>
      if String.eqb k' k then (k', v) :: r else (k', v') :: dict_set r k v
  end.

(** [if k not in d: d[k] = []] followed by [d[k].append(x)]. *)
Definition dict_append {V} (d : dict (list V)) (k : string) (x : V)
  : dict (list V) :=
  match dict_get d k with
  | None => dict_set d k [x]
  | Some l => dict_set d k (l ++ [x])
  end.

(** ** 3. Data model: fact candidates

    A candidate is a JSON object with the keys of the response format the
    prompt asks for: [detail] with [type] and [value], [confidence] and
    [evidence].  On such an object the Validator's guard against an entry
    that is no object or has no [detail] never fires, and its reads with a
    default return the key.  The keys of an evidence entry are optional,
    as the code reads them with [get]. *)

Record Evidence : Type := mkEvidence {
  message_id : option string;
  message_snippet : option string;
  snippet : option string
}.

Record Detail : Type := mkDetail {
  fact_type : string;
  fact_value : string
}.

Record Node : Type := mkNode {
  detail : Detail;
  confidence : Q;
  evidence : list Evidence
}.

(** [dict.get(key, default)] on an optional key. *)
Definition get_default {A} (o : option A) (default : A) : A :=
  match o with
  | Some a => a
  | None => default
  end.

(** Comparison of two confidences: [a < b]. *)
Definition Qltb (a b : Q) : bool := negb (Qle_bool b a).

(** ** 4.4 Extraction Validator: [_validate_extractions] *)

Definition invalid_relationship_values : list string :=
  ["wife"; "husband"; "nephew"; "niece"; "son"; "daughter"; "brother";
   "sister"; "mother"; "father"; "aunt"; "uncle"; "cousin"; "friend";
   "colleague"].

Definition invalid_evidence_patterns : list string :=
  ["thanks guys"; "thank you"; "thanks"; "ok"; "okay"; "yes"; "no";
   "sure"; "great"; "perfect"; "sounds good"; "alright"].

Definition relationship_types : list string :=
  ["relationship"; "family_member"; "spouse"].

Definition travel_types : list string :=
  ["travel_plan"; "flight_number"; "travel_date"].

Definition CONFIDENCE_THRESHOLD : Q := 3 # 4.

(** The inner [for ev in evidence] loop: it sets [skip_node] at the first
    snippet that is one of the patterns. *)
Definition invalid_evidence (evs : list Evidence) : bool :=
  existsb
    (fun ev =>
       str_in (strip (lower (get_default (message_snippet ev) EmptyString)))
              invalid_evidence_patterns)
    evs.

(** One turn of [for node in nodes], on the pair of [validated_data] and
    the [validated_nodes] of the layer being read. *)
Definition validate_node (layer : string)
    (st : dict (list Node) * list Node) (node : Node)
  : dict (list Node) * list Node :=
  let (validated_data, validated_nodes) := st in
  let ftype := fact_type (detail node) in
  let fvalue := strip (lower (fact_value (detail node))) in
  let skip_relation :=
    str_in ftype relationship_types
    && str_in fvalue invalid_relationship_values in
  let skip_evidence := invalid_evidence (evidence node) in
  if String.eqb layer "Layer1" && str_in ftype travel_types
  then (dict_append validated_data "Layer4" node, validated_nodes)
  else
    let skip_confidence := Qltb (confidence node) CONFIDENCE_THRESHOLD in
    if skip_relation || skip_evidence || skip_confidence
    then (validated_data, validated_nodes)
    else (validated_data, validated_nodes ++ [node]).

(** One turn of [for layer, nodes in raw_data.items()]. *)
Definition validate_layer (validated_data : dict (list Node))
    (entry : string * list Node) : dict (list Node) :=
  let (layer, nodes) := entry in
  let (validated_data', validated_nodes) :=
    fold_left (validate_node layer) nodes (validated_data, []) in
  match validated_nodes with
  | [] => validated_data'
  | _ :: _ => dict_set validated_data' layer validated_nodes
  end.

Definition _validate_extractions (raw_data : dict (list Node))
  : dict (list Node) :=
  fold_left validate_layer raw_data [].

(** ** The similarity ratio of [fuzzywuzzy]

    [fuzz.ratio] is a library function.  The deduplication code is
    embedded over any [ratio : string -> string -> Z]; [fuzz_ratio] is the
    function the library computes with the [python-Levenshtein] matcher
    the source asks for: 100 on equal strings, 0 when one is empty, and
    otherwise [2 * M / T] in percent, rounded to the nearest integer
    (halves to the even one), with [M] the length of a longest common
    subsequence and [T] the sum of the lengths. *)

Fixpoint lcs_length (a b : list ascii) : nat :=
  match a with
  | [] => 0
  | x :: a' =>
      (fix along (b : list ascii) : nat :=
         match b with
         | [] => 0
         | y :: b' =>
             if Ascii.eqb x y then S (lcs_length a' b')
             else Nat.max (lcs_length a' b) (along b')
         end) b
  end.

(** [int(round(num / den))] for [0 <= num] and [0 < den], on the exact
    quotient: the library rounds the floating-point product
    [100 * ratio], which can fall on the other side of a quotient that
    ends in one half.  [fuzz_ratio] is used on ASCII inputs away from
    such a half only; the general statements take the ratio as a
    parameter. *)
Definition round_half_even (num den : Z) : Z :=
  let q := (num / den)%Z in
  let r := (num mod den)%Z in
  if (2 * r <? den)%Z then q
  else if (den <? 2 * r)%Z then (q + 1)%Z
  else if Z.even q then q else (q + 1)%Z.

Definition fuzz_ratio (s1 s2 : string) : Z :=
  if String.eqb s1 s2 then 100%Z
  else if (String.length s1 =? 0)%nat || (String.length s2 =? 0)%nat then 0%Z
  else
    round_half_even
      (200 * Z.of_nat (lcs_length (list_ascii_of_string s1)
                                  (list_ascii_of_string s2)))
      (Z.of_nat (String.length s1 + String.length s2)).

(** ** 4.6 Deduplicator, Tier B: the rule-based functions *)

(** [a == b] on two evidence entries and on two nodes, as Python compares
    dicts: key by key, numbers by value. *)
Definition option_eqb {A} (eqb : A -> A -> bool) (a b : option A) : bool :=
  match a, b with
  | Some x, Some y => eqb x y
  | None, None => true
  | _, _ => false
  end.

Definition evidence_eqb (a b : Evidence) : bool :=
  option_eqb String.eqb (message_id a) (message_id b)
  && option_eqb String.eqb (message_snippet a) (message_snippet b)
  && option_eqb String.eqb (snippet a) (snippet b).

Fixpoint list_eqb {A} (eqb : A -> A -> bool) (l1 l2 : list A) : bool :=
  match l1, l2 with
  | [], [] => true
  | x :: r1, y :: r2 => eqb x y && list_eqb eqb r1 r2
  | _, _ => false
  end.

Definition node_eqb (a b : Node) : bool :=
  String.eqb (fact_type (detail a)) (fact_type (detail b))
  && String.eqb (fact_value (detail a)) (fact_value (detail b))
  && Qeq_bool (confidence a) (confidence b)
  && list_eqb evidence_eqb (evidence a) (evidence b).

(** [l.remove(x)]: the first element equal to [x] goes. *)
Fixpoint list_remove (x : Node) (l : list Node) : list Node :=
  match l with
  | [] => []
  | y :: r => if node_eqb y x then r else y :: list_remove x r
  end.

(** The value a fact is compared by: [fact["detail"]["value"].lower().strip()]. *)
Definition norm_value (n : Node) : string :=
  strip (lower (fact_value (detail n))).

Section TierB.

Variable ratio : string -> string -> Z.

(** [_deduplicate_facts]: the test of the inner loop, on the fact read and
    one fact already kept. *)
Definition similar_fact (fact existing : Node) : bool :=
  String.eqb (fact_type (detail fact)) (fact_type (detail existing))
  && (85 <? ratio (norm_value fact) (norm_value existing))%Z.

(** What the inner loop does at the first kept fact that passes [test]:
    the new fact takes its place (at the end) when it is more confident,
    and is dropped otherwise. *)
Definition replace_or_drop (deduped : list Node) (fact existing : Node)
  : list Node :=
  if Qltb (confidence existing) (confidence fact)
  then list_remove existing deduped ++ [fact]
  else deduped.

Definition dedup_step (deduped : list Node) (fact : Node) : list Node :=
  match find (similar_fact fact) deduped with
  | Some existing => replace_or_drop deduped fact existing
  | None => deduped ++ [fact]
  end.

Definition _deduplicate_facts (facts : list Node) : list Node :=
  fold_left dedup_step facts [].

(** [sorted(phone_facts, key=confidence, reverse=True)]: a stable sort,
    so facts of equal confidence keep their order. *)
Fixpoint insert_by_confidence (x : Node) (l : list Node) : list Node :=
  match l with
  | [] => [x]
  | y :: r =>
      if Qltb (confidence x) (confidence y)
      then y :: insert_by_confidence x r
      else x :: l
  end.

Definition sorted_by_confidence (l : list Node) : list Node :=
  fold_right insert_by_confidence [] l.

Definition _deduplicate_phone_numbers (phone_facts : list Node) : list Node :=
  match sorted_by_confidence phone_facts with
  | [] => []
  | best_phone :: _ => [best_phone]
  end.

(** [_deduplicate_contact_info]: the test of its inner loop. *)
Definition same_contact (ftype : string) (fact existing : Node) : bool :=
  if String.eqb ftype "email"
  then String.eqb (norm_value fact) (norm_value existing)
  else if String.eqb ftype "address"
  then String.eqb (norm_value fact) (norm_value existing)
       || (85 <? ratio (norm_value fact) (norm_value existing))%Z
  else false.

Definition contact_step (ftype : string) (deduped : list Node) (fact : Node)
  : list Node :=
  match find (same_contact ftype fact) deduped with
  | Some existing =>
      if String.eqb ftype "email" then deduped
      else replace_or_drop deduped fact existing
  | None => deduped ++ [fact]
  end.

Definition _deduplicate_contact_info (contact_facts : list Node)
    (ftype : string) : list Node :=
  fold_left (contact_step ftype) contact_facts [].

(** [facts_by_type]: the facts grouped by type, types in first-seen
    order. *)
Definition group_by_type (facts : list Node) : dict (list Node) :=
  fold_left (fun groups fact => dict_append groups (fact_type (detail fact)) fact)
            facts [].

Definition dedup_group (group : string * list Node) : list Node :=
  let (ftype, type_facts) := group in
  if String.eqb ftype "phone_number"
  then _deduplicate_phone_numbers type_facts
  else if str_in ftype ["address"; "email"]
  then _deduplicate_contact_info type_facts ftype
  else _deduplicate_facts type_facts.

Definition _deduplicate_facts_enhanced (facts : list Node) (layer : string)
  : list Node :=
  flat_map dedup_group (group_by_type facts).

(** [_apply_fallback_deduplication], without its log lines. *)
Definition _apply_fallback_deduplication (extracted_data : dict (list Node))
  : dict (list Node) :=
  fold_left
    (fun result entry =>
       let '(layer, nodes) := entry in
       dict_set result layer (_deduplicate_facts_enhanced nodes layer))
    extracted_data [].

(** ** 4.5 Merger: [merge_extracted_data] *)

Definition LAYERS : list string :=
  ["Layer1"; "Layer2"; "Layer3"; "Layer4"].

(** [for layer in LAYERS: if layer in extracted: merged[layer].extend(...)] *)
Definition extend_layers (merged extracted : dict (list Node))
  : dict (list Node) :=
  fold_left
    (fun merged layer =>
       match dict_get extracted layer with
       | Some nodes =>
           dict_set merged layer (get_default (dict_get merged layer) [] ++ nodes)
       | None => merged
       end)
    LAYERS merged.

Definition merge_extracted_data (all_extracted : list (dict (list Node)))
  : dict (list Node) :=
  let merged :=
    fold_left extend_layers all_extracted
              (map (fun layer => (layer, [])) LAYERS) in
  map (fun entry => (fst entry, _deduplicate_facts (snd entry))) merged.

End TierB.

(** ** Vocabulary of the deduplication properties *)

(** The common shape of the loops of [_deduplicate_facts] and
    [_deduplicate_contact_info]: look for the first kept fact that passes
    [test]; [replaces] tells whether a more confident fact takes its
    place. *)
Definition greedy_step (test : Node -> Node -> bool) (replaces : bool)
    (deduped : list Node) (fact : Node) : list Node :=
  match find (test fact) deduped with
  | Some existing =>
      if replaces then replace_or_drop deduped fact existing else deduped
  | None => deduped ++ [fact]
  end.

(** No fact of [l] passes [test] against a fact before it. *)
Fixpoint duplicate_free (test : Node -> Node -> bool) (l : list Node) : Prop :=
  match l with
  | [] => True
  | e :: r => (forall f, In f r -> test f e = false) /\ duplicate_free test r
  end.

(** The facts whose type has a rule of its own that needs no similarity
    ratio. *)
Definition exact_type (n : Node) : bool :=
  str_in (fact_type (detail n)) ["phone_number"; "email"].

(** The similarity test is an equivalence among the facts of [facts] that
    are compared by ratio. *)
Definition similarity_equivalence (ratio : string -> string -> Z)
    (facts : list Node) : Prop :=
  (forall a, In a facts -> exact_type a = false ->
     similar_fact ratio a a = true) /\
  (forall a b, In a facts -> In b facts -> exact_type a = false ->
     similar_fact ratio a b = true -> similar_fact ratio b a = true) /\
  (forall a b c, In a facts -> In b facts -> In c facts ->
     exact_type a = false ->
     similar_fact ratio a b = true -> similar_fact ratio b c = true ->
     similar_fact ratio a c = true).

(** Three names, the third close to the first two, which are not close
    to each other. *)
Definition name_fact (v : string) (c : Q) : Node :=
  mkNode (mkDetail "name" v) c
         [mkEvidence (Some "m1") (Some v) None].

Definition chain_facts : list Node :=
  [name_fact "abcdefghix" (8 # 10);
   name_fact "ybcdefghij" (8 # 10);
   name_fact "abcdefghij" (9 # 10)].

(** Three phone numbers of confidence 0.7, 0.95 and 0.8. *)
Definition phone_fact (v : string) (c : Q) : Node :=
  mkNode (mkDetail "phone_number" v) c
         [mkEvidence (Some "m1") (Some v) None].

Definition phone_facts_3 : list Node :=
  [phone_fact "9876543210" (7 # 10);
   phone_fact "9870781578" (95 # 100);
   phone_fact "+919876543210" (8 # 10)].

(** A dict of groups as [group_by_type] builds them: distinct types, no
    empty group, every fact under its own type. *)
Definition well_grouped (groups : dict (list Node)) : Prop :=
  NoDup (map fst groups) /\
  Forall (fun g => snd g <> [] /\
                   forall f, In f (snd g) -> fact_type (detail f) = fst g)
         groups.

(** A name given twice, in two spellings, and a phone number. *)
Definition repeated_facts : list Node :=
  [name_fact "Asha Rao" (8 # 10);
   name_fact " asha rao " (9 # 10);
   phone_fact "9876543210" (8 # 10)].

(** ** Vocabulary of the Merger property *)

(** The words of the specification (4.5): the concatenation of a layer's
    candidate lists in chunk-processing order, then within-chunk order. *)
Definition concatenated_layer (all_extracted : list (dict (list Node)))
    (layer : string) : list Node :=
  flat_map (fun extracted => get_default (dict_get extracted layer) [])
           all_extracted.


(** ** Vocabulary of the Validator properties *)

(** The value, trimmed and in lower case, is one of the bare relation
    words. *)
Definition bare_relation_value (v : string) : bool :=
  str_in (strip (lower v)) invalid_relationship_values.

(** A candidate of a relationship type whose value is a bare relation
    word. *)
Definition bare_relation (n : Node) : bool :=
  str_in (fact_type (detail n)) relationship_types
  && bare_relation_value (fact_value (detail n)).


Definition relation_fact (t v : string) (c : Q) (snip : string) : Node :=
  mkNode (mkDetail t v) c [mkEvidence (Some "m7") (Some snip) None].

(** A chunk's raw result: a bare relation word, a named spouse, and a
    named spouse whose evidence is a contentless phrase. *)
Definition raw_relations : dict (list Node) :=
  [("Layer3",
    [relation_fact "spouse" "Wife" (9 # 10) "my wife will come";
     relation_fact "spouse" "Sarah" (9 # 10) "my wife Sarah"])].


(** A chunk's raw result with a layer-1 flight number of confidence 0.1. *)
Definition flight_fact (c : Q) : Node :=
  mkNode (mkDetail "flight_number" "AI202") c
         [mkEvidence (Some "m3") (Some "my flight is AI202") None].

Definition raw_low_flight : dict (list Node) :=
  [("Layer1", [flight_fact (1 # 10)])].

(** A node the three checks of the Validator let through. *)
Definition passes_checks (n : Node) : bool :=
  negb (bare_relation n)
  && negb (invalid_evidence (evidence n))
  && Qle_bool CONFIDENCE_THRESHOLD (confidence n).

(** The node is in the list a dict of layers has for a layer. *)
Definition in_layer (d : dict (list Node)) (layer : string) (n : Node) : Prop :=
  exists nodes, dict_get d layer = Some nodes /\ In n nodes.

(** ** Messages and the Message Normalizer *)

(** An entry of [user_queries] or [team_replies] in the input document. *)
Record RawMessage : Type := mkRawMessage {
  raw_message_id : option string;
  raw_message : option string
}.

Record Conversation : Type := mkConversation {
  user_queries : option (list RawMessage);
  team_replies : option (list RawMessage)
}.

(** The entry after [process_json] has copied it and set [sender],
    [conversation_id] and [id]. *)
Record Message : Type := mkMessage {
  msg_entry : RawMessage;
  msg_sender : string;
  msg_conversation_id : nat;
  msg_id : string
}.

(** [str(n)] *)
Definition str_of_nat (n : nat) : string :=
  NilZero.string_of_uint (Nat.to_uint n).

Definition flatten_conversation (entry : nat * Conversation) : list Message :=
  let (conv_idx, conv) := entry in
  map (fun query =>
         mkMessage query "User" conv_idx
           (get_default (raw_message_id query)
                        ("unknown_user_" ++ str_of_nat conv_idx)%string))
      (get_default (user_queries conv) [])
  ++
  map (fun reply =>
         mkMessage reply "Team" conv_idx
           (get_default (raw_message_id reply)
                        ("unknown_team_" ++ str_of_nat conv_idx)%string))
      (get_default (team_replies conv) []).

(** [for conv_idx, conv in enumerate(input_json)] *)
Definition flatten_messages (input_json : list Conversation) : list Message :=
  flat_map flatten_conversation
           (combine (seq 0 (List.length input_json)) input_json).

(** ** 4.3 Prompt Builder: [deduplicate_messages] *)

Definition message_step (ratio : string -> string -> Z)
    (st : list string * list Message) (msg : Message)
  : list string * list Message :=
  let (seen, deduped) := st in
  let text := lower (strip (get_default (raw_message (msg_entry msg)) EmptyString)) in
  if String.eqb text EmptyString then st
  else if existsb (fun s => (95 <? ratio text s)%Z) seen then st
  else (seen ++ [text], deduped ++ [msg]).

Definition deduplicate_messages (ratio : string -> string -> Z)
    (messages : list Message) : list Message :=
  snd (fold_left (message_step ratio) messages ([], [])).

(** ** 4.7 Persistence Adapter: conclusions *)

Definition upper_ascii (c : ascii) : ascii :=
  let n := nat_of_ascii c in
  if ((97 <=? n) && (n <=? 122))%nat then ascii_of_nat (n - 32) else c.

Definition is_alpha (c : ascii) : bool :=
  let n := nat_of_ascii c in
  (((65 <=? n) && (n <=? 90)) || ((97 <=? n) && (n <=? 122)))%nat.

(** [s.title()]: a letter that follows a letter is lowered, any other
    letter is raised. *)
Fixpoint title_from (after_letter : bool) (s : string) : string :=
  match s with
  | EmptyString => EmptyString
  | String c r =>
      if is_alpha c
      then String (if after_letter then lower_ascii c else upper_ascii c)
                  (title_from true r)
      else String c (title_from false r)
  end.

Definition title (s : string) : string := title_from false s.

(** [s.replace('_', ' ')] *)
Fixpoint underscores_to_spaces (s : string) : string :=
  match s with
  | EmptyString => EmptyString
  | String c r =>
      String (if Ascii.eqb c "_" then " "%char else c) (underscores_to_spaces r)
  end.

(** The [fact_formatters] table, applied to the user and the value: for
    each listed fact type, its conclusion. *)
Definition fact_formatters (u v : string) : dict string :=
  [("phone", "📱 Phone number of " ++ u ++ " is " ++ v);
   ("phone_number", "📱 Phone number of " ++ u ++ " is " ++ v);
   ("email", "📧 Email address of " ++ u ++ " is " ++ v);
   ("address", "🏠 Home address of " ++ u ++ " is " ++ v);
   ("dob", "🎂 Date of birth of " ++ u ++ " is " ++ v);
   ("name", "👤 Name of " ++ u ++ " is " ++ v);
   ("age", "📅 Age of " ++ u ++ " is " ++ v);
   ("occupation", "💼 Occupation of " ++ u ++ " is " ++ v);
   ("company", "🏢 Company of " ++ u ++ " is " ++ v);
   ("relationship_status", "💑 Relationship status of " ++ u ++ " is " ++ v);
   ("gender", "⚧ Gender of " ++ u ++ " is " ++ v);
   ("nationality", "🌍 Nationality of " ++ u ++ " is " ++ v);
   ("document_type", "📄 " ++ u ++ " shared a document of type " ++ v);
   ("aadhaar_number", "🆔 Aadhaar number of " ++ u ++ " is " ++ v);
   ("pan_number", "📇 PAN number of " ++ u ++ " is " ++ v);
   ("family_member", "👨‍👩‍👧‍👦 Family member of " ++ u ++ ": " ++ v);
   ("friend", "👫 Friend of " ++ u ++ ": " ++ v);
   ("colleague", "🤝 Colleague of " ++ u ++ ": " ++ v);
   ("contact_name", "📞 Contact of " ++ u ++ ": " ++ v);
   ("relationship_type", "💕 " ++ v ++ " of " ++ u);
   ("food_preference", "🍽️ Food preference of " ++ u ++ ": " ++ v);
   ("restaurant_preference", "🏪 Preferred restaurant of " ++ u ++ ": " ++ v);
   ("allergy", "⚠️ " ++ u ++ " is allergic to " ++ v);
   ("service_provider", "🔧 Service provider of " ++ u ++ ": " ++ v);
   ("vendor_name", "🛒 Vendor used by " ++ u ++ ": " ++ v);
   ("habit", "🔄 Personal habit of " ++ u ++ ": " ++ v);
   ("routine", "📋 Routine of " ++ u ++ ": " ++ v)]%string.

Definition _format_concluded_fact (user_id ftype value : string) : string :=
  get_default
    (dict_get (fact_formatters user_id value) ftype)
    (title (underscores_to_spaces ftype) ++ " of " ++ user_id ++ " is " ++ value)%string.

(** [int(s)] on a string: an optional sign and decimal digits, single
    underscores between digits, white space around. *)
Definition digit_of (c : ascii) : option Z :=
  let n := nat_of_ascii c in
  if ((48 <=? n) && (n <=? 57))%nat then Some (Z.of_nat (n - 48)) else None.

Fixpoint parse_digits (s : string) (acc : Z) (after_digit : bool)
  : option Z :=
  match s with
  | EmptyString => if after_digit then Some acc else None
  | String c r =>
      match digit_of c with
      | Some d => parse_digits r (10 * acc + d)%Z true
      | None =>
          if Ascii.eqb c "_" && after_digit then parse_digits r acc false
          else None
      end
  end.

Definition py_int (s : string) : result Z :=
  let unsigned (r : string) (sign : Z) : result Z :=
    match parse_digits r 0 false with
    | Some n => Ok (sign * n)%Z
    | None => Raise ValueError
    end in
  match strip s with
  | String "+" r => unsigned r 1%Z
  | String "-" r => unsigned r (-1)%Z
  | r => unsigned r 1%Z
  end.

(** [s.replace(pat, empty)], with [skip] characters of a match still to
    drop. *)
Fixpoint remove_all (pat : string) (skip : nat) (s : string) : string :=
  match s with
  | EmptyString => EmptyString
  | String c r =>
      match skip with
      | S k => remove_all pat k r
      | O =>
          if negb (String.eqb pat EmptyString) && String.prefix pat s
          then remove_all pat (String.length pat - 1) r
          else String c (remove_all pat 0 r)
      end
  end.

(** [int(...)] of the layer key without its occurrences of [Layer]. *)
Definition layer_number (layer : string) : result Z :=
  py_int (remove_all "Layer" 0 layer).

(** ** 6. The Fact Store ([supabase_manager]) and the extraction service

    What the outside world answers is given by functions of the history
    of calls made so far: the replies of the language model, and whether
    a call to the store succeeds. *)

(** A row of [memory_nodes], as [store_memory_node] builds it. *)
Record FactRecord : Type := mkFactRecord {
  rec_user_id : string;
  rec_layer : Z;
  rec_fact_type : string;
  rec_content : string;
  rec_concluded_fact : string;
  rec_confidence : Q;
  rec_status : string;
  rec_evidence : list Evidence;
  rec_extraction_method : string;
  rec_parent_update_id : option string
}.

(** A fact in the reply of the deduplication prompt: any key may be
    missing ([lf_evidence] is [None] also when it is no list). *)
Record LFact : Type := mkLFact {
  lf_type : option string;
  lf_value : option string;
  lf_confidence : option Q;
  lf_evidence : option (list Evidence)
}.

Inductive Event : Type :=
| SelectProcessed (user_id : string)
| LLMExtract (user_id : string) (chunk : list Message)
| LLMDedup (user_id : string) (facts_by_layer : dict (list LFact))
| InsertNode (record : FactRecord)
| SelectSummary (user_id : string)
| UpsertProcessed (user_id : string) (total_nodes_extracted : nat).

Record World : Type := mkWorld {
  connected : bool;
  memory_nodes : list FactRecord;
  processed_files : list (string * nat);
  history : list Event
}.

Record Oracle : Type := mkOracle {
  (** the parsed reply to an extraction prompt; [None] when the call
      fails or the reply is no JSON *)
  llm_extract : list Event -> string -> list Message -> option (dict (list Node));
  (** what [call_llm_for_deduplication] returns; the empty dict when the
      call fails or the reply is not usable *)
  llm_dedup : list Event -> string -> dict (list LFact) -> dict (list LFact);
  (** the id the store gives an inserted row; [None] when the insert
      fails *)
  db_insert : list Event -> FactRecord -> option string;
  (** whether a select or an upsert succeeds *)
  db_ok : list Event -> bool
}.

Definition record_event (w : World) (e : Event) : World :=
  mkWorld (connected w) (memory_nodes w) (processed_files w) (history w ++ [e]).

Definition is_connected (w : World) : bool := connected w.

(** [supabase_manager.store_memory_node] *)
Definition store_memory_node (o : Oracle) (w : World)
    (user_phone : string) (layer : Z) (ftype content concluded_fact : string)
    (conf : Q) (evs : list Evidence)
    (extraction_method : string) (parent_update_id : option string)
  : World * option string :=
  if negb (is_connected w) then (w, None)
  else
    let node_data :=
      mkFactRecord user_phone layer ftype content concluded_fact conf
                   "pending" evs extraction_method parent_update_id in
    let w' := record_event w (InsertNode node_data) in
    match db_insert o (history w) node_data with
    | Some node_id =>
        (mkWorld (connected w') (memory_nodes w' ++ [node_data])
                 (processed_files w') (history w'),
         Some node_id)
    | None => (w', None)
    end.

(** [supabase_manager.get_user_summary]: a read, whose answer is only
    printed. *)
Definition get_user_summary (w : World) (user_phone : string) : World :=
  if negb (is_connected w) then w
  else record_event w (SelectSummary user_phone).

(** [supabase_manager.is_file_processed] *)
Definition is_file_processed (o : Oracle) (w : World) (user_id : string)
  : World * bool :=
  if negb (is_connected w) then (w, false)
  else
    (record_event w (SelectProcessed user_id),
     db_ok o (history w)
     && existsb (fun row => String.eqb (fst row) user_id) (processed_files w)).

(** [supabase_manager.mark_file_processed]: an upsert on the user. *)
Definition mark_file_processed (o : Oracle) (w : World) (user_id : string)
    (total_nodes_extracted : nat) : World * bool :=
  if negb (is_connected w) then (w, false)
  else
    let w' := record_event w (UpsertProcessed user_id total_nodes_extracted) in
    if db_ok o (history w)
    then (mkWorld (connected w') (memory_nodes w')
                  (filter (fun row => negb (String.eqb (fst row) user_id))
                          (processed_files w')
                   ++ [(user_id, total_nodes_extracted)])
                  (history w'),
          true)
    else (w', false).

(** ** The extractor object *)

Record Extractor : Type := mkExtractor {
  chunk_size : Z;
  overlap_size : Z;
  db_enabled : bool
}.

(** [JSONContextExtractor.__init__]: [db_enabled] is the connection test,
    made once. *)
Definition new_extractor (size overlap : Z) (w : World) : Extractor :=
  mkExtractor size overlap (is_connected w).

(** ** 4.7 Persistence Adapter: [store_in_db] *)

Record Stats : Type := mkStats {
  stored : nat;
  duplicate : nat;
  low_confidence_rejected : nat
}.

Record StorageResult : Type := mkStorageResult {
  newly_stored_nodes : dict (list Node);
  stats : Stats
}.

(** The locals of the [try] block. *)
Record StoreState : Type := mkStoreState {
  st_world : World;
  st_stored : nat;
  st_duplicate : nat;
  st_rejected : nat;
  st_newly : dict (list Node)
}.

(** [if node_id:] *)
Definition truthy_id (node_id : option string) : bool :=
  match node_id with
  | Some s => negb (String.eqb s EmptyString)
  | None => false
  end.

(** One turn of [for node in nodes]. *)
Definition store_node (o : Oracle) (user_id layer : string) (number : Z)
    (st : StoreState) (node : Node) : StoreState :=
  if Qltb (confidence node) CONFIDENCE_THRESHOLD
  then mkStoreState (st_world st) (st_stored st) (st_duplicate st)
                    (S (st_rejected st)) (st_newly st)
  else
    let ftype := fact_type (detail node) in
    let value := fact_value (detail node) in
    let concluded_fact := _format_concluded_fact user_id ftype value in
    let (w', node_id) :=
      store_memory_node o (st_world st) user_id number ftype value
                        concluded_fact (confidence node) (evidence node)
                        "initial" None in
    if truthy_id node_id
    then mkStoreState w' (S (st_stored st)) (st_duplicate st) (st_rejected st)
                      (dict_append (st_newly st) layer node)
    else mkStoreState w' (st_stored st) (S (st_duplicate st)) (st_rejected st)
                      (st_newly st).

(** [for layer, nodes in extracted_nodes.items()]: the state the loop
    reaches, and the exception that ended it, if one did. *)
Fixpoint store_layers (o : Oracle) (user_id : string)
    (entries : dict (list Node)) (st : StoreState) : StoreState * option exn :=
  match entries with
  | [] => (st, None)
  | (layer, nodes) :: rest =>
      match layer_number layer with
      | Raise e => (st, Some e)
      | Ok number =>
          let st0 :=
            mkStoreState (st_world st) (st_stored st) (st_duplicate st)
                         (st_rejected st) (dict_set (st_newly st) layer []) in
          store_layers o user_id rest
                       (fold_left (store_node o user_id layer number) nodes st0)
      end
  end.

(** [{layer: nodes for layer, nodes in d.items() if nodes}] *)
Definition nonempty_layers (d : dict (list Node)) : dict (list Node) :=
  filter (fun entry => match snd entry with [] => false | _ :: _ => true end) d.

(** The two returns that log the data instead of storing it. *)
Definition logged_only (extracted_nodes : dict (list Node)) : StorageResult :=
  mkStorageResult (nonempty_layers extracted_nodes) (mkStats 0 0 0).

Definition store_in_db (o : Oracle) (self : Extractor) (w : World)
    (extracted_nodes : dict (list Node)) (user_id : string)
  : World * StorageResult :=
  if negb (db_enabled self) then (w, logged_only extracted_nodes)
  else
    match store_layers o user_id extracted_nodes
                       (mkStoreState w 0 0 0 []) with
    | (st, None) =>
        (get_user_summary (st_world st) user_id,
         mkStorageResult (nonempty_layers (st_newly st))
                         (mkStats (st_stored st) (st_duplicate st)
                                  (st_rejected st)))
    | (st, Some _) => (st_world st, logged_only extracted_nodes)
    end.

(** ** 4.6 Deduplicator, Tier A: [deduplicate_with_llm] *)

(** The fact as the prompt shows it. *)
Definition to_llm_fact (node : Node) : LFact :=
  mkLFact
    (Some (fact_type (detail node)))
    (Some (fact_value (detail node)))
    (Some (confidence node))
    (Some (map (fun ev =>
                  mkEvidence
                    (Some (get_default (message_id ev) "unknown"))
                    None
                    (Some (get_default (message_snippet ev)
                                       (get_default (snippet ev) EmptyString))))
               (evidence node))).

(** The node rebuilt from a fact of the reply; no node for a fact
    without type or value. *)
Definition from_llm_fact (fact : LFact) : option Node :=
  match lf_type fact, lf_value fact with
  | Some ftype, Some value =>
      let evs :=
        match lf_evidence fact with
        | Some l =>
            map (fun ev =>
                   mkEvidence
                     (Some (get_default (message_id ev) "unknown"))
                     None
                     (Some (get_default (snippet ev)
                                        (get_default (message_snippet ev) EmptyString))))
                l
        | None =>
            [mkEvidence (Some "unknown") None
                        (Some "Evidence missing during deduplication")]
        end in
      Some (mkNode (mkDetail ftype value)
                   (get_default (lf_confidence fact) (8 # 10)%Q) evs)
  | _, _ => None
  end.

Definition from_llm_facts (facts : list LFact) : list Node :=
  flat_map (fun fact => match from_llm_fact fact with
                        | Some node => [node]
                        | None => []
                        end) facts.

Definition count_facts {A} (d : dict (list A)) : nat :=
  list_sum (map (fun entry => List.length (snd entry)) d).

Definition deduplicate_with_llm (ratio : string -> string -> Z) (o : Oracle)
    (w : World) (extracted_data : dict (list Node)) (user_id : string)
  : World * dict (list Node) :=
  match extracted_data with
  | [] => (w, [])
  | _ :: _ =>
      let facts_by_layer :=
        map (fun entry => (fst entry, map to_llm_fact (snd entry)))
            extracted_data in
      let w' := record_event w (LLMDedup user_id facts_by_layer) in
      let deduplicated_data := llm_dedup o (history w) user_id facts_by_layer in
      let missing_layers :=
        filter (fun layer => negb (str_in layer (map fst deduplicated_data)))
               (map fst extracted_data) in
      match deduplicated_data, missing_layers with
      | [], _ => (w', _apply_fallback_deduplication ratio extracted_data)
      | _, _ :: _ => (w', _apply_fallback_deduplication ratio extracted_data)
      | _, [] =>
          if (count_facts deduplicated_data =? 0)%nat
             && (0 <? count_facts extracted_data)%nat
          then (w', _apply_fallback_deduplication ratio extracted_data)
          else
            (w',
             fold_left
               (fun result entry =>
                  dict_set result (fst entry) (from_llm_facts (snd entry)))
               deduplicated_data [])
      end
  end.

(** ** The pipeline: [call_llm_for_extraction] and [process_json] *)

Definition call_llm_for_extraction (ratio : string -> string -> Z) (o : Oracle)
    (w : World) (user_id : string) (chunk : list Message)
  : World * dict (list Node) :=
  let deduped_chunk := deduplicate_messages ratio chunk in
  (record_event w (LLMExtract user_id deduped_chunk),
   match llm_extract o (history w) user_id deduped_chunk with
   | Some raw_data => _validate_extractions raw_data
   | None => []
   end).

(** The values of the dict [process_json] returns. *)
Inductive PyValue : Type :=
| PStr (s : string)
| PBool (b : bool)
| PNodes (nodes : list Node).

Definition skip_notice : dict PyValue :=
  [("message", PStr "Already processed"); ("skipped", PBool true)].

(** One turn of [for i, chunk in enumerate(chunks)]. *)
Definition extract_chunk (ratio : string -> string -> Z) (o : Oracle)
    (user_id : string) (st : World * list (dict (list Node)))
    (chunk : list Message) : World * list (dict (list Node)) :=
  let (w, all_extracted_data) := st in
  let (w', extracted_data) := call_llm_for_extraction ratio o w user_id chunk in
  match extracted_data with
  | [] => (w', all_extracted_data)
  | _ :: _ => (w', all_extracted_data ++ [extracted_data])
  end.

Definition process_json (ratio : string -> string -> Z) (o : Oracle)
    (self : Extractor) (w : World) (input_json : list Conversation)
    (user_id : string) (force_reprocess : bool)
  : World * result (dict PyValue) :=
  let (w1, already_processed) :=
    if negb force_reprocess && db_enabled self
    then is_file_processed o w user_id
    else (w, false) in
  if already_processed then (w1, Ok skip_notice)
  else
    let all_messages := flatten_messages input_json in
    match chunk_messages (chunk_size self) (overlap_size self) all_messages with
    | Raise e => (w1, Raise e)
    | Ok chunks =>
        let (w2, all_extracted_data) :=
          fold_left (extract_chunk ratio o user_id) chunks (w1, []) in
        match all_extracted_data with
        | [] => (w2, Ok [])
        | _ :: _ =>
            let merged_data := merge_extracted_data ratio all_extracted_data in
            let (w3, deduplicated_data) :=
              deduplicate_with_llm ratio o w2 merged_data user_id in
            let dedup_total_nodes := count_facts deduplicated_data in
            let (w4, storage_result) :=
              store_in_db o self w3 deduplicated_data user_id in
            let w5 :=
              if db_enabled self
              then fst (mark_file_processed o w4 user_id dedup_total_nodes)
              else w4 in
            (w5,
             Ok (map (fun entry => (fst entry, PNodes (snd entry)))
                     (newly_stored_nodes storage_result)))
        end
    end.

(** ** Vocabulary of the persistence and pipeline properties *)


(** The marker of a user is in the store. *)
Definition marker_present (w : World) (user_id : string) : bool :=
  existsb (fun row => String.eqb (fst row) user_id) (processed_files w).

(** A world whose services answer: the model finds one phone number in
    every chunk and returns nothing usable to the deduplication prompt,
    the store accepts every call. *)
Definition phone_reply : dict (list Node) :=
  [("Layer1", [phone_fact "9876543210" (95 # 100)])].

Definition helpful_oracle : Oracle :=
  mkOracle (fun _ _ _ => Some phone_reply)
           (fun _ _ _ => [])
           (fun h _ => Some ("node-" ++ str_of_nat (List.length h))%string)
           (fun _ => true).

Definition one_conversation : list Conversation :=
  [mkConversation
     (Some [mkRawMessage (Some "m1") (Some "My phone number is 9876543210")])
     None].


Definition offline_world : World :=
  mkWorld false [] [("asha", 1)] [].

(** A candidate with an empty evidence list, and a reply of the
    deduplication prompt with such a fact. *)
Definition bare_fact : Node :=
  mkNode (mkDetail "name" "Asha Rao") (9 # 10) [].

Definition bare_reply : dict (list LFact) :=
  [("Layer1", [mkLFact (Some "name") (Some "Asha Rao") (Some (9 # 10)%Q)
                       (Some [])])].

Definition echo_oracle : Oracle :=
  mkOracle (fun _ _ _ => Some [("Layer1", [bare_fact])])
           (fun _ _ _ => bare_reply)
           (fun h _ => Some ("node-" ++ str_of_nat (List.length h))%string)
           (fun _ => true).

(** Layers for the store, the second under a key that is no layer
    number. *)
Definition odd_layers : dict (list Node) :=
  [("Layer1", [phone_fact "9876543210" (95 # 100)]);
   ("Summary", [name_fact "Asha Rao" (5 # 10)])].

(** ** Vocabulary of the proofs *)

(** The window the loop cuts at its [k]-th turn. *)
Definition window {Msg} (size overlap : Z) (messages : list Msg) (k : nat)
  : list Msg :=
  firstn (Z.to_nat size) (skipn (k * Z.to_nat (size - overlap)) messages).

(** One turn of the loop that fills [facts_by_type]. *)
Definition group_step (groups : dict (list Node)) (fact : Node)
  : dict (list Node) :=
  dict_append groups (fact_type (detail fact)) fact.


(** ** Vocabulary of the further properties *)

(** The messages back from their chunks: the first chunk, then every
    later chunk without the [overlap] messages it repeats. *)
Definition unchunk {A} (overlap : nat) (chunks : list (list A)) : list A :=
  match chunks with
  | [] => []
  | first :: rest => first ++ flat_map (skipn overlap) rest
  end.

(** The entries of a conversation in the order the Normalizer reads
    them: the user's queries, then the team's replies. *)
Definition conversation_entries (conv : Conversation) : list RawMessage :=
  get_default (user_queries conv) [] ++ get_default (team_replies conv) [].

(** [l1] is [l2] with some elements left out. *)
Inductive Subsequence {A} : list A -> list A -> Prop :=
| Subsequence_nil : Subsequence [] []
| Subsequence_skip x l1 l2 : Subsequence l1 l2 -> Subsequence l1 (x :: l2)
| Subsequence_keep x l1 l2 : Subsequence l1 l2 -> Subsequence (x :: l1) (x :: l2).

(** The text a message is compared by in [deduplicate_messages]. *)
Definition message_text (msg : Message) : string :=
  lower (strip (get_default (raw_message (msg_entry msg)) EmptyString)).

(** The message has a text and is not close to a message kept before. *)
Definition keepable (ratio : string -> string -> Z) (kept : list Message)
    (msg : Message) : bool :=
  negb (String.eqb (message_text msg) EmptyString)
  && negb (existsb (fun s => (95 <? ratio (message_text msg) s)%Z)
                   (map message_text kept)).

(** Every message of the list is [keepable] after the ones before it
    ([r] is the list, last message first). *)
Fixpoint kept_chain (ratio : string -> string -> Z) (r : list Message) : Prop :=
  match r with
  | [] => True
  | msg :: before => keepable ratio (rev before) msg = true
                     /\ kept_chain ratio before
  end.

(** Every node of a dict of layers stands in [Q] to the key it is
    under. *)
Definition all_entries (Q : string -> Node -> Prop) (d : dict (list Node))
  : Prop :=
  Forall (fun entry => Forall (Q (fst entry)) (snd entry)) d.

(** A candidate of a travel type. *)
Definition travel_fact (n : Node) : bool :=
  str_in (fact_type (detail n)) travel_types.


(** A layer-1 flight number and a layer-4 preference, both confident. *)
Definition raw_flight_and_preference : dict (list Node) :=
  [("Layer1", [flight_fact (9 # 10)]);
   ("Layer4",
    [mkNode (mkDetail "food_preference" "vegetarian") (9 # 10)
            [mkEvidence (Some "m4") (Some "I am vegetarian") None]])].

(** The fact is of type [t]. *)
Definition has_type (t : string) (n : Node) : bool :=
  String.eqb (fact_type (detail n)) t.

(** An evidence entry as it is after the round through the
    deduplication prompt: the id filled in, the snippet under the key
    [snippet]. *)
Definition prompt_evidence (ev : Evidence) : Evidence :=
  mkEvidence (Some (get_default (message_id ev) "unknown"))
             None
             (Some (get_default (message_snippet ev)
                                (get_default (snippet ev) EmptyString))).

Definition prompt_node (n : Node) : Node :=
  mkNode (detail n) (confidence n) (map prompt_evidence (evidence n)).

(** The facts as the deduplication prompt shows them. *)
Definition prompt_facts (extracted_data : dict (list Node))
  : dict (list LFact) :=
  map (fun entry => (fst entry, map to_llm_fact (snd entry))) extracted_data.

(** The row [store_in_db] writes for a candidate of a layer. *)
Definition row_of (user_id : string) (number : Z) (n : Node) : FactRecord :=
  mkFactRecord user_id number (fact_type (detail n)) (fact_value (detail n))
               (_format_concluded_fact user_id (fact_type (detail n))
                                       (fact_value (detail n)))
               (confidence n) "pending" (evidence n) "initial" None.

(** A row written for one of the candidates given to [store_in_db], of
    a confidence that reaches the threshold. *)
Definition written_row (user_id : string) (extracted_nodes : dict (list Node))
    (row : FactRecord) : Prop :=
  exists layer nodes n number,
    In (layer, nodes) extracted_nodes /\ In n nodes /\
    layer_number layer = Ok number /\
    Qle_bool CONFIDENCE_THRESHOLD (confidence n) = true /\
    row = row_of user_id number n.

(** The world [w'] is [w] with rows added to [memory_nodes], each a
    [written_row]; the connection and the markers are the same. *)
Definition rows_added (user_id : string) (extracted_nodes : dict (list Node))
    (w w' : World) : Prop :=
  connected w' = connected w /\
  processed_files w' = processed_files w /\
  exists rows, memory_nodes w' = memory_nodes w ++ rows /\
               Forall (written_row user_id extracted_nodes) rows.

(** A candidate of the layer [layer] of [extracted_nodes] whose
    confidence reaches the threshold. *)
Definition confident_candidate (extracted_nodes : dict (list Node))
    (layer : string) (n : Node) : Prop :=
  Qle_bool CONFIDENCE_THRESHOLD (confidence n) = true /\
  exists nodes, In (layer, nodes) extracted_nodes /\ In n nodes.

(** The counters of the [try] block of [store_in_db] after the entries
    [done]. *)
Definition counted (extracted_nodes done : dict (list Node))
    (st : StoreState) : Prop :=
  st_stored st + st_duplicate st + st_rejected st = count_facts done /\
  count_facts (st_newly st) = st_stored st /\
  map fst (st_newly st) = map fst done /\
  all_entries (confident_candidate extracted_nodes) (st_newly st).

(** ** Vocabulary of the pipeline properties *)

(** The store of [w'] is that of [w]: only the log of calls may differ. *)
Definition same_store (w w' : World) : Prop :=
  connected w' = connected w /\
  memory_nodes w' = memory_nodes w /\
  processed_files w' = processed_files w.

(** The extraction calls of a log, oldest first: the user and the
    messages of the prompt. *)
Definition extraction_calls (h : list Event) : list (string * list Message) :=
  flat_map (fun e => match e with
                     | LLMExtract user_id chunk => [(user_id, chunk)]
                     | _ => []
                     end) h.

(** A row as a run of the pipeline for [user_id] writes it. *)
Definition pipeline_row (user_id : string) (row : FactRecord) : Prop :=
  rec_user_id row = user_id /\
  rec_status row = "pending" /\
  rec_extraction_method row = "initial" /\
  rec_parent_update_id row = None /\
  Qle_bool CONFIDENCE_THRESHOLD (rec_confidence row) = true /\
  rec_concluded_fact row
  = _format_concluded_fact user_id (rec_fact_type row) (rec_content row).

(** The markers of the user [u]. *)
Definition markers_of (u : string) (w : World) : list (string * nat) :=
  filter (fun row => String.eqb (fst row) u) (processed_files w).

(** No chunk of the user gets a reply with a candidate the Validator
    keeps. *)
Definition nothing_extracted (o : Oracle) (user_id : string) : Prop :=
  forall h chunk,
    match llm_extract o h user_id chunk with
    | Some raw_data => _validate_extractions raw_data = []
    | None => True
    end.

(** A connected store with no row and no marker, and a model whose
    calls all fail. *)
Definition fresh_world : World := mkWorld true [] [] [].

Definition silent_oracle : Oracle :=
  mkOracle (fun _ _ _ => None)
           (fun _ _ _ => [])
           (fun _ _ => None)
           (fun _ => true).

(** From [w] to [w'] rows were only added to [memory_nodes], each a
    [pipeline_row] of the user, and the markers of every other user are
    the same. *)
Definition store_grown (user_id : string) (w w' : World) : Prop :=
  connected w' = connected w /\
  (exists rows, memory_nodes w' = memory_nodes w ++ rows /\
                Forall (pipeline_row user_id) rows) /\
  (forall u, u <> user_id -> markers_of u w' = markers_of u w).

(** The text [part] occurs in [s]. *)
Definition mentions (s part : string) : Prop :=
  exists pre post, s = (pre ++ part ++ post)%string.

(** ** Text of ASCII characters *)






(** The store answers no insert with a row id: the insert raised (the
    exception is caught in [store_memory_node]) or returned no data. *)
Definition inserts_fail (o : Oracle) : Prop :=
  forall h row, truthy_id (db_insert o h row) = false.

(** The candidates [store_in_db] does not reject for their
    confidence. *)
Definition confident (nodes : list Node) : list Node :=
  filter (fun n => negb (Qltb (confidence n) CONFIDENCE_THRESHOLD)) nodes.

(** A store whose inserts all fail. *)
Definition failing_store : Oracle :=
  mkOracle (fun _ _ _ => Some phone_reply)
           (fun _ _ _ => [])
           (fun _ _ => None)
           (fun _ => true).

(* ================================================================== *)
(** * Part II: properties *)

(** ** Properties of the Chunker *)

Example chunk_messages_5_2_1 :
  chunk_messages 2 1 [1; 2; 3; 4; 5]%nat
  = Ok [[1; 2]; [2; 3]; [3; 4]; [4; 5]]%nat.
Proof. reflexivity. Qed.

Example chunk_messages_7_3_1 :
  chunk_messages 3 1 [1; 2; 3; 4; 5; 6; 7]%nat
  = Ok [[1; 2; 3]; [3; 4; 5]; [5; 6; 7]]%nat.
Proof. reflexivity. Qed.

Example chunk_messages_step_zero :
  chunk_messages 3 3 [1; 2]%nat = Raise ValueError.
Proof. reflexivity. Qed.

Example chunk_messages_step_negative :
  chunk_messages 2 5 [1; 2; 3]%nat = Ok [].
Proof. reflexivity. Qed.

(** With a negative size the stop of the slice counts from the end. *)
Example chunk_messages_negative_size :
  chunk_messages (-1) (-3) [1; 2; 3; 4; 5]%nat
  = Ok [[1; 2; 3; 4]]%nat.
Proof. reflexivity. Qed.


Section SliceFacts.

Variable A : Type.

(** A window of [len] elements starting at position [a]. *)
Lemma slice_window (l : list A) (a len : Z) :
  (0 <= a)%Z -> (0 <= len)%Z ->
  slice l a (a + len) = firstn (Z.to_nat len) (skipn (Z.to_nat a) l).
Proof.
  intros Ha Hlen. unfold slice, adjust_index.
  destruct (Z.ltb_spec a 0) as [|_]; [lia|].
  destruct (Z.ltb_spec (a + len) 0) as [|_]; [lia|].
  set (n := List.length l).
  destruct (Z_lt_le_dec a (Z.of_nat n)) as [Hlt | Hge].
  - replace (Z.to_nat (Z.min a (Z.of_nat n))) with (Z.to_nat a) by lia.
    destruct (Z_lt_le_dec (a + len) (Z.of_nat n)) as [Hin | Hout].
    + f_equal. lia.
    + rewrite 2 firstn_all2; trivial; rewrite length_skipn; fold n; lia.
  - rewrite (skipn_all2 l) by (fold n; lia).
    rewrite (skipn_all2 l) by (fold n; lia).
    now rewrite 2 firstn_nil.
Qed.

Lemma nth_error_window (l : list A) (a len i : nat) :
  i < len ->
  nth_error (firstn len (skipn a l)) i = nth_error l (a + i).
Proof.
  intros Hi. rewrite nth_error_firstn.
  destruct (Nat.ltb_spec i len); [|lia].
  apply nth_error_skipn.
Qed.

Lemma window_nonempty (l : list A) (a len : nat) :
  a < List.length l -> 0 < len -> firstn len (skipn a l) <> [].
Proof.
  intros Ha Hlen Hnil.
  apply (f_equal (@List.length A)) in Hnil.
  rewrite length_firstn, length_skipn in Hnil. simpl in Hnil. lia.
Qed.

(** The tail of a full window is the head of the window that starts
    where the tail starts. *)
Lemma lastn_window (l : list A) (a len o : nat) :
  o <= len -> a + len <= List.length l ->
  lastn o (firstn len (skipn a l)) = firstn o (skipn (a + len - o) l).
Proof.
  intros Ho Hfit. unfold lastn.
  rewrite length_firstn, length_skipn.
  replace (Nat.min len (List.length l - a)) with len by lia.
  rewrite skipn_firstn_comm, skipn_skipn.
  f_equal; [lia | f_equal; lia].
Qed.

Lemma firstn_window (l : list A) (a len o : nat) :
  o <= len ->
  firstn o (firstn len (skipn a l)) = firstn o (skipn a l).
Proof.
  intros Ho. rewrite firstn_firstn. f_equal. lia.
Qed.

End SliceFacts.

Section ChunkerFacts.

Variable Msg : Type.
Variables size overlap : Z.
Hypothesis size_overlap : (0 <= overlap < size)%Z.

Let step : Z := (size - overlap)%Z.

Lemma window_slice (messages : list Msg) (k : nat) :
  slice messages (Z.of_nat k * step) (Z.of_nat k * step + size)
  = window size overlap messages k.
Proof.
  unfold window. rewrite slice_window by (unfold step; nia).
  do 2 f_equal. unfold step. nia.
Qed.

(** The loop over the turns [k0, k0 + c): it yields the windows of an
    initial run of turns, every one but the last stops short of the end,
    and it only ends early on a window that reaches the end. *)
Lemma chunk_loop_windows (messages : list Msg) (c : nat) :
  forall k0 : nat,
    0 < c ->
    (Z.of_nat k0 * step < Z.of_nat (List.length messages))%Z ->
    exists m : nat,
      1 <= m <= c /\
      chunk_loop size messages
        (map (fun k => Z.of_nat k * step)%Z (seq k0 c))
      = map (window size overlap messages) (seq k0 m) /\
      (forall k, k0 <= k -> k + 1 < k0 + m ->
         (Z.of_nat k * step + size < Z.of_nat (List.length messages))%Z) /\
      (m = c \/
       (Z.of_nat (k0 + m - 1) * step + size
        >= Z.of_nat (List.length messages))%Z).
Proof.
  induction c as [|c IH]; intros k0 Hc Hk0; [lia|].
  cbn [seq map chunk_loop].
  rewrite window_slice.
  assert (Hne : window size overlap messages k0 <> []).
  { apply window_nonempty; unfold step in *; nia. }
  destruct (window size overlap messages k0) as [|x w] eqn:Hw; [congruence|].
  destruct (Z.geb_spec (Z.of_nat k0 * step + size)
              (Z.of_nat (List.length messages))) as [Hend | Hmore].
  - exists 1. cbn [seq map]. rewrite Hw.
    repeat split; try lia.
    right. replace (k0 + 1 - 1) with k0 by lia. lia.
  - destruct c as [|c'].
    + exists 1. cbn [seq map chunk_loop]. rewrite Hw.
      repeat split; lia.
    + destruct (IH (S k0)) as (m & Hm & Heq & Hshort & Hlast).
      * lia.
      * unfold step in *. nia.
      * rewrite Heq. exists (S m). cbn [seq map app]. rewrite Hw.
        split; [lia|]. split; [reflexivity|]. split.
        -- intros k Hk Hk'.
           destruct (Nat.eq_dec k k0) as [->|]; [lia|].
           apply Hshort; lia.
        -- destruct Hlast as [->|Hlast]; [now left|right].
           replace (k0 + S m - 1) with (S k0 + m - 1) by lia. exact Hlast.
Qed.

(** The range covers the messages: its last index is within one step of
    the end. *)
Lemma range_count (n : Z) :
  (0 < n)%Z ->
  (0 < (n + step - 1) / step /\ n <= (n + step - 1) / step * step)%Z.
Proof.
  intros Hn. assert (Hs : (0 < step)%Z) by (unfold step; lia).
  split.
  - apply Z.div_str_pos. lia.
  - pose proof (Z.mul_succ_div_gt (n + step - 1) step Hs). lia.
Qed.

(** Closed form of [chunk_messages] for a well-formed configuration. *)
Lemma chunk_messages_windows (messages : list Msg) :
  messages <> [] ->
  exists m : nat,
    1 <= m /\
    chunk_messages size overlap messages
    = Ok (map (window size overlap messages) (seq 0 m)) /\
    (forall k, k + 1 < m ->
       (Z.of_nat k * step + size < Z.of_nat (List.length messages))%Z) /\
    (Z.of_nat (m - 1) * step + size >= Z.of_nat (List.length messages))%Z.
Proof.
  intros Hne. unfold chunk_messages, range0. fold step.
  destruct messages as [|x l] eqn:E; [congruence|]. rewrite <- E in *.
  assert (Hlen : (0 < Z.of_nat (List.length messages))%Z) by (subst; simpl; lia).
  destruct (range_count Hlen) as [Hpos Hcov].
  destruct (Z.eqb_spec step 0) as [H0|_]; [unfold step in H0; lia|].
  destruct (Z.ltb_spec step 0) as [H0|_]; [unfold step in H0; lia|].
  cbn [bind].
  set (c := Z.to_nat ((Z.of_nat (List.length messages) + step - 1) / step)) in *.
  destruct (@chunk_loop_windows messages c 0) as (m & Hm & Heq & Hshort & Hlast);
    [lia | lia |].
  exists m. rewrite Heq. repeat split; try lia.
  - intros k Hk. apply Hshort; lia.
  - destruct Hlast as [->|Hlast]; [|exact Hlast].
    cbn [Nat.add] in *. unfold step in *. nia.
Qed.

End ChunkerFacts.

Lemma nth_error_windows (Msg : Type) (size overlap : Z)
    (messages : list Msg) (m c : nat) :
  c < m ->
  nth_error (map (window size overlap messages) (seq 0 m)) c
  = Some (window size overlap messages c).
Proof.
  intros Hc. rewrite nth_error_map, nth_error_seq.
  destruct (Nat.ltb_spec c m); [reflexivity | lia].
Qed.

(** C7: for [size > overlap >= 0] the chunks are the windows of [size]
    messages cut every [size - overlap] messages, up to the first one
    that reaches the end: no chunk is empty or longer than [size], and
    every chunk but the last has exactly [size] messages and stops short
    of the end.  They cover every message position, consecutive chunks
    share exactly [overlap] messages (the tail of one is the head of the
    next), and no message gives no chunk. *)
Theorem chunk_messages_cover_overlap (Msg : Type) (size overlap : Z)
    (messages : list Msg) :
  (0 <= overlap < size)%Z ->
  exists chunks : list (list Msg),
    chunk_messages size overlap messages = Ok chunks /\
    (messages = [] -> chunks = []) /\
    (forall (i : nat) (chunk : list Msg),
        nth_error chunks i = Some chunk ->
        chunk = window size overlap messages i /\
        1 <= List.length chunk <= Z.to_nat size /\
        (S i < List.length chunks ->
         List.length chunk = Z.to_nat size /\
         i * Z.to_nat (size - overlap) + Z.to_nat size
         < List.length messages)) /\
    (forall (j : nat) (msg : Msg),
        nth_error messages j = Some msg ->
        exists (c : nat) (chunk : list Msg) (k : nat),
          nth_error chunks c = Some chunk /\
          nth_error chunk k = Some msg /\
          j = c * Z.to_nat (size - overlap) + k) /\
    (forall (i : nat) (c1 c2 : list Msg),
        nth_error chunks i = Some c1 ->
        nth_error chunks (S i) = Some c2 ->
        lastn (Z.to_nat overlap) c1 = firstn (Z.to_nat overlap) c2 /\
        List.length (firstn (Z.to_nat overlap) c2) = Z.to_nat overlap).
Proof.
  intros Hcfg.
  destruct messages as [|x0 l0] eqn:E.
  { exists []. repeat split; trivial;
      try (intros [|j] msg H; discriminate);
      try (destruct i; discriminate). }
  rewrite <- E.
  assert (Hne : messages <> []) by (subst; discriminate).
  assert (Hlen : 0 < List.length messages) by (subst; cbn; lia).
  clear E x0 l0.
  destruct (chunk_messages_windows Hcfg Hne) as (m & Hm & Heq & Hshort & Hlast).
  set (s := Z.to_nat (size - overlap)) in *.
  assert (Hs : 0 < s) by (unfold s; lia).
  assert (Hsz : (Z.of_nat s = size - overlap)%Z) by (unfold s; lia).
  exists (map (window size overlap messages) (seq 0 m)).
  split; [exact Heq|]. split; [congruence|]. split; [|split].
  - intros i chunk Hi.
    assert (Him : i < m).
    { assert (Hsome : nth_error (map (window size overlap messages) (seq 0 m)) i
                      <> None) by congruence.
      apply nth_error_Some in Hsome.
      now rewrite length_map, length_seq in Hsome. }
    rewrite nth_error_windows in Hi by lia. injection Hi as <-.
    split; [reflexivity|].
    assert (Hstart : i * s < List.length messages).
    { destruct i as [|i]; [lia|].
      specialize (Hshort i ltac:(lia)). nia. }
    rewrite length_map, length_seq.
    unfold window. fold s. rewrite length_firstn, length_skipn.
    split; [lia|].
    intros Hnext. specialize (Hshort i ltac:(lia)). nia.
  - intros j msg Hj.
    assert (Hjn : j < List.length messages).
    { apply nth_error_Some. congruence. }
    pose proof (Nat.div_mod_eq j s) as Hdiv.
    pose proof (Nat.mod_upper_bound j s ltac:(lia)) as Hmod.
    destruct (Nat.lt_ge_cases (j / s) m) as [Hin | Hout].
    + exists (j / s), (window size overlap messages (j / s)), (j mod s).
      split; [now apply nth_error_windows|]. split; [|lia].
      unfold window. fold s.
      rewrite nth_error_window by lia.
      rewrite <- Hj. f_equal. lia.
    + exists (m - 1), (window size overlap messages (m - 1)),
        (j - (m - 1) * s).
      assert (Hge : (m - 1) * s <= j) by nia.
      split; [apply nth_error_windows; lia|]. split; [|lia].
      unfold window. fold s.
      rewrite nth_error_window by nia.
      rewrite <- Hj. f_equal. lia.
  - intros i c1 c2 H1 H2.
    assert (Hi : S i < m).
    { assert (Hsome : nth_error (map (window size overlap messages) (seq 0 m)) (S i) <> None)
        by congruence.
      apply nth_error_Some in Hsome.
      now rewrite length_map, length_seq in Hsome. }
    rewrite nth_error_windows in H1 by lia.
    rewrite nth_error_windows in H2 by lia.
    injection H1 as <-. injection H2 as <-.
    specialize (Hshort i ltac:(lia)).
    unfold window. fold s.
    rewrite lastn_window by nia.
    rewrite firstn_window by lia.
    replace (i * s + Z.to_nat size - Z.to_nat overlap) with (S i * s) by nia.
    split; [reflexivity|].
    rewrite length_firstn, length_skipn. nia.
Qed.

(** C7, on a run: seven messages in windows of three that share one. *)
Lemma chunk_messages_cover_overlap_witness :
  exists chunks : list (list nat),
    chunk_messages 3 1 [1; 2; 3; 4; 5; 6; 7] = Ok chunks /\
    ([1; 2; 3; 4; 5; 6; 7] = [] -> chunks = []) /\
    (forall (i : nat) (chunk : list nat),
        nth_error chunks i = Some chunk ->
        chunk = window 3 1 [1; 2; 3; 4; 5; 6; 7] i /\
        1 <= List.length chunk <= Z.to_nat 3 /\
        (S i < List.length chunks ->
         List.length chunk = Z.to_nat 3 /\
         i * Z.to_nat (3 - 1) + Z.to_nat 3
         < List.length [1; 2; 3; 4; 5; 6; 7])) /\
    (forall (j : nat) (msg : nat),
        nth_error [1; 2; 3; 4; 5; 6; 7] j = Some msg ->
        exists (c : nat) (chunk : list nat) (k : nat),
          nth_error chunks c = Some chunk /\
          nth_error chunk k = Some msg /\
          j = c * Z.to_nat (3 - 1) + k) /\
    (forall (i : nat) (c1 c2 : list nat),
        nth_error chunks i = Some c1 ->
        nth_error chunks (S i) = Some c2 ->
        lastn (Z.to_nat 1) c1 = firstn (Z.to_nat 1) c2 /\
        List.length (firstn (Z.to_nat 1) c2) = Z.to_nat 1).
Proof.
  apply (@chunk_messages_cover_overlap nat 3 1 [1; 2; 3; 4; 5; 6; 7]). lia.
Defined.

(** C4, as the code has it: with [overlap >= size] the Chunker ends at
    once; it raises (the zero step of the range) only when
    [overlap = size] and there is a message, and otherwise returns no
    chunk. *)
Theorem chunk_messages_overlap_ge_size (Msg : Type) (size overlap : Z)
    (messages : list Msg) :
  (overlap >= size)%Z ->
  chunk_messages size overlap messages
  = match messages with
    | [] => Ok []
    | _ :: _ => if (overlap =? size)%Z then Raise ValueError else Ok []
    end.
Proof.
  intros Hge. unfold chunk_messages, range0.
  destruct messages as [|x l]; [reflexivity|].
  destruct (Z.eqb_spec overlap size) as [->|Hne].
  - now rewrite Z.sub_diag.
  - destruct (Z.eqb_spec (size - overlap) 0) as [|_]; [lia|].
    destruct (Z.ltb_spec (size - overlap) 0) as [_|]; [reflexivity | lia].
Qed.

Lemma chunk_messages_overlap_ge_size_witness :
  chunk_messages 3 3 [1; 2] = Raise ValueError.
Proof.
  apply (@chunk_messages_overlap_ge_size nat 3 3 [1; 2]). lia.
Defined.

(** C4 fails as stated: an overlap above the size gives an empty result
    and no error. *)
Lemma chunk_messages_overlap_gt_size_silent :
  (5 >= 2)%Z /\ chunk_messages 2 5 [1; 2; 3] = Ok [].
Proof. split; [lia | reflexivity]. Qed.

(** ** Properties of the rule-based deduplication *)

Lemma Qltb_lt (a b : Q) : Qltb a b = true <-> (a < b)%Q.
Proof.
  unfold Qltb. rewrite negb_true_iff. split.
  - intros H. apply Qnot_le_lt. intros Hle.
    apply Qle_bool_iff in Hle. congruence.
  - intros H. destruct (Qle_bool b a) eqn:E; trivial.
    apply Qle_bool_iff in E. exfalso. eapply Qlt_not_le; eauto.
Qed.

Lemma Qltb_ge (a b : Q) : Qltb a b = false <-> (b <= a)%Q.
Proof.
  unfold Qltb. rewrite negb_false_iff. apply Qle_bool_iff.
Qed.

Lemma dict_get_set_same {V} (d : dict V) (k : string) (v : V) :
  dict_get (dict_set d k v) k = Some v.
Proof.
  induction d as [|[k' v'] r IH]; simpl.
  - now rewrite String.eqb_refl.
  - destruct (String.eqb k' k) eqn:E; simpl; rewrite E; auto.
Qed.

(** Facts of one type make one group, in their order. *)
Lemma group_by_type_one_type (t : string) (facts l0 : list Node) :
  (forall f, In f facts -> fact_type (detail f) = t) ->
  fold_left
    (fun groups fact => dict_append groups (fact_type (detail fact)) fact)
    facts [(t, l0)]
  = [(t, l0 ++ facts)].
Proof.
  revert l0. induction facts as [|f facts IH]; intros l0 Hall; simpl.
  - now rewrite app_nil_r.
  - rewrite (Hall f (or_introl eq_refl)).
    unfold dict_append. cbn [dict_get]. rewrite String.eqb_refl.
    cbn [dict_set]. rewrite String.eqb_refl.
    rewrite IH by (intros; apply Hall; now right).
    now rewrite <- app_assoc.
Qed.

Lemma group_by_type_single (t : string) (f : Node) (facts : list Node) :
  (forall g, In g (f :: facts) -> fact_type (detail g) = t) ->
  group_by_type (f :: facts) = [(t, f :: facts)].
Proof.
  intros Hall. unfold group_by_type. cbn [fold_left].
  rewrite (Hall f (or_introl eq_refl)).
  unfold dict_append at 2. cbn [dict_get dict_set].
  apply (@group_by_type_one_type t facts [f]).
  intros; apply Hall; now right.
Qed.

(** The head of the stable descending sort is the first fact of greatest
    confidence. *)
Lemma sorted_by_confidence_head (facts : list Node) :
  facts <> [] ->
  exists pre best post rest,
    facts = pre ++ best :: post /\
    sorted_by_confidence facts = best :: rest /\
    (forall x, In x pre -> (confidence x < confidence best)%Q) /\
    (forall x, In x post -> (confidence x <= confidence best)%Q).
Proof.
  induction facts as [|x l IH]; [congruence|]. intros _.
  destruct l as [|y l'].
  - exists [], x, [], []. repeat split; simpl; tauto.
  - destruct IH as (pre & b & post & rest & Hl & Hs & Hpre & Hpost);
      [discriminate|].
    change (sorted_by_confidence (x :: y :: l'))
      with (insert_by_confidence x (sorted_by_confidence (y :: l'))).
    rewrite Hs. cbn [insert_by_confidence].
    destruct (Qltb (confidence x) (confidence b)) eqn:E.
    + apply Qltb_lt in E.
      exists (x :: pre), b, post, (insert_by_confidence x rest).
      rewrite Hl. repeat split; trivial.
      intros z [<-|Hz]; auto.
    + apply Qltb_ge in E.
      exists [], x, (y :: l'), (b :: rest).
      split; [reflexivity|]. split; [reflexivity|].
      split; [intros z []|].
      intros z Hz. rewrite Hl in Hz.
      apply in_app_or in Hz. destruct Hz as [Hz | [<- | Hz]].
      * apply Qlt_le_weak. eapply Qlt_le_trans; [apply Hpre, Hz | exact E].
      * exact E.
      * eapply Qle_trans; [apply Hpost, Hz | exact E].
Qed.

(** C8: Tier B on a non-empty list of [phone_number] candidates returns
    exactly one of them, of greatest confidence, the first such in input
    order. *)
Theorem phone_number_dedup_keeps_first_max
    (ratio : string -> string -> Z) (facts : list Node) (layer : string) :
  facts <> [] ->
  (forall f, In f facts -> fact_type (detail f) = "phone_number") ->
  exists pre best post,
    facts = pre ++ best :: post /\
    _deduplicate_facts_enhanced ratio facts layer = [best] /\
    (forall x, In x pre -> (confidence x < confidence best)%Q) /\
    (forall x, In x post -> (confidence x <= confidence best)%Q).
Proof.
  intros Hne Hall.
  destruct (sorted_by_confidence_head Hne)
    as (pre & best & post & rest & Hl & Hs & Hpre & Hpost).
  exists pre, best, post. repeat split; trivial.
  unfold _deduplicate_facts_enhanced.
  destruct facts as [|f facts']; [congruence|].
  rewrite (group_by_type_single Hall).
  cbn [flat_map dedup_group]. rewrite String.eqb_refl.
  unfold _deduplicate_phone_numbers. rewrite Hs. apply app_nil_r.
Qed.

Lemma phone_number_dedup_keeps_first_max_witness :
  exists pre best post,
    phone_facts_3 = pre ++ best :: post /\
    _deduplicate_facts_enhanced fuzz_ratio phone_facts_3 "Layer1" = [best] /\
    (forall x, In x pre -> (confidence x < confidence best)%Q) /\
    (forall x, In x post -> (confidence x <= confidence best)%Q).
Proof.
  apply (@phone_number_dedup_keeps_first_max fuzz_ratio phone_facts_3 "Layer1").
  - discriminate.
  - intros f [<-|[<-|[<-|[]]]]; reflexivity.
Defined.

Example phone_facts_3_dedup :
  _deduplicate_facts_enhanced fuzz_ratio phone_facts_3 "Layer1"
  = [phone_fact "9870781578" (95 # 100)].
Proof. vm_compute. reflexivity. Qed.

Example fuzz_ratio_chain :
  fuzz_ratio "abcdefghij" "abcdefghix" = 90%Z /\
  fuzz_ratio "abcdefghij" "ybcdefghij" = 90%Z /\
  fuzz_ratio "ybcdefghij" "abcdefghix" = 80%Z.
Proof. vm_compute. repeat split; reflexivity. Qed.

(** C3 fails as stated: on the chain the first pass keeps two names and
    the second pass, run on them, keeps one. *)
Lemma tier_b_not_idempotent :
  _deduplicate_facts_enhanced fuzz_ratio chain_facts "Layer1"
  = [name_fact "ybcdefghij" (8 # 10); name_fact "abcdefghij" (9 # 10)]
  /\
  _deduplicate_facts_enhanced fuzz_ratio
    (_deduplicate_facts_enhanced fuzz_ratio chain_facts "Layer1") "Layer1"
  = [name_fact "abcdefghij" (9 # 10)].
Proof. vm_compute. split; reflexivity. Qed.

(** *** The greedy loop *)

Lemma node_eqb_refl (n : Node) : node_eqb n n = true.
Proof.
  unfold node_eqb. rewrite !String.eqb_refl. cbn [andb].
  assert (Hev : forall l, list_eqb evidence_eqb l l = true).
  { induction l as [|e l IH]; cbn [list_eqb]; trivial.
    rewrite IH, andb_true_r. unfold evidence_eqb.
    destruct e as [[a|] [b|] [c|]]; cbn; rewrite ?String.eqb_refl; trivial. }
  rewrite Hev, andb_true_r. apply Qeq_bool_iff. reflexivity.
Qed.

(** Equal nodes have the same type and the same compared value. *)
Lemma node_eqb_key (a b : Node) :
  node_eqb a b = true ->
  fact_type (detail a) = fact_type (detail b) /\ norm_value a = norm_value b.
Proof.
  unfold node_eqb, norm_value. intros H.
  apply andb_true_iff in H as [H _]. apply andb_true_iff in H as [H _].
  apply andb_true_iff in H as [Ht Hv].
  apply String.eqb_eq in Ht, Hv. now rewrite Ht, Hv.
Qed.

Lemma find_split {A} (p : A -> bool) (l : list A) (x : A) :
  find p l = Some x ->
  exists l1 l2, l = l1 ++ x :: l2 /\ p x = true /\
                (forall y, In y l1 -> p y = false).
Proof.
  induction l as [|a l IH]; [discriminate|]. cbn [find].
  destruct (p a) eqn:E.
  - intros [= <-]. exists [], l. repeat split; trivial. intros y [].
  - intros H. destruct (IH H) as (l1 & l2 & -> & Hx & Hl1).
    exists (a :: l1), l2. repeat split; trivial.
    intros y [<-|Hy]; auto.
Qed.

Lemma find_all_false {A} (p : A -> bool) (l : list A) :
  (forall y, In y l -> p y = false) -> find p l = None.
Proof.
  induction l as [|a l IH]; intros H; cbn [find]; trivial.
  rewrite (H a (or_introl eq_refl)). apply IH. intros; apply H; now right.
Qed.

Lemma list_remove_first (x : Node) (l1 l2 : list Node) :
  (forall y, In y l1 -> node_eqb y x = false) ->
  list_remove x (l1 ++ x :: l2) = l1 ++ l2.
Proof.
  induction l1 as [|a l1 IH]; intros H; cbn [list_remove app].
  - now rewrite node_eqb_refl.
  - rewrite (H a (or_introl eq_refl)). f_equal. apply IH.
    intros; apply H; now right.
Qed.

Lemma list_remove_incl (x : Node) (l : list Node) :
  incl (list_remove x l) l.
Proof.
  induction l as [|a l IH]; cbn [list_remove]; [apply incl_refl|].
  destruct (node_eqb a x).
  - apply incl_tl, incl_refl.
  - intros y [<-|Hy]; [now left | right; now apply IH].
Qed.

Section DuplicateFree.

Variable test : Node -> Node -> bool.

Lemma duplicate_free_app (l1 l2 : list Node) :
  duplicate_free test (l1 ++ l2) <->
  duplicate_free test l1 /\ duplicate_free test l2 /\
  (forall e f, In e l1 -> In f l2 -> test f e = false).
Proof.
  induction l1 as [|a l1 IH]; cbn [app duplicate_free].
  - split; [intros H; repeat split; trivial; intros e f [] | tauto].
  - rewrite IH. split.
    + intros (Ha & H1 & H2 & H12). repeat split; trivial.
      * intros f Hf. apply Ha, in_or_app. now left.
      * intros e f [<-|He] Hf; [apply Ha, in_or_app; now right | auto].
    + intros ((Ha & H1) & H2 & H12). repeat split; trivial.
      * intros f Hf. apply in_app_or in Hf as [Hf|Hf]; [auto|].
        apply H12; [now left | trivial].
      * intros e f He Hf. apply H12; [now right | trivial].
Qed.

Lemma duplicate_free_snoc (l : list Node) (f : Node) :
  duplicate_free test l ->
  (forall e, In e l -> test f e = false) ->
  duplicate_free test (l ++ [f]).
Proof.
  intros Hl Hf. apply duplicate_free_app.
  split; [exact Hl|]. split.
  - cbn [duplicate_free]. split; [intros g []|exact I].
  - intros e g He [<-|[]]. auto.
Qed.

(** A duplicate-free list goes through the loop unchanged. *)
Lemma greedy_duplicate_free (replaces : bool) (l acc : list Node) :
  duplicate_free test (acc ++ l) ->
  fold_left (greedy_step test replaces) l acc = acc ++ l.
Proof.
  revert acc. induction l as [|f l IH]; intros acc H; cbn [fold_left].
  - now rewrite app_nil_r.
  - assert (Hnone : find (test f) acc = None).
    { apply find_all_false. intros e He.
      apply duplicate_free_app in H as (_ & _ & H).
      apply H; [trivial | now left]. }
    unfold greedy_step at 2. rewrite Hnone.
    rewrite IH; rewrite <- app_assoc; trivial.
Qed.

Lemma greedy_step_incl (replaces : bool) (deduped : list Node) (f : Node) :
  incl (greedy_step test replaces deduped f) (deduped ++ [f]).
Proof.
  unfold greedy_step, replace_or_drop.
  destruct (find (test f) deduped) as [e|]; [|apply incl_refl].
  destruct replaces; [|apply incl_appl, incl_refl].
  destruct (Qltb (confidence e) (confidence f)); [|apply incl_appl, incl_refl].
  apply incl_app; [|apply incl_appr, incl_refl].
  apply incl_appl, list_remove_incl.
Qed.

Lemma greedy_step_nonempty (replaces : bool) (deduped : list Node) (f : Node) :
  greedy_step test replaces deduped f <> [].
Proof.
  unfold greedy_step, replace_or_drop.
  destruct (find (test f) deduped) as [e|] eqn:E.
  - assert (Hne : deduped <> []) by (intros ->; discriminate).
    destruct replaces; trivial.
    destruct (Qltb (confidence e) (confidence f)); trivial.
    intros H. apply app_eq_nil in H as [_ H]. discriminate.
  - intros H. apply app_eq_nil in H as [_ H]. discriminate.
Qed.

Lemma greedy_fold_incl (replaces : bool) (l acc : list Node) :
  incl (fold_left (greedy_step test replaces) l acc) (acc ++ l).
Proof.
  revert acc. induction l as [|f l IH]; intros acc; cbn [fold_left].
  - rewrite app_nil_r. apply incl_refl.
  - eapply incl_tran; [apply IH|].
    apply incl_app.
    + eapply incl_tran; [apply greedy_step_incl|].
      intros x Hx. apply in_app_or in Hx as [Hx|[<-|[]]];
        apply in_or_app; [now left | right; now left].
    + intros x Hx. apply in_or_app. right. now right.
Qed.

Lemma greedy_fold_nonempty (replaces : bool) (l acc : list Node) :
  acc ++ l <> [] -> fold_left (greedy_step test replaces) l acc <> [].
Proof.
  revert acc. induction l as [|f l IH]; intros acc H; cbn [fold_left].
  - now rewrite app_nil_r in H.
  - apply IH. intros E. apply app_eq_nil in E as [E _].
    now apply greedy_step_nonempty in E.
Qed.

End DuplicateFree.

Section GreedyEquivalence.

Variable test : Node -> Node -> bool.
Variable replaces : bool.
Variable X : list Node.

Hypothesis test_eqb :
  forall f e1 e2, node_eqb e1 e2 = true -> test f e1 = test f e2.
Hypothesis test_sym :
  forall a b, In a X -> In b X -> test a b = true -> test b a = true.
Hypothesis test_trans :
  forall a b c, In a X -> In b X -> In c X ->
                test a b = true -> test b c = true -> test a c = true.

(** One turn of the loop keeps the kept facts duplicate-free. *)
Lemma greedy_step_duplicate_free (deduped : list Node) (f : Node) :
  incl deduped X -> In f X ->
  duplicate_free test deduped ->
  duplicate_free test (greedy_step test replaces deduped f).
Proof.
  intros Hincl Hf Hfree. unfold greedy_step.
  destruct (find (test f) deduped) as [e|] eqn:Hfind.
  - destruct replaces; trivial.
    unfold replace_or_drop.
    destruct (Qltb (confidence e) (confidence f)); trivial.
    destruct (find_split _ _ Hfind) as (l1 & l2 & -> & Hfe & Hl1).
    rewrite list_remove_first.
    + apply duplicate_free_app in Hfree as (H1 & H2 & H12).
      cbn [duplicate_free] in H2. destruct H2 as [He2 H2].
      apply duplicate_free_snoc.
      * apply duplicate_free_app. repeat split; trivial.
        intros a b Ha Hb. apply H12; [trivial | now right].
      * intros x Hx. apply in_app_or in Hx as [Hx|Hx]; [auto|].
        destruct (test f x) eqn:Hfx; trivial.
        assert (HxX : In x X) by (apply Hincl, in_or_app; right; now right).
        assert (HeX : In e X) by (apply Hincl, in_or_app; right; now left).
        assert (Hxe : test x e = true).
        { apply (@test_trans x f e); trivial. now apply test_sym. }
        rewrite (He2 x Hx) in Hxe. discriminate.
    + intros y Hy. destruct (node_eqb y e) eqn:Hye; trivial.
      rewrite <- (@test_eqb f y e Hye), (Hl1 y Hy) in Hfe. discriminate.
  - apply duplicate_free_snoc; trivial.
    intros e He. now apply (find_none _ _ Hfind).
Qed.

Lemma greedy_fold_duplicate_free (l acc : list Node) :
  incl l X -> incl acc X ->
  duplicate_free test acc ->
  duplicate_free test (fold_left (greedy_step test replaces) l acc).
Proof.
  revert acc. induction l as [|f l IH]; intros acc Hl Hacc Hfree;
    cbn [fold_left]; trivial.
  apply IH.
  - intros x Hx. apply Hl. now right.
  - eapply incl_tran; [apply greedy_step_incl|].
    apply incl_app; trivial.
    intros x [<-|[]]. apply Hl. now left.
  - apply greedy_step_duplicate_free; trivial. apply Hl. now left.
Qed.

(** The loop, run on its own result, changes nothing. *)
Lemma greedy_idempotent (l : list Node) :
  incl l X ->
  fold_left (greedy_step test replaces)
            (fold_left (greedy_step test replaces) l []) []
  = fold_left (greedy_step test replaces) l [].
Proof.
  intros Hl.
  apply (@greedy_duplicate_free test replaces _ []).
  cbn [app]. apply greedy_fold_duplicate_free; trivial.
  - intros x [].
  - exact I.
Qed.

End GreedyEquivalence.

(** *** Grouping by type *)

Lemma dict_get_absent {V} (d : dict V) (k : string) :
  ~ In k (map fst d) -> dict_get d k = None.
Proof.
  induction d as [|[k' v] r IH]; cbn [dict_get map fst]; trivial.
  intros H. destruct (String.eqb_spec k' k) as [->|_].
  - exfalso. apply H. now left.
  - apply IH. intros Hin. apply H. now right.
Qed.

Lemma dict_get_present {V} (d : dict V) (k : string) (v : V) :
  dict_get d k = Some v ->
  exists d1 d2, d = d1 ++ (k, v) :: d2 /\ ~ In k (map fst d1).
Proof.
  induction d as [|[k' v'] r IH]; cbn [dict_get]; [discriminate|].
  destruct (String.eqb_spec k' k) as [->|Hne].
  - intros [= ->]. exists [], r. split; trivial. intros [].
  - intros H. destruct (IH H) as (d1 & d2 & -> & Hk).
    exists ((k', v') :: d1), d2. split; trivial.
    cbn [map fst]. intros [E|Hin]; [now apply Hne | now apply Hk].
Qed.

Lemma dict_set_absent {V} (d : dict V) (k : string) (v : V) :
  ~ In k (map fst d) -> dict_set d k v = d ++ [(k, v)].
Proof.
  induction d as [|[k' v'] r IH]; cbn [dict_set map fst app]; trivial.
  intros H. destruct (String.eqb_spec k' k) as [->|_].
  - exfalso. apply H. now left.
  - f_equal. apply IH. intros Hin. apply H. now right.
Qed.

Lemma dict_set_present {V} (d1 d2 : dict V) (k : string) (v v' : V) :
  ~ In k (map fst d1) ->
  dict_set (d1 ++ (k, v) :: d2) k v' = d1 ++ (k, v') :: d2.
Proof.
  induction d1 as [|[k1 v1] r IH]; cbn [dict_set map fst app]; intros H.
  - now rewrite String.eqb_refl.
  - destruct (String.eqb_spec k1 k) as [->|_].
    + exfalso. apply H. now left.
    + f_equal. apply IH. intros Hin. apply H. now right.
Qed.

Lemma dict_get_middle {V} (d1 d2 : dict V) (k : string) (v : V) :
  ~ In k (map fst d1) -> dict_get (d1 ++ (k, v) :: d2) k = Some v.
Proof.
  induction d1 as [|[k1 v1] r IH]; cbn [dict_get map fst app]; intros H.
  - now rewrite String.eqb_refl.
  - destruct (String.eqb_spec k1 k) as [->|_].
    + exfalso. apply H. now left.
    + apply IH. intros Hin. apply H. now right.
Qed.

(** Facts of a type that has its group at the end join that group. *)
Lemma group_fold_same (k : string) (l l0 : list Node) (acc : dict (list Node)) :
  ~ In k (map fst acc) ->
  (forall f, In f l -> fact_type (detail f) = k) ->
  fold_left group_step l (acc ++ [(k, l0)]) = acc ++ [(k, l0 ++ l)].
Proof.
  intros Hk. revert l0. induction l as [|f l IH]; intros l0 Hall;
    cbn [fold_left].
  - now rewrite app_nil_r.
  - unfold group_step at 2, dict_append.
    rewrite (Hall f (or_introl eq_refl)).
    rewrite dict_get_middle, dict_set_present by trivial.
    rewrite IH by (intros; apply Hall; now right).
    now rewrite <- app_assoc.
Qed.

(** Facts of a type that has no group yet make a new group at the end. *)
Lemma group_fold_new (k : string) (l : list Node) (acc : dict (list Node)) :
  ~ In k (map fst acc) -> l <> [] ->
  (forall f, In f l -> fact_type (detail f) = k) ->
  fold_left group_step l acc = acc ++ [(k, l)].
Proof.
  intros Hk Hne Hall. destruct l as [|f l]; [congruence|].
  cbn [fold_left]. unfold group_step at 2, dict_append.
  rewrite (Hall f (or_introl eq_refl)).
  rewrite dict_get_absent, dict_set_absent by trivial.
  apply (@group_fold_same k l [f] acc); trivial.
  intros; apply Hall; now right.
Qed.

Lemma well_grouped_app (g1 g2 : dict (list Node)) :
  well_grouped (g1 ++ g2) ->
  well_grouped g1 /\ well_grouped g2 /\
  (forall k, In k (map fst g1) -> ~ In k (map fst g2)).
Proof.
  unfold well_grouped. rewrite map_app, Forall_app.
  intros (Hnd & H1 & H2).
  repeat split; trivial.
  - now apply NoDup_app_remove_r in Hnd.
  - now apply NoDup_app_remove_l in Hnd.
  - intros k Hk1 Hk2. revert Hnd Hk1 Hk2. generalize (map fst g1) (map fst g2).
    intros a b Hnd. induction a as [|x a IH]; cbn in *; [tauto|].
    inversion Hnd as [|? ? Hx Hnd']; subst.
    intros [->|Hk1] Hk2; [apply Hx, in_or_app; now right | now apply IH].
Qed.

(** Grouping the facts of well-formed groups, read group after group,
    gives the groups back. *)
Lemma regroup (rest acc : dict (list Node)) :
  well_grouped (acc ++ rest) ->
  fold_left group_step (flat_map snd rest) acc = acc ++ rest.
Proof.
  revert acc. induction rest as [|[k l] rest IH]; intros acc Hwg;
    cbn [flat_map snd].
  - now rewrite app_nil_r.
  - rewrite fold_left_app.
    destruct (well_grouped_app _ _ Hwg) as (_ & Hrest & Hdisj).
    destruct Hrest as [_ Hall]. inversion Hall as [|? ? [Hne Hty] _]; subst.
    cbn [fst snd] in *.
    rewrite (@group_fold_new k l acc); trivial.
    + replace (acc ++ (k, l) :: rest) with ((acc ++ [(k, l)]) ++ rest)
        by now rewrite <- app_assoc.
      apply IH. now rewrite <- app_assoc.
    + intros Hk. apply (Hdisj k Hk). now left.
Qed.

Lemma group_by_type_regroup (groups : dict (list Node)) :
  well_grouped groups ->
  group_by_type (flat_map snd groups) = groups.
Proof.
  intros H. apply (regroup groups []). exact H.
Qed.

Lemma dict_get_none {V} (d : dict V) (k : string) :
  dict_get d k = None -> ~ In k (map fst d).
Proof.
  induction d as [|[k' v] r IH]; cbn [dict_get map fst]; [tauto|].
  destruct (String.eqb_spec k' k) as [->|Hne]; [discriminate|].
  intros H [E|Hin]; [now apply Hne | now apply IH].
Qed.

(** What [group_by_type] builds is well grouped, out of the facts read. *)
Lemma group_step_well_grouped (F : list Node) (groups : dict (list Node))
    (f : Node) :
  In f F ->
  well_grouped groups /\ Forall (fun g => incl (snd g) F) groups ->
  well_grouped (group_step groups f) /\
  Forall (fun g => incl (snd g) F) (group_step groups f).
Proof.
  intros Hf [[Hnd Hall] Hin]. unfold group_step, dict_append.
  set (t := fact_type (detail f)).
  destruct (dict_get groups t) as [l|] eqn:E.
  - destruct (dict_get_present _ _ E) as (d1 & d2 & -> & Hk).
    rewrite dict_set_present by trivial.
    unfold well_grouped. rewrite map_app in *. cbn [map fst] in *.
    apply Forall_app in Hall as [Ha1 Ha2].
    apply Forall_app in Hin as [Hi1 Hi2].
    inversion Ha2 as [|? ? [Hne Hty] Ha2']; subst.
    inversion Hi2 as [|? ? Hil Hi2']; subst. cbn [fst snd] in *.
    repeat split; trivial.
    + apply Forall_app. split; trivial. constructor; trivial.
      cbn [fst snd]. split.
      * intros H. apply app_eq_nil in H as [_ H]. discriminate.
      * intros g Hg. apply in_app_or in Hg as [Hg|[<-|[]]]; auto.
    + apply Forall_app. split; trivial. constructor; trivial.
      cbn [snd]. apply incl_app; trivial. intros g [<-|[]]. trivial.
  - apply dict_get_none in E.
    rewrite dict_set_absent by trivial.
    unfold well_grouped. rewrite map_app. cbn [map fst].
    repeat split.
    + apply NoDup_app; trivial.
      * constructor; [intros [] | constructor].
      * intros a Ha [<-|[]]. contradiction.
    + apply Forall_app. split; trivial. constructor; [|constructor].
      cbn [fst snd]. split; [discriminate|]. intros g [<-|[]]. reflexivity.
    + apply Forall_app. split; trivial. constructor; [|constructor].
      cbn [snd]. intros g [<-|[]]. trivial.
Qed.

Lemma group_by_type_well_grouped (facts : list Node) :
  well_grouped (group_by_type facts) /\
  Forall (fun g => incl (snd g) facts) (group_by_type facts).
Proof.
  assert (H : forall l acc,
             incl l facts ->
             well_grouped acc /\ Forall (fun g => incl (snd g) facts) acc ->
             well_grouped (fold_left group_step l acc) /\
             Forall (fun g => incl (snd g) facts) (fold_left group_step l acc)).
  { induction l as [|f l IH]; intros acc Hl Hacc; cbn [fold_left]; trivial.
    apply IH; [intros x Hx; apply Hl; now right|].
    apply group_step_well_grouped; trivial. apply Hl. now left. }
  apply (H facts []); [apply incl_refl|].
  split; [split; constructor | constructor].
Qed.

(** *** The rules of the groups *)

Lemma dedup_step_greedy (ratio : string -> string -> Z) (l : list Node) :
  _deduplicate_facts ratio l
  = fold_left (greedy_step (similar_fact ratio) true) l [].
Proof. reflexivity. Qed.

Lemma fold_left_pointwise {A B} (f g : A -> B -> A) (l : list B) (a : A) :
  (forall x y, f x y = g x y) -> fold_left f l a = fold_left g l a.
Proof.
  intros H. revert a. induction l as [|b l IH]; intros a; cbn; trivial.
  now rewrite H, IH.
Qed.

Lemma contact_step_greedy (ratio : string -> string -> Z) (ftype : string)
    (l : list Node) :
  _deduplicate_contact_info ratio l ftype
  = fold_left (greedy_step (same_contact ratio ftype)
                           (negb (String.eqb ftype "email"))) l [].
Proof.
  apply fold_left_pointwise. intros d f. unfold contact_step, greedy_step.
  destruct (find (same_contact ratio ftype f) d); trivial.
  now destruct (String.eqb ftype "email").
Qed.

Lemma phone_numbers_idempotent (l : list Node) :
  _deduplicate_phone_numbers (_deduplicate_phone_numbers l)
  = _deduplicate_phone_numbers l.
Proof.
  unfold _deduplicate_phone_numbers at 2 3.
  destruct (sorted_by_confidence l); reflexivity.
Qed.

Lemma phone_numbers_incl (l : list Node) :
  incl (_deduplicate_phone_numbers l) l /\
  (l <> [] -> _deduplicate_phone_numbers l <> []).
Proof.
  destruct l as [|x l]; [split; [intros y []|congruence]|].
  destruct (@sorted_by_confidence_head (x :: l))
    as (pre & best & post & rest & Hl & Hs & _); [discriminate|].
  unfold _deduplicate_phone_numbers. rewrite Hs. split; [|discriminate].
  intros y [<-|[]]. rewrite Hl. apply in_or_app. right. now left.
Qed.

Lemma dedup_group_incl (ratio : string -> string -> Z) (k : string)
    (l : list Node) :
  incl (dedup_group ratio (k, l)) l /\
  (l <> [] -> dedup_group ratio (k, l) <> []).
Proof.
  unfold dedup_group.
  destruct (String.eqb k "phone_number"); [apply phone_numbers_incl|].
  destruct (str_in k ["address"; "email"]).
  - rewrite contact_step_greedy. split.
    + apply (@greedy_fold_incl _ _ l []).
    + intros Hne. now apply greedy_fold_nonempty.
  - rewrite dedup_step_greedy. split.
    + apply (@greedy_fold_incl _ _ l []).
    + intros Hne. now apply greedy_fold_nonempty.
Qed.

Section GroupIdempotent.

Variable ratio : string -> string -> Z.
Variable X : list Node.
Hypothesis Hequiv : similarity_equivalence ratio X.

Variable k : string.
Variable l : list Node.
Hypothesis l_in_X : incl l X.
Hypothesis l_type : forall f, In f l -> fact_type (detail f) = k.

Lemma similar_fact_eqb (f e1 e2 : Node) :
  node_eqb e1 e2 = true -> similar_fact ratio f e1 = similar_fact ratio f e2.
Proof.
  intros H. apply node_eqb_key in H as [Ht Hv].
  unfold similar_fact. now rewrite Ht, Hv.
Qed.

Lemma same_contact_eqb (f e1 e2 : Node) :
  node_eqb e1 e2 = true ->
  same_contact ratio k f e1 = same_contact ratio k f e2.
Proof.
  intros H. apply node_eqb_key in H as [Ht Hv].
  unfold same_contact. now rewrite Hv.
Qed.

Lemma group_not_exact (a : Node) :
  String.eqb k "phone_number" = false -> String.eqb k "email" = false ->
  In a l -> exact_type a = false.
Proof.
  intros Hp He Ha. unfold exact_type, str_in. cbn [existsb].
  rewrite (l_type a Ha), Hp, He. reflexivity.
Qed.

(** In the address group the test of [_deduplicate_contact_info] is the
    similarity test. *)
Lemma same_contact_address (a b : Node) :
  k = "address" -> In a l -> In b l ->
  same_contact ratio k a b = similar_fact ratio a b.
Proof.
  intros -> Ha Hb. unfold same_contact, similar_fact. cbn [String.eqb Ascii.eqb].
  cbn. rewrite (l_type a Ha), (l_type b Hb). cbn.
  destruct (String.eqb_spec (norm_value a) (norm_value b)) as [E|_]; trivial.
  cbn [orb]. destruct Hequiv as (Hrefl & _ & _).
  assert (Hex : exact_type a = false).
  { unfold exact_type. now rewrite (l_type a Ha). }
  specialize (Hrefl a (l_in_X a Ha) Hex).
  unfold similar_fact in Hrefl. rewrite String.eqb_refl in Hrefl.
  cbn [andb] in Hrefl. now rewrite <- E, Hrefl.
Qed.

Lemma dedup_group_idempotent :
  dedup_group ratio (k, dedup_group ratio (k, l)) = dedup_group ratio (k, l).
Proof.
  unfold dedup_group.
  destruct (String.eqb k "phone_number") eqn:Hp;
    [apply phone_numbers_idempotent|].
  destruct Hequiv as (Hrefl & Hsym & Htrans).
  destruct (str_in k ["address"; "email"]) eqn:Hc.
  - rewrite !contact_step_greedy.
    destruct (String.eqb k "email") eqn:He.
    + (* email: equality of the normalised values *)
      apply String.eqb_eq in He.
      apply (@greedy_idempotent _ _ l); [..|apply incl_refl].
      * apply same_contact_eqb.
      * intros a b _ _. subst k. cbn. now rewrite String.eqb_sym.
      * intros a b c _ _ _. subst k. cbn. rewrite !String.eqb_eq. congruence.
    + (* address *)
      assert (Ha : k = "address").
      { unfold str_in in Hc. cbn [existsb] in Hc. rewrite He in Hc.
        rewrite !orb_false_r in Hc. now apply String.eqb_eq in Hc. }
      apply (@greedy_idempotent _ _ l); [..|apply incl_refl].
      * apply same_contact_eqb.
      * intros a b Ha' Hb'. rewrite !same_contact_address by trivial.
        apply Hsym; try (now apply l_in_X). now apply group_not_exact.
      * intros a b c Ha' Hb' Hc'. rewrite !same_contact_address by trivial.
        apply Htrans; try (now apply l_in_X). now apply group_not_exact.
  - rewrite !dedup_step_greedy.
    assert (He : String.eqb k "email" = false).
    { unfold str_in in Hc. cbn [existsb] in Hc.
      apply orb_false_iff in Hc as [_ Hc].
      now apply orb_false_iff in Hc as [Hc _]. }
    apply (@greedy_idempotent _ _ l); [..|apply incl_refl].
    + apply similar_fact_eqb.
    + intros a b Ha' Hb'. apply Hsym; try (now apply l_in_X).
      now apply group_not_exact.
    + intros a b c Ha' Hb' Hc'. apply Htrans; try (now apply l_in_X).
      now apply group_not_exact.
Qed.

End GroupIdempotent.

Lemma flat_map_snd_map {A B} (h : string * A -> list B) (d : dict A) :
  flat_map snd (map (fun g => (fst g, h g)) d) = flat_map h d.
Proof.
  induction d as [|g d IH]; cbn [map flat_map snd]; trivial. now rewrite IH.
Qed.

Lemma flat_map_pointwise_in {A B} (f g : A -> list B) (l : list A) :
  (forall a, In a l -> f a = g a) -> flat_map f l = flat_map g l.
Proof.
  induction l as [|a l IH]; intros H; cbn [flat_map]; trivial.
  rewrite (H a (or_introl eq_refl)), IH; trivial.
  intros; apply H; now right.
Qed.

(** C3, as the code has it: the rule-based pass is a fixed point on its
    own output whenever the similarity test is an equivalence among the
    candidates compared by ratio. *)
Theorem tier_b_idempotent_on_equivalence
    (ratio : string -> string -> Z) (X : list Node) (layer : string) :
  similarity_equivalence ratio X ->
  _deduplicate_facts_enhanced ratio
    (_deduplicate_facts_enhanced ratio X layer) layer
  = _deduplicate_facts_enhanced ratio X layer.
Proof.
  intros Hequiv. unfold _deduplicate_facts_enhanced.
  destruct (group_by_type_well_grouped X) as [[Hnd Hall] Hin].
  set (G := group_by_type X) in *.
  set (G' := map (fun g => (fst g, dedup_group ratio g)) G).
  assert (Hflat : flat_map (dedup_group ratio) G = flat_map snd G').
  { unfold G'. now rewrite flat_map_snd_map. }
  assert (Hwg : well_grouped G').
  { unfold well_grouped, G'. rewrite map_map. cbn [fst]. split; trivial.
    apply Forall_map. rewrite Forall_forall in *.
    intros [k l] Hg. cbn [fst snd].
    destruct (Hall _ Hg) as [Hne Hty]. cbn [fst snd] in *.
    destruct (dedup_group_incl ratio k l) as [Hsub Hnon].
    split; [now apply Hnon|]. intros f Hf. apply Hty, Hsub, Hf. }
  rewrite Hflat, (group_by_type_regroup Hwg), <- Hflat.
  unfold G'. rewrite flat_map_concat_map, map_map, <- flat_map_concat_map.
  apply flat_map_pointwise_in. intros [k l] Hg. cbn [fst].
  rewrite Forall_forall in Hall, Hin.
  apply (@dedup_group_idempotent ratio X Hequiv k l).
  - exact (Hin _ Hg).
  - exact (proj2 (Hall _ Hg)).
Qed.

Lemma repeated_facts_equivalence :
  similarity_equivalence fuzz_ratio repeated_facts.
Proof.
  unfold similarity_equivalence, repeated_facts. repeat split.
  - intros a [<-|[<-|[<-|[]]]]; vm_compute; trivial.
  - intros a b [<-|[<-|[<-|[]]]] [<-|[<-|[<-|[]]]]; vm_compute; trivial.
  - intros a b c [<-|[<-|[<-|[]]]] [<-|[<-|[<-|[]]]] [<-|[<-|[<-|[]]]];
      vm_compute; trivial.
Defined.

Lemma tier_b_idempotent_on_equivalence_witness :
  _deduplicate_facts_enhanced fuzz_ratio
    (_deduplicate_facts_enhanced fuzz_ratio repeated_facts "Layer1") "Layer1"
  = _deduplicate_facts_enhanced fuzz_ratio repeated_facts "Layer1".
Proof.
  apply (@tier_b_idempotent_on_equivalence fuzz_ratio repeated_facts "Layer1").
  exact repeated_facts_equivalence.
Defined.

Example repeated_facts_dedup :
  _deduplicate_facts_enhanced fuzz_ratio repeated_facts "Layer1"
  = [name_fact " asha rao " (9 # 10); phone_fact "9876543210" (8 # 10)].
Proof. vm_compute. reflexivity. Qed.

(** ** Properties of the Merger *)

Lemma extend_layers_spec (a b c d : list Node) (e : dict (list Node)) :
  extend_layers
    [("Layer1", a); ("Layer2", b); ("Layer3", c); ("Layer4", d)] e
  = [("Layer1", a ++ get_default (dict_get e "Layer1") []);
     ("Layer2", b ++ get_default (dict_get e "Layer2") []);
     ("Layer3", c ++ get_default (dict_get e "Layer3") []);
     ("Layer4", d ++ get_default (dict_get e "Layer4") [])].
Proof.
  unfold extend_layers, LAYERS. cbn [fold_left].
  destruct (dict_get e "Layer1"); destruct (dict_get e "Layer2");
    destruct (dict_get e "Layer3"); destruct (dict_get e "Layer4");
    cbn; rewrite ?app_nil_r; reflexivity.
Qed.

Lemma fold_extend_layers (all_extracted : list (dict (list Node))) :
  forall a b c d : list Node,
    fold_left extend_layers all_extracted
      [("Layer1", a); ("Layer2", b); ("Layer3", c); ("Layer4", d)]
    = [("Layer1", a ++ concatenated_layer all_extracted "Layer1");
       ("Layer2", b ++ concatenated_layer all_extracted "Layer2");
       ("Layer3", c ++ concatenated_layer all_extracted "Layer3");
       ("Layer4", d ++ concatenated_layer all_extracted "Layer4")].
Proof.
  induction all_extracted as [|e rest IH]; intros a b c d.
  - cbn. now rewrite !app_nil_r.
  - cbn [fold_left]. rewrite extend_layers_spec, IH.
    unfold concatenated_layer. cbn [flat_map]. now rewrite <- !app_assoc.
Qed.



(** ** Properties of the Validator *)

Example validate_raw_relations :
  _validate_extractions raw_relations
  = [("Layer3", [relation_fact "spouse" "Sarah" (9 # 10) "my wife Sarah"])].
Proof. vm_compute. reflexivity. Qed.

(** C2 on the failing input: the layer-1 flight number of confidence 0.1
    comes out of the Validator, in layer 4. *)
Lemma validator_keeps_low_confidence_travel :
  _validate_extractions raw_low_flight = [("Layer4", [flight_fact (1 # 10)])]
  /\ Qltb (confidence (flight_fact (1 # 10))) CONFIDENCE_THRESHOLD = true.
Proof. vm_compute. split; reflexivity. Qed.


Lemma str_in_In (s : string) (l : list string) :
  str_in s l = true <-> In s l.
Proof.
  unfold str_in. rewrite existsb_exists. split.
  - intros (x & Hx & E). apply String.eqb_eq in E. now subst.
  - intros H. exists s. split; trivial. apply String.eqb_refl.
Qed.










Lemma dict_get_set_other {V} (d : dict V) (k k' : string) (v : V) :
  k <> k' -> dict_get (dict_set d k' v) k = dict_get d k.
Proof.
  intros Hne. induction d as [|[k0 v0] r IH]; cbn [dict_set dict_get].
  - destruct (String.eqb_spec k' k); [congruence | reflexivity].
  - destruct (String.eqb_spec k0 k') as [->|H0]; cbn [dict_get].
    + destruct (String.eqb_spec k' k); [congruence | reflexivity].
    + now rewrite IH.
Qed.

Lemma in_layer_append (d : dict (list Node)) (layer k : string) (n x : Node) :
  in_layer d layer n -> in_layer (dict_append d k x) layer n.
Proof.
  intros (nodes & Hget & Hin). unfold dict_append, in_layer.
  destruct (String.eqb_spec layer k) as [<-|Hne].
  - rewrite Hget, dict_get_set_same. exists (nodes ++ [x]). split; trivial.
    apply in_or_app. now left.
  - destruct (dict_get d k); rewrite dict_get_set_other by trivial; eauto.
Qed.

(** A turn of the node loop leaves the dict's nodes where they are and
    never takes a node back from [validated_nodes]. *)
Lemma validate_node_keeps (layer' layer : string)
    (st : dict (list Node) * list Node) (node n : Node) :
  (in_layer (fst st) layer n ->
   in_layer (fst (validate_node layer' st node)) layer n) /\
  (In n (snd st) -> In n (snd (validate_node layer' st node))).
Proof.
  destruct st as [vd vn]. unfold validate_node. cbn [fst snd].
  destruct (String.eqb layer' "Layer1"
            && str_in (fact_type (detail node)) travel_types).
  - cbn [fst snd]. split; trivial. apply in_layer_append.
  - destruct (_ || _ || _); cbn [fst snd]; split; trivial.
    intros H. apply in_or_app. now left.
Qed.

Lemma validate_nodes_keep (layer' layer : string) (nodes : list Node) (n : Node) :
  forall st,
    (in_layer (fst st) layer n ->
     in_layer (fst (fold_left (validate_node layer') nodes st)) layer n) /\
    (In n (snd st) ->
     In n (snd (fold_left (validate_node layer') nodes st))).
Proof.
  induction nodes as [|node nodes IH]; intros st; cbn [fold_left]; [tauto|].
  destruct (validate_node_keeps layer' layer st node n) as [H1 H2].
  destruct (IH (validate_node layer' st node)) as [H3 H4]. tauto.
Qed.



Lemma validate_layer_keeps (d : dict (list Node)) (layer' layer : string)
    (nodes : list Node) (n : Node) :
  layer' <> layer ->
  in_layer d layer n ->
  in_layer (validate_layer d (layer', nodes)) layer n.
Proof.
  intros Hne Hin. unfold validate_layer.
  destruct (validate_nodes_keep layer' layer nodes n (d, [])) as [H _].
  specialize (H Hin).
  destruct (fold_left (validate_node layer') nodes (d, [])) as [vd vn].
  cbn [fst] in H. destruct vn as [|x vn]; trivial.
  destruct H as (l & Hget & Hl). exists l. split; trivial.
  rewrite dict_get_set_other; auto.
Qed.


Lemma validate_layers_keep (rest : dict (list Node)) (layer : string) (n : Node) :
  ~ In layer (map fst rest) ->
  forall d, in_layer d layer n ->
            in_layer (fold_left validate_layer rest d) layer n.
Proof.
  induction rest as [|[layer' nodes] rest IH]; intros Hk d Hd;
    cbn [fold_left]; trivial.
  cbn [map fst] in Hk. apply IH; [intros H; apply Hk; now right|].
  apply validate_layer_keeps; trivial. intros ->. apply Hk. now left.
Qed.


(** ** Properties of the Persistence Adapter *)

Example layer_number_examples :
  layer_number "Layer1" = Ok 1%Z /\
  layer_number "Layer 4" = Ok 4%Z /\
  layer_number "Summary" = Raise ValueError /\
  layer_number "Layer" = Raise ValueError.
Proof. vm_compute. repeat split; reflexivity. Qed.

Example format_concluded_fact_examples :
  _format_concluded_fact "asha" "blood_group" "O+"
  = "Blood Group of asha is O+" /\
  _format_concluded_fact "asha" "friend" "Ravi" = "👫 Friend of asha: Ravi".
Proof. vm_compute. split; reflexivity. Qed.

Lemma nonempty_layers_in (d : dict (list Node)) (layer : string)
    (nodes : list Node) (n : Node) :
  In (layer, nodes) d -> In n nodes -> In (layer, nodes) (nonempty_layers d).
Proof.
  intros Hd Hn. unfold nonempty_layers. apply filter_In. split; trivial.
  cbn [snd]. destruct nodes; [destruct Hn | reflexivity].
Qed.

Lemma nonempty_layers_all_empty (d : dict (list Node)) :
  Forall (fun entry => snd entry = []) d -> nonempty_layers d = [].
Proof.
  induction 1 as [|[layer nodes] d Hnodes _ IH]; [reflexivity|].
  cbn [snd] in Hnodes. subst nodes. cbn [nonempty_layers filter snd].
  exact IH.
Qed.

Lemma dict_set_all_empty (d : dict (list Node)) (layer : string) :
  Forall (fun entry => snd entry = []) d ->
  Forall (fun entry => snd entry = []) (dict_set d layer []).
Proof.
  induction 1 as [|[layer' nodes] d Hnodes Hd IH]; cbn [dict_set].
  - now repeat constructor.
  - destruct (String.eqb layer' layer); constructor; trivial.
Qed.

Section FailingInserts.

Variable o : Oracle.
Variable user_id : string.
Hypothesis no_insert : inserts_fail o.

Lemma store_memory_node_fails (w : World) (layer : Z)
    (ftype content concluded_fact : string) (conf : Q) (evs : list Evidence)
    (extraction_method : string) (parent_update_id : option string) :
  truthy_id (snd (store_memory_node o w user_id layer ftype content
                                    concluded_fact conf evs extraction_method
                                    parent_update_id)) = false.
Proof.
  unfold store_memory_node. destruct (negb (is_connected w)); [reflexivity|].
  match goal with
  | |- context [db_insert o ?h ?row] =>
      pose proof (no_insert h row) as H; destruct (db_insert o h row)
  end; cbn [snd] in *; [exact H | reflexivity].
Qed.

Lemma store_nodes_fail (layer : string) (number : Z) (nodes : list Node) :
  forall st,
    let st' := fold_left (store_node o user_id layer number) nodes st in
    st_stored st' = st_stored st /\
    st_newly st' = st_newly st /\
    st_duplicate st' = st_duplicate st + List.length (confident nodes).
Proof.
  induction nodes as [|n nodes IH]; intros st; cbn [fold_left].
  - cbn. repeat split. lia.
  - cbv zeta in *.
    destruct (IH (store_node o user_id layer number st n)) as (S1 & N1 & D1).
    rewrite S1, N1, D1. clear S1 N1 D1 IH.
    unfold store_node, confident. cbn [filter].
    destruct (Qltb (confidence n) CONFIDENCE_THRESHOLD); cbn [negb];
      [cbn; repeat split; lia|].
    pose proof (store_memory_node_fails (st_world st) number
                  (fact_type (detail n)) (fact_value (detail n))
                  (_format_concluded_fact user_id (fact_type (detail n))
                                          (fact_value (detail n)))
                  (confidence n) (evidence n) "initial" None) as Hfail.
    destruct (store_memory_node o (st_world st) user_id number
                (fact_type (detail n)) (fact_value (detail n))
                (_format_concluded_fact user_id (fact_type (detail n))
                                        (fact_value (detail n)))
                (confidence n) (evidence n) "initial" None) as [w' node_id].
    cbn [snd] in Hfail. rewrite Hfail. cbn. repeat split. lia.
Qed.

Lemma store_layers_fail (entries : dict (list Node)) :
  forall st,
    Forall (fun entry => snd entry = []) (st_newly st) ->
    let st' := fst (store_layers o user_id entries st) in
    st_stored st' = st_stored st /\
    Forall (fun entry => snd entry = []) (st_newly st') /\
    (snd (store_layers o user_id entries st) = None ->
     st_duplicate st'
     = st_duplicate st + List.length (confident (flat_map snd entries))).
Proof.
  induction entries as [|[layer nodes] entries IH]; intros st Hnewly;
    cbn [store_layers].
  - cbn. split; [reflexivity|]. split; [assumption|]. intros _. lia.
  - destruct (layer_number layer) as [number|e];
      [|cbn; split; [reflexivity|]; split; [assumption | discriminate]].
    cbv zeta in *.
    destruct (store_nodes_fail layer number nodes
                (mkStoreState (st_world st) (st_stored st) (st_duplicate st)
                              (st_rejected st)
                              (dict_set (st_newly st) layer [])))
      as (S1 & N1 & D1).
    cbn [st_stored st_newly st_duplicate] in S1, N1, D1.
    destruct (IH (fold_left (store_node o user_id layer number) nodes
                    (mkStoreState (st_world st) (st_stored st)
                                  (st_duplicate st) (st_rejected st)
                                  (dict_set (st_newly st) layer []))))
      as (S2 & N2 & D2).
    { rewrite N1. now apply dict_set_all_empty. }
    split; [congruence|]. split; [exact N2|].
    intros Hnone. rewrite (D2 Hnone), D1.
    cbn [flat_map snd]. unfold confident. rewrite filter_app, length_app.
    lia.
Qed.

End FailingInserts.

(** C10, as the code has it: with the store disconnected, or when the
    [try] block raises, [store_in_db] reports every candidate of every
    non-empty layer as newly stored, with a stored count of 0.  An
    insert that fails does not end the [try] block ([store_memory_node]
    catches the exception of the database): when every insert fails,
    nothing is reported as newly stored, and every candidate of a
    confidence of at least 0.75 is counted as a duplicate. *)
Theorem store_in_db_reports_all_unstored (o : Oracle) (self : Extractor)
    (w : World) (extracted_nodes : dict (list Node)) (user_id : string) :
  let r := snd (store_in_db o self w extracted_nodes user_id) in
  (db_enabled self = false \/
   (exists e, snd (store_layers o user_id extracted_nodes
                                (mkStoreState w 0 0 0 [])) = Some e) ->
   newly_stored_nodes r = nonempty_layers extracted_nodes /\
   stats r = mkStats 0 0 0 /\
   (forall layer nodes n,
       In (layer, nodes) extracted_nodes -> In n nodes ->
       In (layer, nodes) (newly_stored_nodes r)))
  /\
  (db_enabled self = true ->
   snd (store_layers o user_id extracted_nodes (mkStoreState w 0 0 0 []))
   = None ->
   inserts_fail o ->
   newly_stored_nodes r = [] /\
   stored (stats r) = 0 /\
   duplicate (stats r)
   = List.length (confident (flat_map snd extracted_nodes))).
Proof.
  cbv zeta. split.
  - intros H.
    assert (E : snd (store_in_db o self w extracted_nodes user_id)
                = logged_only extracted_nodes).
    { unfold store_in_db. destruct (db_enabled self) eqn:Hdb; cbn [negb].
      - destruct H as [H | [e He]]; [discriminate|].
        destruct (store_layers o user_id extracted_nodes
                               (mkStoreState w 0 0 0 [])) as [st [e'|]];
          cbn [snd] in *; [reflexivity | discriminate].
      - reflexivity. }
    rewrite E. cbn [logged_only newly_stored_nodes stats].
    repeat split. intros layer nodes n Hd Hn.
    eapply nonempty_layers_in; eauto.
  - intros Hdb Hnone Hfail. unfold store_in_db. rewrite Hdb. cbn [negb].
    destruct (@store_layers_fail o user_id Hfail extracted_nodes
                (mkStoreState w 0 0 0 []) (Forall_nil _))
      as (Hstored & Hnewly & Hdup).
    specialize (Hdup Hnone).
    destruct (store_layers o user_id extracted_nodes (mkStoreState w 0 0 0 []))
      as [st [e|]]; cbn [fst snd] in *; [discriminate|].
    cbn [snd newly_stored_nodes stats stored duplicate st_stored st_duplicate]
      in *.
    split; [now apply nonempty_layers_all_empty|]. split; trivial.
Qed.

(** C10, on two runs.  The first layer is written to the store, the key
    of the second raises, and both are reported, the second with a
    confidence below the threshold; and with a store whose inserts
    fail, the phone number is counted as a duplicate and not
    reported. *)
Lemma store_in_db_reports_all_unstored_witness :
  (let r := snd (store_in_db helpful_oracle (mkExtractor 100 20 true)
                             (mkWorld true [] [] []) odd_layers "asha") in
   newly_stored_nodes r = nonempty_layers odd_layers /\
   stats r = mkStats 0 0 0 /\
   (forall layer nodes n,
       In (layer, nodes) odd_layers -> In n nodes ->
       In (layer, nodes) (newly_stored_nodes r)))
  /\
  (let r := snd (store_in_db failing_store (mkExtractor 100 20 true)
                             fresh_world phone_reply "asha") in
   newly_stored_nodes r = [] /\
   stored (stats r) = 0 /\
   duplicate (stats r) = List.length (confident (flat_map snd phone_reply))).
Proof.
  split.
  - apply (proj1 (@store_in_db_reports_all_unstored helpful_oracle
                    (mkExtractor 100 20 true) (mkWorld true [] [] [])
                    odd_layers "asha")).
    right. exists ValueError. vm_compute. reflexivity.
  - apply (proj2 (@store_in_db_reports_all_unstored failing_store
                    (mkExtractor 100 20 true) fresh_world phone_reply "asha")).
    + reflexivity.
    + vm_compute. reflexivity.
    + intros h row. reflexivity.
Defined.

(** C10 fails as stated for a database exception: the insert of a
    confident phone number fails, and the candidate is counted as a
    duplicate and left out of the newly stored ones, although its layer
    is not empty. *)
Lemma store_in_db_failed_insert_not_reported :
  nonempty_layers phone_reply = phone_reply /\
  snd (store_in_db failing_store (mkExtractor 100 20 true) fresh_world
                   phone_reply "asha")
  = mkStorageResult [] (mkStats 0 1 0).
Proof. vm_compute. split; reflexivity. Qed.

Example store_in_db_odd_layers :
  let (w', r) := store_in_db helpful_oracle (mkExtractor 100 20 true)
                             (mkWorld true [] [] []) odd_layers "asha" in
  List.length (memory_nodes w') = 1 /\
  newly_stored_nodes r = odd_layers /\
  stored (stats r) = 0.
Proof. vm_compute. repeat split; reflexivity. Qed.

Example store_in_db_offline :
  store_in_db helpful_oracle (mkExtractor 100 20 false) offline_world
              odd_layers "asha"
  = (offline_world, mkStorageResult odd_layers (mkStats 0 0 0)).
Proof. vm_compute. reflexivity. Qed.

(** C6 on the failing input: a candidate with an empty evidence list is
    written to the store, and the reply of the deduplication prompt may
    bring one. *)
Lemma store_in_db_writes_empty_evidence :
  map rec_evidence
      (memory_nodes
         (fst (store_in_db echo_oracle (mkExtractor 100 20 true)
                           (mkWorld true [] [] [])
                           [("Layer1", [bare_fact])] "asha")))
  = [[]]
  /\
  snd (deduplicate_with_llm fuzz_ratio echo_oracle (mkWorld true [] [] [])
                            [("Layer1", [name_fact "Asha Rao" (9 # 10)])]
                            "asha")
  = [("Layer1", [bare_fact])].
Proof. vm_compute. split; reflexivity. Qed.

Example from_llm_fact_missing_evidence :
  from_llm_fact (mkLFact (Some "name") (Some "Asha Rao") None None)
  = Some (mkNode (mkDetail "name" "Asha Rao") (8 # 10)
                 [mkEvidence (Some "unknown") None
                             (Some "Evidence missing during deduplication")]).
Proof. reflexivity. Qed.

(** ** Properties of the pipeline *)




(** A first run on a connected store writes the fact and the marker; the
    second run is skipped. *)
Example process_json_twice :
  let self := new_extractor 100 20 (mkWorld true [] [] []) in
  let (w1, r1) := process_json fuzz_ratio helpful_oracle self
                               (mkWorld true [] [] []) one_conversation
                               "asha" false in
  r1 = Ok [("Layer1", PNodes [phone_fact "9876543210" (95 # 100)])]
  /\ processed_files w1 = [("asha", 1)]
  /\ snd (process_json fuzz_ratio helpful_oracle self w1 one_conversation
                       "asha" false)
     = Ok skip_notice.
Proof. vm_compute. repeat split; reflexivity. Qed.

(** C6, end to end: the reply of the deduplication prompt carries a fact
    with an empty evidence list, and the row is written with it. *)
Example process_json_empty_evidence :
  map rec_evidence
      (memory_nodes
         (fst (process_json fuzz_ratio echo_oracle
                            (mkExtractor 100 20 true) (mkWorld true [] [] [])
                            one_conversation "asha" false)))
  = [[]].
Proof. vm_compute. reflexivity. Qed.

(* ================================================================== *)
(** * Part III: further properties of the code *)

(** ** The Chunker *)

Lemma firstn_plus {A} (a b : nat) (l : list A) :
  firstn (a + b) l = firstn a l ++ firstn b (skipn a l).
Proof.
  revert l. induction a as [|a IH]; intros l; [reflexivity|].
  destruct l as [|x l]; cbn [Nat.add firstn skipn app].
  - now rewrite firstn_nil.
  - now rewrite IH.
Qed.

Lemma window_length {Msg} (size overlap : Z) (messages : list Msg) (k : nat) :
  List.length (window size overlap messages k)
  = Nat.min (Z.to_nat size)
            (List.length messages - k * Z.to_nat (size - overlap)).
Proof. unfold window. now rewrite length_firstn, length_skipn. Qed.

(** X1: with [size > overlap >= 0] no chunk is empty, none is longer than
    [size], and every chunk but the last has exactly [size] messages. *)
Theorem chunk_messages_sizes (Msg : Type) (size overlap : Z)
    (messages : list Msg) :
  (0 <= overlap < size)%Z ->
  exists chunks : list (list Msg),
    chunk_messages size overlap messages = Ok chunks /\
    (forall c, In c chunks -> 1 <= List.length c <= Z.to_nat size) /\
    (forall i c, nth_error chunks i = Some c -> S i < List.length chunks ->
                 List.length c = Z.to_nat size).
Proof.
  intros Hcfg.
  destruct messages as [|x0 l0] eqn:E.
  { exists []. split; [reflexivity|]. split.
    - intros c [].
    - intros [|i] c H; discriminate. }
  rewrite <- E. assert (Hne : messages <> []) by (subst; discriminate).
  clear E x0 l0.
  destruct (chunk_messages_windows Hcfg Hne) as (m & Hm & Heq & Hshort & Hlast).
  exists (map (window size overlap messages) (seq 0 m)).
  split; [exact Heq|].
  assert (Hlen : 0 < List.length messages).
  { destruct messages; [congruence | simpl; lia]. }
  assert (Hstart : forall k, k < m ->
            k * Z.to_nat (size - overlap) < List.length messages).
  { intros k Hk. destruct k as [|k]; [lia|].
    specialize (Hshort k ltac:(lia)). nia. }
  split.
  - intros c Hc. apply in_map_iff in Hc as (k & <- & Hk).
    apply in_seq in Hk. rewrite window_length.
    specialize (Hstart k ltac:(lia)). lia.
  - intros i c Hi Hlast'. rewrite length_map, length_seq in Hlast'.
    rewrite nth_error_windows in Hi by lia. injection Hi as <-.
    rewrite window_length. specialize (Hshort i ltac:(lia)). nia.
Qed.

Lemma chunk_messages_sizes_witness :
  exists chunks : list (list nat),
    chunk_messages 3 1 [1; 2; 3; 4; 5; 6] = Ok chunks /\
    (forall c, In c chunks -> 1 <= List.length c <= Z.to_nat 3) /\
    (forall i c, nth_error chunks i = Some c -> S i < List.length chunks ->
                 List.length c = Z.to_nat 3).
Proof.
  apply (@chunk_messages_sizes nat 3 1 [1; 2; 3; 4; 5; 6]). lia.
Defined.

(** X2: a non-empty message list that fits in one chunk comes back as
    that one chunk, whatever the overlap below the size. *)
Theorem chunk_messages_single (Msg : Type) (size overlap : Z)
    (messages : list Msg) :
  (overlap < size)%Z ->
  messages <> [] ->
  (Z.of_nat (List.length messages) <= size)%Z ->
  chunk_messages size overlap messages = Ok [messages].
Proof.
  intros Hcfg Hne Hfit. unfold chunk_messages, range0.
  destruct messages as [|x l] eqn:E; [congruence|]. rewrite <- E in *.
  assert (Hlen : (0 < Z.of_nat (List.length messages))%Z)
    by (subst; simpl; lia).
  destruct (Z.eqb_spec (size - overlap) 0) as [|_]; [lia|].
  destruct (Z.ltb_spec (size - overlap) 0) as [|_]; [lia|].
  cbn [bind].
  assert (Hpos : (0 < (Z.of_nat (List.length messages) + (size - overlap) - 1)
                       / (size - overlap))%Z).
  { apply Z.div_str_pos. lia. }
  destruct (Z.to_nat ((Z.of_nat (List.length messages) + (size - overlap) - 1)
                      / (size - overlap))) as [|c] eqn:Hc; [lia|].
  cbn [seq map chunk_loop]. cbn [Z.of_nat Z.mul Z.add].
  assert (Hslice : slice messages 0 size = messages).
  { rewrite <- (Z.add_0_l size) at 1. rewrite slice_window by lia.
    cbn [Z.to_nat skipn]. apply firstn_all2. lia. }
  rewrite Hslice.
  destruct (Z.geb_spec size (Z.of_nat (List.length messages))); [|lia].
  rewrite E. reflexivity.
Qed.

Lemma chunk_messages_single_witness :
  chunk_messages 100 20 [1; 2; 3] = Ok [[1; 2; 3]].
Proof.
  apply (@chunk_messages_single nat 100 20 [1; 2; 3]);
    [lia | discriminate | simpl; lia].
Defined.

(** The windows of the first turns, the repeated messages dropped, are a
    prefix of the messages. *)
Lemma unchunk_windows {Msg} (size overlap : Z) (messages : list Msg) (j : nat) :
  (0 <= overlap < size)%Z ->
  window size overlap messages 0
  ++ flat_map (skipn (Z.to_nat overlap))
              (map (window size overlap messages) (seq 1 j))
  = firstn (j * Z.to_nat (size - overlap) + Z.to_nat size) messages.
Proof.
  intros Hcfg. induction j as [|j IH].
  - cbn [seq map flat_map]. rewrite app_nil_r. reflexivity.
  - assert (Hstep : Z.to_nat (size - overlap)
                    = Z.to_nat size - Z.to_nat overlap) by lia.
    rewrite Nat.mul_succ_l.
    replace (j * Z.to_nat (size - overlap) + Z.to_nat (size - overlap)
             + Z.to_nat size)
      with ((j * Z.to_nat (size - overlap) + Z.to_nat size)
            + (Z.to_nat size - Z.to_nat overlap)) by lia.
    rewrite firstn_plus, <- IH.
    rewrite seq_S, map_app, flat_map_app, app_assoc.
    cbn [map flat_map Nat.add]. rewrite app_nil_r. f_equal.
    unfold window. rewrite skipn_firstn_comm, skipn_skipn.
    do 2 f_equal. rewrite Nat.mul_succ_l. lia.
Qed.

(** X3: with [size > overlap >= 0] the chunks give the messages back, in
    order: the first chunk followed by the later ones without their
    first [overlap] messages. *)
Theorem chunk_messages_unchunk (Msg : Type) (size overlap : Z)
    (messages : list Msg) :
  (0 <= overlap < size)%Z ->
  exists chunks : list (list Msg),
    chunk_messages size overlap messages = Ok chunks /\
    unchunk (Z.to_nat overlap) chunks = messages.
Proof.
  intros Hcfg.
  destruct messages as [|x0 l0] eqn:E.
  { exists []. split; reflexivity. }
  rewrite <- E. assert (Hne : messages <> []) by (subst; discriminate).
  clear E x0 l0.
  destruct (chunk_messages_windows Hcfg Hne) as (m & Hm & Heq & Hshort & Hlast).
  exists (map (window size overlap messages) (seq 0 m)).
  split; [exact Heq|].
  destruct m as [|m]; [lia|].
  cbn [seq map unchunk].
  rewrite unchunk_windows by trivial.
  apply firstn_all2. replace (S m - 1) with m in Hlast by lia. nia.
Qed.

Lemma chunk_messages_unchunk_witness :
  exists chunks : list (list nat),
    chunk_messages 3 1 [1; 2; 3; 4; 5; 6] = Ok chunks /\
    unchunk (Z.to_nat 1) chunks = [1; 2; 3; 4; 5; 6].
Proof.
  apply (@chunk_messages_unchunk nat 3 1 [1; 2; 3; 4; 5; 6]). lia.
Defined.

(** ** The Message Normalizer *)

Lemma flatten_from (k : nat) (input_json : list Conversation) :
  map msg_entry
      (flat_map flatten_conversation
                (combine (seq k (List.length input_json)) input_json))
  = flat_map conversation_entries input_json
  /\
  forall m,
    In m (flat_map flatten_conversation
                   (combine (seq k (List.length input_json)) input_json)) ->
    k <= msg_conversation_id m < k + List.length input_json /\
    ((msg_sender m = "User" /\
      msg_id m = get_default (raw_message_id (msg_entry m))
                   ("unknown_user_" ++ str_of_nat (msg_conversation_id m))%string)
     \/
     (msg_sender m = "Team" /\
      msg_id m = get_default (raw_message_id (msg_entry m))
                   ("unknown_team_" ++ str_of_nat (msg_conversation_id m))%string)).
Proof.
  revert k. induction input_json as [|conv rest IH]; intros k.
  - split; [reflexivity | intros m []].
  - cbn [List.length seq combine flat_map].
    destruct (IH (S k)) as [IHe IHm]. split.
    + rewrite map_app, IHe. f_equal.
      unfold flatten_conversation, conversation_entries.
      rewrite map_app, !map_map. cbn [msg_entry]. now rewrite !map_id.
    + intros m Hm. apply in_app_or in Hm as [Hm|Hm].
      * unfold flatten_conversation in Hm.
        apply in_app_or in Hm as [Hm|Hm];
          apply in_map_iff in Hm as (e & <- & _); cbn;
          (split; [lia|]); [left | right]; split; reflexivity.
      * destruct (IHm m Hm) as [Hidx Hid]. split; [lia | exact Hid].
Qed.

(** X4: the Normalizer keeps every entry of the document, in the order
    of the conversations, each conversation's queries before its
    replies, and a message that has a [message_id] keeps it as its id. *)
Theorem flatten_messages_entries (input_json : list Conversation) :
  map msg_entry (flatten_messages input_json)
  = flat_map conversation_entries input_json
  /\
  (forall m i,
      In m (flatten_messages input_json) ->
      raw_message_id (msg_entry m) = Some i -> msg_id m = i).
Proof.
  destruct (flatten_from 0 input_json) as [He Hm]. split; [exact He|].
  intros m i Hin Hid. destruct (Hm m Hin) as [_ [[_ E]|[_ E]]];
    rewrite E, Hid; reflexivity.
Qed.

(** X5: the id made up for a message without [message_id] depends on the
    sender and the conversation only: two such messages of one sender in
    one conversation get the same id. *)
Theorem flatten_messages_synthetic_ids (input_json : list Conversation)
    (m1 m2 : Message) :
  In m1 (flatten_messages input_json) ->
  In m2 (flatten_messages input_json) ->
  raw_message_id (msg_entry m1) = None ->
  raw_message_id (msg_entry m2) = None ->
  msg_sender m1 = msg_sender m2 ->
  msg_conversation_id m1 = msg_conversation_id m2 ->
  msg_id m1 = msg_id m2.
Proof.
  intros H1 H2 N1 N2 Hs Hc.
  destruct (flatten_from 0 input_json) as [_ Hm].
  destruct (Hm m1 H1) as [_ [[S1 E1]|[S1 E1]]];
    destruct (Hm m2 H2) as [_ [[S2 E2]|[S2 E2]]];
    rewrite E1, E2, N1, N2, Hc; cbn [get_default]; trivial;
    rewrite S1, S2 in Hs; discriminate.
Qed.

Lemma flatten_messages_synthetic_ids_witness :
  msg_id (mkMessage (mkRawMessage None (Some "hello")) "User" 0
                    "unknown_user_0")
  = msg_id (mkMessage (mkRawMessage None (Some "my number is 1"))
                      "User" 0 "unknown_user_0").
Proof.
  apply (@flatten_messages_synthetic_ids
           [mkConversation
              (Some [mkRawMessage None (Some "hello");
                     mkRawMessage None (Some "my number is 1")])
              None]);
    vm_compute; auto.
Defined.

(** ** The Prompt Builder: [deduplicate_messages] *)

Section MessageDedup.

Variable ratio : string -> string -> Z.

(** The state of the loop is its list of kept messages, with their texts
    as [seen]. *)
Lemma message_step_kept (kept : list Message) (msg : Message) :
  message_step ratio (map message_text kept, kept) msg
  = if keepable ratio kept msg
    then (map message_text (kept ++ [msg]), kept ++ [msg])
    else (map message_text kept, kept).
Proof.
  unfold message_step, keepable. fold (message_text msg).
  destruct (String.eqb (message_text msg) EmptyString); cbn [negb andb];
    trivial.
  destruct (existsb _ (map message_text kept)); cbn [negb]; trivial.
  now rewrite map_app.
Qed.

Lemma message_fold_kept (messages kept : list Message) :
  exists kept',
    fold_left (message_step ratio) messages (map message_text kept, kept)
    = (map message_text kept', kept').
Proof.
  revert kept. induction messages as [|msg rest IH]; intros kept;
    cbn [fold_left].
  - now exists kept.
  - rewrite message_step_kept. destruct (keepable ratio kept msg); apply IH.
Qed.

Lemma message_fold_snoc (messages kept : list Message) (msg : Message) :
  snd (fold_left (message_step ratio) (messages ++ [msg])
                 (map message_text kept, kept))
  = let kept' := snd (fold_left (message_step ratio) messages
                                (map message_text kept, kept)) in
    if keepable ratio kept' msg then kept' ++ [msg] else kept'.
Proof.
  rewrite fold_left_app. cbn [fold_left].
  destruct (message_fold_kept messages kept) as [kept' ->]. cbn [snd].
  rewrite message_step_kept. now destruct (keepable ratio kept' msg).
Qed.

Lemma kept_chain_fold (messages kept : list Message) :
  kept_chain ratio (rev kept) ->
  kept_chain ratio
    (rev (snd (fold_left (message_step ratio) messages
                         (map message_text kept, kept)))).
Proof.
  induction messages as [|msg rest IH] using rev_ind; intros Hk; trivial.
  rewrite message_fold_snoc. cbv zeta.
  specialize (IH Hk).
  set (kept' := snd (fold_left (message_step ratio) rest
                               (map message_text kept, kept))) in *.
  destruct (keepable ratio kept' msg) eqn:E; trivial.
  rewrite rev_app_distr. cbn [rev app kept_chain]. now rewrite rev_involutive.
Qed.

Lemma kept_chain_unchanged (messages : list Message) :
  kept_chain ratio (rev messages) ->
  deduplicate_messages ratio messages = messages.
Proof.
  unfold deduplicate_messages.
  change (@nil string, @nil Message) with (map message_text [], @nil Message).
  induction messages as [|msg rest IH] using rev_ind; intros Hk; trivial.
  rewrite message_fold_snoc. cbv zeta.
  rewrite rev_app_distr in Hk. cbn [rev app kept_chain] in Hk.
  destruct Hk as [Hmsg Hrest]. rewrite rev_involutive in Hmsg.
  rewrite (IH Hrest), Hmsg. reflexivity.
Qed.

(** X6: [deduplicate_messages] is a fixed point on its own output, for
    any similarity ratio. *)
Theorem deduplicate_messages_idempotent (messages : list Message) :
  deduplicate_messages ratio (deduplicate_messages ratio messages)
  = deduplicate_messages ratio messages.
Proof.
  apply kept_chain_unchanged. unfold deduplicate_messages.
  change (@nil string, @nil Message) with (map message_text [], @nil Message).
  apply kept_chain_fold. exact I.
Qed.

(** X7: the messages kept are messages of the chunk, in their order, and
    none of them has a blank text. *)
Theorem deduplicate_messages_subsequence (messages : list Message) :
  Subsequence (deduplicate_messages ratio messages) messages /\
  (forall msg, In msg (deduplicate_messages ratio messages) ->
               message_text msg <> EmptyString).
Proof.
  unfold deduplicate_messages.
  change (@nil string, @nil Message) with (map message_text [], @nil Message).
  assert (H : forall l kept,
            exists out,
              snd (fold_left (message_step ratio) l
                             (map message_text kept, kept)) = kept ++ out /\
              Subsequence out l /\
              (forall msg, In msg out -> message_text msg <> EmptyString)).
  { induction l as [|msg rest IH]; intros kept; cbn [fold_left].
    - exists []. rewrite app_nil_r. repeat split; [constructor | intros ? []].
    - rewrite message_step_kept. destruct (keepable ratio kept msg) eqn:E.
      + destruct (IH (kept ++ [msg])) as (out & -> & Hsub & Htext).
        exists (msg :: out). rewrite <- app_assoc. repeat split.
        * now constructor.
        * intros m [<-|Hm]; [|auto]. unfold keepable in E.
          apply andb_true_iff in E as [E _]. apply negb_true_iff in E.
          now apply String.eqb_neq in E.
      + destruct (IH kept) as (out & -> & Hsub & Htext).
        exists out. repeat split; trivial. now constructor. }
  destruct (H messages []) as (out & -> & Hsub & Htext). now split.
Qed.

End MessageDedup.

(** ** The Extraction Validator *)

Lemma all_entries_set (Q : string -> Node -> Prop) (d : dict (list Node))
    (k : string) (l : list Node) :
  all_entries Q d -> Forall (Q k) l -> all_entries Q (dict_set d k l).
Proof.
  unfold all_entries. intros Hd Hl.
  induction d as [|[k' v] r IH]; cbn [dict_set].
  - constructor; trivial.
  - inversion Hd; subst. destruct (String.eqb_spec k' k) as [->|_];
      constructor; auto.
Qed.

Lemma all_entries_get (Q : string -> Node -> Prop) (d : dict (list Node))
    (k : string) (l : list Node) :
  all_entries Q d -> dict_get d k = Some l -> Forall (Q k) l.
Proof.
  unfold all_entries. intros Hd.
  induction d as [|[k' v] r IH]; cbn [dict_get]; [discriminate|].
  inversion Hd; subst. destruct (String.eqb_spec k' k) as [->|_]; auto.
  now intros [= <-].
Qed.

Lemma all_entries_append (Q : string -> Node -> Prop) (d : dict (list Node))
    (k : string) (x : Node) :
  all_entries Q d -> Q k x -> all_entries Q (dict_append d k x).
Proof.
  intros Hd Hx. unfold dict_append.
  destruct (dict_get d k) as [l|] eqn:E.
  - apply all_entries_set; trivial. apply Forall_app. split; [|now constructor].
    eapply all_entries_get; eauto.
  - apply all_entries_set; trivial. now constructor.
Qed.

(** What the three checks leave: the nodes that pass. *)
Lemma validate_node_not_moved (layer : string)
    (st : dict (list Node) * list Node) (node : Node) :
  String.eqb layer "Layer1" && travel_fact node = false ->
  validate_node layer st node
  = (fst st, if passes_checks node then snd st ++ [node] else snd st).
Proof.
  intros Hmove. destruct st as [vd vn]. unfold validate_node.
  unfold travel_fact in Hmove. rewrite Hmove. cbn [fst snd].
  unfold passes_checks, bare_relation, bare_relation_value, Qltb.
  destruct (str_in (fact_type (detail node)) relationship_types
            && str_in (strip (lower (fact_value (detail node))))
                      invalid_relationship_values);
    cbn [negb andb orb]; trivial.
  destruct (invalid_evidence (evidence node)); cbn [negb andb orb]; trivial.
  now destruct (Qle_bool CONFIDENCE_THRESHOLD (confidence node)).
Qed.

Lemma validate_node_moved (layer : string)
    (st : dict (list Node) * list Node) (node : Node) :
  String.eqb layer "Layer1" && travel_fact node = true ->
  validate_node layer st node
  = (dict_append (fst st) "Layer4" node, snd st).
Proof.
  intros Hmove. destruct st as [vd vn]. unfold validate_node.
  unfold travel_fact in Hmove. now rewrite Hmove.
Qed.

Section ValidatorInvariant.

Variable Q : string -> Node -> Prop.
Variable layer : string.
Variable nodes : list Node.

(** What [Q] must say of the nodes of the layer being read. *)
Hypothesis kept_Q :
  forall n, In n nodes ->
            String.eqb layer "Layer1" && travel_fact n = false ->
            passes_checks n = true -> Q layer n.
Hypothesis moved_Q :
  forall n, In n nodes ->
            String.eqb layer "Layer1" && travel_fact n = true ->
            Q "Layer4" n.

Lemma validate_nodes_entries (l : list Node) :
  incl l nodes ->
  forall st,
    all_entries Q (fst st) -> Forall (Q layer) (snd st) ->
    all_entries Q (fst (fold_left (validate_node layer) l st)) /\
    Forall (Q layer) (snd (fold_left (validate_node layer) l st)).
Proof.
  induction l as [|n l IH]; intros Hl st H1 H2; cbn [fold_left];
    [now split|].
  assert (Hn : In n nodes) by (apply Hl; now left).
  apply IH; [intros x Hx; apply Hl; now right | |];
    destruct (String.eqb layer "Layer1" && travel_fact n) eqn:Hmove.
  - rewrite validate_node_moved by trivial. cbn [fst].
    apply all_entries_append; auto.
  - rewrite validate_node_not_moved by trivial. exact H1.
  - rewrite validate_node_moved by trivial. exact H2.
  - rewrite validate_node_not_moved by trivial. cbn [snd].
    destruct (passes_checks n) eqn:Hp; trivial.
    apply Forall_app. split; trivial. constructor; auto.
Qed.

Lemma validate_layer_entries (d : dict (list Node)) :
  all_entries Q d -> all_entries Q (validate_layer d (layer, nodes)).
Proof.
  intros Hd. unfold validate_layer.
  destruct (@validate_nodes_entries nodes (incl_refl _) (d, []) Hd
              (Forall_nil _)) as [H1 H2].
  destruct (fold_left (validate_node layer) nodes (d, [])) as [vd vn].
  cbn [fst snd] in *. destruct vn; trivial. now apply all_entries_set.
Qed.

End ValidatorInvariant.

Lemma validate_extractions_entries (Q : string -> Node -> Prop)
    (raw_data : dict (list Node)) :
  (forall layer nodes n,
      In (layer, nodes) raw_data -> In n nodes ->
      String.eqb layer "Layer1" && travel_fact n = false ->
      passes_checks n = true -> Q layer n) ->
  (forall layer nodes n,
      In (layer, nodes) raw_data -> In n nodes ->
      String.eqb layer "Layer1" && travel_fact n = true -> Q "Layer4" n) ->
  all_entries Q (_validate_extractions raw_data).
Proof.
  intros Hkept Hmoved. unfold _validate_extractions.
  assert (H : forall rest d,
             incl rest raw_data -> all_entries Q d ->
             all_entries Q (fold_left validate_layer rest d)).
  { induction rest as [|[layer nodes] rest IH]; intros d Hrest Hd;
      cbn [fold_left]; trivial.
    apply IH; [intros x Hx; apply Hrest; now right|].
    apply validate_layer_entries; trivial.
    - intros n Hn. apply (Hkept layer nodes); trivial. apply Hrest. now left.
    - intros n Hn. apply (Hmoved layer nodes); trivial. apply Hrest. now left. }
  apply H; [apply incl_refl | constructor].
Qed.

(** X8: every candidate in the Validator's output either passed the
    three checks (and, under [Layer1], is of no travel type), or is a
    travel candidate of the raw [Layer1], found under [Layer4]; the
    Validator makes up no candidate. *)
Theorem validate_extractions_output (raw_data : dict (list Node)) :
  forall layer nodes n,
    In (layer, nodes) (_validate_extractions raw_data) -> In n nodes ->
    (passes_checks n = true /\
     (layer = "Layer1" -> travel_fact n = false) /\
     exists nodes0, In (layer, nodes0) raw_data /\ In n nodes0)
    \/
    (layer = "Layer4" /\ travel_fact n = true /\
     exists nodes1, In ("Layer1", nodes1) raw_data /\ In n nodes1).
Proof.
  intros layer nodes n Hentry Hn.
  pose proof
    (@validate_extractions_entries
       (fun layer n =>
          (passes_checks n = true /\
           (layer = "Layer1" -> travel_fact n = false) /\
           exists nodes0, In (layer, nodes0) raw_data /\ In n nodes0)
          \/
          (layer = "Layer4" /\ travel_fact n = true /\
           exists nodes1, In ("Layer1", nodes1) raw_data /\ In n nodes1))
       raw_data) as H.
  unfold all_entries in H. rewrite Forall_forall in H.
  assert (Hall : Forall
            (fun n0 =>
               (passes_checks n0 = true /\
                (layer = "Layer1" -> travel_fact n0 = false) /\
                exists nodes0, In (layer, nodes0) raw_data /\ In n0 nodes0)
               \/
               (layer = "Layer4" /\ travel_fact n0 = true /\
                exists nodes1, In ("Layer1", nodes1) raw_data /\ In n0 nodes1))
            nodes).
  { apply (H ltac:(
      intros l0 ns0 n0 Hin0 Hn0 Hmove Hp; left; split; [exact Hp|];
      split; [intros ->; cbn in Hmove; exact Hmove | eauto])
      ltac:(
      intros l0 ns0 n0 Hin0 Hn0 Hmove; right;
      apply andb_true_iff in Hmove as [Hl Ht];
      apply String.eqb_eq in Hl; subst l0; eauto)
      (layer, nodes) Hentry). }
  rewrite Forall_forall in Hall. exact (Hall n Hn).
Qed.

Lemma validate_extractions_output_witness :
  In ("Layer3", [relation_fact "spouse" "Sarah" (9 # 10) "my wife Sarah"])
     (_validate_extractions raw_relations) /\
  ((passes_checks (relation_fact "spouse" "Sarah" (9 # 10) "my wife Sarah")
    = true /\
    ("Layer3" = "Layer1" ->
     travel_fact (relation_fact "spouse" "Sarah" (9 # 10) "my wife Sarah")
     = false) /\
    exists nodes0,
      In ("Layer3", nodes0) raw_relations /\
      In (relation_fact "spouse" "Sarah" (9 # 10) "my wife Sarah") nodes0)
   \/
   ("Layer3" = "Layer4" /\
    travel_fact (relation_fact "spouse" "Sarah" (9 # 10) "my wife Sarah")
    = true /\
    exists nodes1,
      In ("Layer1", nodes1) raw_relations /\
      In (relation_fact "spouse" "Sarah" (9 # 10) "my wife Sarah") nodes1)).
Proof.
  assert (Hentry :
            In ("Layer3",
                [relation_fact "spouse" "Sarah" (9 # 10) "my wife Sarah"])
               (_validate_extractions raw_relations))
    by (left; reflexivity).
  split; [exact Hentry|].
  exact (@validate_extractions_output raw_relations "Layer3" _ _
           Hentry (or_introl eq_refl)).
Defined.

Lemma nonempty_set (d : dict (list Node)) (k : string) (l : list Node) :
  Forall (fun entry => snd entry <> []) d -> l <> [] ->
  Forall (fun entry => snd entry <> []) (dict_set d k l).
Proof.
  intros Hd Hl. induction d as [|[k' v] r IH]; cbn [dict_set].
  - constructor; trivial.
  - inversion Hd; subst. destruct (String.eqb k' k); constructor; auto.
Qed.

Lemma nonempty_append (d : dict (list Node)) (k : string) (x : Node) :
  Forall (fun entry => snd entry <> []) d ->
  Forall (fun entry => snd entry <> []) (dict_append d k x).
Proof.
  intros Hd. unfold dict_append.
  destruct (dict_get d k); apply nonempty_set; trivial; try discriminate.
  intros H. apply app_eq_nil in H as [_ H]. discriminate.
Qed.

(** X9: no layer of the Validator's output is empty. *)
Theorem validate_extractions_no_empty_layer (raw_data : dict (list Node)) :
  Forall (fun entry => snd entry <> []) (_validate_extractions raw_data).
Proof.
  unfold _validate_extractions.
  assert (Hnodes : forall layer nodes (st : dict (list Node) * list Node),
            Forall (fun entry => snd entry <> []) (fst st) ->
            Forall (fun entry => snd entry <> [])
                   (fst (fold_left (validate_node layer) nodes st))).
  { induction nodes as [|n nodes IH]; intros st Hst; cbn [fold_left]; trivial.
    apply IH. destruct (String.eqb layer "Layer1" && travel_fact n) eqn:Hmove.
    - rewrite validate_node_moved by trivial. now apply nonempty_append.
    - now rewrite validate_node_not_moved by trivial. }
  assert (H : forall rest (d : dict (list Node)),
            Forall (fun entry => snd entry <> []) d ->
            Forall (fun entry => snd entry <> [])
                   (fold_left validate_layer rest d)).
  { induction rest as [|[layer nodes] rest IH]; intros d Hd; cbn [fold_left];
      trivial.
    apply IH. unfold validate_layer.
    pose proof (Hnodes layer nodes (d, []) Hd) as Hfold.
    destruct (fold_left (validate_node layer) nodes (d, [])) as [vd vn].
    cbn [fst] in Hfold. destruct vn; trivial.
    apply nonempty_set; trivial. discriminate. }
  apply H. constructor.
Qed.





(** X11: a travel candidate of the raw [Layer1] is found under [Layer4]
    of the output when no [Layer4] entry comes after [Layer1]. *)
Theorem validate_extractions_moves_travel
    (before after : dict (list Node)) (nodes : list Node) (n : Node) :
  In n nodes ->
  travel_fact n = true ->
  ~ In "Layer4" (map fst after) ->
  in_layer (_validate_extractions (before ++ ("Layer1", nodes) :: after))
           "Layer4" n.
Proof.
  intros Hn Ht Hafter. unfold _validate_extractions.
  rewrite fold_left_app. cbn [fold_left].
  apply validate_layers_keep; trivial.
  set (d := fold_left validate_layer before []).
  unfold validate_layer.
  assert (H : forall l st,
            In n l -> in_layer (fst (fold_left (validate_node "Layer1") l st))
                               "Layer4" n).
  { induction l as [|x l IH]; intros st Hin; [destruct Hin|].
    cbn [fold_left]. destruct Hin as [->|Hin]; [|now apply IH].
    apply validate_nodes_keep with (layer := "Layer4").
    rewrite validate_node_moved by (cbn; exact Ht). cbn [fst].
    unfold in_layer, dict_append.
    destruct (dict_get (fst st) "Layer4") as [l0|];
      rewrite dict_get_set_same; eexists; split; try reflexivity.
    - apply in_or_app. right. now left.
    - now left. }
  specialize (H nodes (d, []) Hn).
  destruct (fold_left (validate_node "Layer1") nodes (d, [])) as [vd vn].
  cbn [fst] in H. destruct vn; trivial.
  destruct H as (l0 & Hget & Hl0). exists l0. split; trivial.
  rewrite dict_get_set_other; trivial. discriminate.
Qed.

Lemma validate_extractions_moves_travel_witness :
  in_layer (_validate_extractions ([] ++ ("Layer1", [flight_fact (9 # 10)]) :: []))
           "Layer4" (flight_fact (9 # 10)).
Proof.
  apply (@validate_extractions_moves_travel [] [] [flight_fact (9 # 10)]
           (flight_fact (9 # 10))).
  - now left.
  - reflexivity.
  - intros [].
Defined.

(** A [Layer4] entry read after [Layer1] takes the place of what was
    moved there. *)
Example validate_extractions_overwrites_moved :
  _validate_extractions raw_flight_and_preference
  = [("Layer4",
      [mkNode (mkDetail "food_preference" "vegetarian") (9 # 10)
              [mkEvidence (Some "m4") (Some "I am vegetarian") None]])].
Proof. vm_compute. reflexivity. Qed.

(** ** The rule-based deduplication *)

(** Grouping the facts loses none and repeats none. *)
Lemma group_step_permutation (groups : dict (list Node)) (fact : Node) :
  Permutation (flat_map snd (group_step groups fact))
              (flat_map snd groups ++ [fact]).
Proof.
  unfold group_step, dict_append.
  destruct (dict_get groups (fact_type (detail fact))) as [l|] eqn:E.
  - destruct (dict_get_present _ _ E) as (d1 & d2 & -> & Hk).
    rewrite dict_set_present by trivial.
    rewrite !flat_map_app. cbn [flat_map snd].
    rewrite <- !app_assoc. do 2 apply Permutation_app_head.
    apply Permutation_app_comm.
  - apply dict_get_none in E. rewrite dict_set_absent by trivial.
    rewrite flat_map_app. cbn [flat_map snd]. now rewrite app_nil_r.
Qed.

Lemma group_by_type_permutation (facts : list Node) :
  Permutation (flat_map snd (group_by_type facts)) facts.
Proof.
  unfold group_by_type.
  change (fun groups fact => dict_append groups (fact_type (detail fact)) fact)
    with group_step.
  induction facts as [|f facts IH] using rev_ind; [constructor|].
  rewrite fold_left_app. cbn [fold_left].
  rewrite group_step_permutation. now apply Permutation_app_tail.
Qed.

Lemma list_remove_length (x : Node) (l : list Node) :
  In x l -> S (List.length (list_remove x l)) = List.length l.
Proof.
  induction l as [|y l IH]; [intros []|]. cbn [list_remove List.length].
  destruct (node_eqb y x) eqn:E; trivial.
  intros [->|Hin]; [now rewrite node_eqb_refl in E|].
  cbn [List.length]. now rewrite IH.
Qed.

Lemma greedy_step_length (test : Node -> Node -> bool) (replaces : bool)
    (deduped : list Node) (f : Node) :
  List.length (greedy_step test replaces deduped f) <= S (List.length deduped).
Proof.
  unfold greedy_step, replace_or_drop.
  destruct (find (test f) deduped) as [e|] eqn:E.
  - destruct replaces; [|lia].
    destruct (Qltb (confidence e) (confidence f)); [|lia].
    apply find_some in E as [Hin _].
    rewrite length_app. cbn [List.length].
    pose proof (list_remove_length e deduped Hin). lia.
  - rewrite length_app. cbn [List.length]. lia.
Qed.

Lemma greedy_fold_length (test : Node -> Node -> bool) (replaces : bool)
    (l acc : list Node) :
  List.length (fold_left (greedy_step test replaces) l acc)
  <= List.length acc + List.length l.
Proof.
  revert acc. induction l as [|f l IH]; intros acc; cbn [fold_left List.length];
    [lia|].
  specialize (IH (greedy_step test replaces acc f)).
  pose proof (greedy_step_length test replaces acc f). lia.
Qed.

Lemma dedup_group_length (ratio : string -> string -> Z) (k : string)
    (l : list Node) :
  List.length (dedup_group ratio (k, l)) <= List.length l.
Proof.
  unfold dedup_group.
  destruct (String.eqb k "phone_number").
  - unfold _deduplicate_phone_numbers.
    destruct l as [|x l]; [cbn; lia|].
    destruct (sorted_by_confidence (x :: l)); cbn [List.length]; lia.
  - destruct (str_in k ["address"; "email"]).
    + rewrite contact_step_greedy.
      apply (greedy_fold_length _ _ l []).
    + rewrite dedup_step_greedy. apply (greedy_fold_length _ _ l []).
Qed.

(** X12: the rule-based pass returns candidates of its input only, never
    more of them, and leaves no fact type of the input without a
    candidate. *)
Theorem deduplicate_facts_enhanced_keeps_types
    (ratio : string -> string -> Z) (facts : list Node) (layer : string) :
  incl (_deduplicate_facts_enhanced ratio facts layer) facts /\
  List.length (_deduplicate_facts_enhanced ratio facts layer)
  <= List.length facts /\
  (forall f, In f facts ->
             exists g, In g (_deduplicate_facts_enhanced ratio facts layer) /\
                       fact_type (detail g) = fact_type (detail f)).
Proof.
  unfold _deduplicate_facts_enhanced.
  destruct (group_by_type_well_grouped facts) as [[Hnd Hall] Hin].
  pose proof (group_by_type_permutation facts) as Hperm.
  set (G := group_by_type facts) in *.
  rewrite Forall_forall in Hall, Hin.
  split; [|split].
  - intros g Hg. apply in_flat_map in Hg as ([k l] & HG & Hg).
    apply (Hin _ HG). cbn [snd]. now apply (dedup_group_incl ratio k l).
  - rewrite <- (Permutation_length Hperm).
    clear. induction G as [|[k l] G IH]; cbn [flat_map snd]; [lia|].
    rewrite !length_app. pose proof (dedup_group_length ratio k l). lia.
  - intros f Hf.
    apply (Permutation_in f (Permutation_sym Hperm)) in Hf.
    apply in_flat_map in Hf as ([k l] & HG & Hf). cbn [snd] in Hf.
    destruct (Hall _ HG) as [Hne Hty]. cbn [fst snd] in *.
    destruct (dedup_group_incl ratio k l) as [Hsub Hnon].
    destruct (dedup_group ratio (k, l)) as [|g out] eqn:E;
      [now elim (Hnon Hne)|].
    exists g. split.
    + apply in_flat_map. exists (k, l). split; trivial. rewrite E. now left.
    + rewrite (Hty f Hf). apply Hty, Hsub. now left.
Qed.

Lemma filter_all_true {A} (p : A -> bool) (l : list A) :
  (forall x, In x l -> p x = true) -> filter p l = l.
Proof.
  induction l as [|a l IH]; intros H; cbn [filter]; trivial.
  rewrite (H a (or_introl eq_refl)), IH; trivial. intros; apply H; now right.
Qed.

Lemma filter_all_false {A} (p : A -> bool) (l : list A) :
  (forall x, In x l -> p x = false) -> filter p l = [].
Proof.
  induction l as [|a l IH]; intros H; cbn [filter]; trivial.
  rewrite (H a (or_introl eq_refl)), IH; trivial. intros; apply H; now right.
Qed.

Lemma in_dict_key {V} (d : dict V) (k : string) (v : V) :
  In (k, v) d -> In k (map fst d).
Proof. intros H. apply in_map_iff. now exists (k, v). Qed.

(** Every fact has its type among the groups. *)
Lemma group_by_type_covers (facts : list Node) (f : Node) :
  In f facts -> In (fact_type (detail f)) (map fst (group_by_type facts)).
Proof.
  intros Hf.
  destruct (group_by_type_well_grouped facts) as [[_ Hall] _].
  apply (Permutation_in f (Permutation_sym (group_by_type_permutation facts)))
    in Hf.
  apply in_flat_map in Hf as ([k l] & HG & Hf). cbn [snd] in Hf.
  rewrite Forall_forall in Hall. destruct (Hall _ HG) as [_ Hty].
  cbn [fst snd] in Hty. rewrite (Hty f Hf). eapply in_dict_key; eauto.
Qed.

Lemma group_by_type_snoc (facts : list Node) (x : Node) :
  group_by_type (facts ++ [x]) = group_step (group_by_type facts) x.
Proof. unfold group_by_type. now rewrite fold_left_app. Qed.

(** The group of a type holds the facts of that type, in their order. *)
Lemma group_by_type_filter (facts : list Node) :
  forall k l, In (k, l) (group_by_type facts) -> l = filter (has_type k) facts.
Proof.
  induction facts as [|x facts IH] using rev_ind; [intros k l []|].
  intros k l. pose proof (group_by_type_covers facts) as Hcov.
  destruct (group_by_type_well_grouped facts) as [[Hnd _] _].
  rewrite group_by_type_snoc.
  set (G := group_by_type facts) in *.
  rewrite filter_app. cbn [filter]. unfold group_step, dict_append.
  set (t := fact_type (detail x)).
  destruct (dict_get G t) as [l0|] eqn:E.
  - destruct (dict_get_present _ _ E) as (d1 & d2 & HG & Hk).
    rewrite HG in *. rewrite dict_set_present by trivial.
    rewrite map_app in Hnd. cbn [map fst] in Hnd.
    intros Hin. apply in_app_or in Hin as [Hin|[Hin|Hin]].
    + assert (Hne : has_type k x = false).
      { unfold has_type. fold t. apply String.eqb_neq. intros ->.
        apply Hk. eapply in_dict_key; eauto. }
      rewrite Hne, app_nil_r. apply IH, in_or_app. now left.
    + injection Hin as <- <-. unfold has_type at 2. fold t.
      rewrite String.eqb_refl. f_equal.
      apply IH, in_or_app. right. now left.
    + assert (Hne : has_type k x = false).
      { unfold has_type. fold t. apply String.eqb_neq. intros ->.
        apply NoDup_remove_2 in Hnd. apply Hnd, in_or_app. right.
        eapply in_dict_key; eauto. }
      rewrite Hne, app_nil_r. apply IH, in_or_app. right. now right.
  - apply dict_get_none in E. rewrite dict_set_absent by trivial.
    intros Hin. apply in_app_or in Hin as [Hin|[Hin|[]]].
    + assert (Hne : has_type k x = false).
      { unfold has_type. fold t. apply String.eqb_neq. intros ->.
        apply E. eapply in_dict_key; eauto. }
      rewrite Hne, app_nil_r. now apply IH.
    + injection Hin as <- <-. unfold has_type at 2. fold t.
      rewrite String.eqb_refl.
      rewrite filter_all_false; trivial.
      intros f Hf. unfold has_type. apply String.eqb_neq. intros Heq.
      apply E. rewrite <- Heq. now apply Hcov.
Qed.

Lemma dedup_group_nil (ratio : string -> string -> Z) (k : string) :
  dedup_group ratio (k, []) = [].
Proof.
  unfold dedup_group.
  destruct (String.eqb k "phone_number"); trivial.
  now destruct (str_in k ["address"; "email"]).
Qed.

Lemma filter_groups (ratio : string -> string -> Z) (t : string)
    (G : dict (list Node)) :
  well_grouped G ->
  filter (has_type t) (flat_map (dedup_group ratio) G)
  = match dict_get G t with
    | Some l => dedup_group ratio (t, l)
    | None => []
    end.
Proof.
  induction G as [|[k l] G IH]; intros [Hnd Hall]; [reflexivity|].
  cbn [flat_map dict_get]. rewrite filter_app.
  cbn [map fst] in Hnd. inversion Hnd as [|? ? Hk Hnd']; subst.
  inversion Hall as [|? ? [_ Hty] Hall']; subst. cbn [fst snd] in Hty.
  rewrite IH by (split; trivial).
  destruct (dedup_group_incl ratio k l) as [Hsub _].
  destruct (String.eqb_spec k t) as [->|Hne].
  - rewrite (dict_get_absent _ _ Hk), app_nil_r.
    apply filter_all_true. intros g Hg. unfold has_type.
    apply String.eqb_eq, Hty, Hsub, Hg.
  - rewrite filter_all_false; trivial.
    intros g Hg. unfold has_type. apply String.eqb_neq.
    now rewrite (Hty g (Hsub g Hg)).
Qed.

(** X13: the rule-based pass never lets candidates of different fact
    types meet: its candidates of one type are what that type's rule
    gives on the input's candidates of that type alone. *)
Theorem deduplicate_facts_enhanced_by_type
    (ratio : string -> string -> Z) (facts : list Node) (layer t : string) :
  filter (has_type t) (_deduplicate_facts_enhanced ratio facts layer)
  = dedup_group ratio (t, filter (has_type t) facts).
Proof.
  unfold _deduplicate_facts_enhanced.
  destruct (group_by_type_well_grouped facts) as [Hwg _].
  rewrite filter_groups by trivial.
  destruct (dict_get (group_by_type facts) t) as [l|] eqn:E.
  - destruct (dict_get_present _ _ E) as (d1 & d2 & HG & _).
    f_equal. f_equal. apply group_by_type_filter.
    rewrite HG. apply in_or_app. right. now left.
  - apply dict_get_none in E.
    rewrite filter_all_false; [now rewrite dedup_group_nil|].
    intros f Hf. unfold has_type. apply String.eqb_neq. intros Heq.
    apply E. rewrite <- Heq. now apply group_by_type_covers.
Qed.

(** One kept fact that every later fact is similar to: the loop keeps
    one fact, the first of greatest confidence so far. *)
Lemma deduplicate_facts_collapse_from (ratio : string -> string -> Z)
    (l : list Node) :
  forall pre cur post,
    (forall a b, In a (pre ++ cur :: post ++ l) ->
                 In b (pre ++ cur :: post ++ l) ->
                 similar_fact ratio a b = true) ->
    (forall x, In x pre -> (confidence x < confidence cur)%Q) ->
    (forall x, In x post -> (confidence x <= confidence cur)%Q) ->
    exists pre' best post',
      pre ++ cur :: post ++ l = pre' ++ best :: post' /\
      fold_left (dedup_step ratio) l [cur] = [best] /\
      (forall x, In x pre' -> (confidence x < confidence best)%Q) /\
      (forall x, In x post' -> (confidence x <= confidence best)%Q).
Proof.
  induction l as [|f l IH]; intros pre cur post Hsim Hpre Hpost.
  - exists pre, cur, post. rewrite app_nil_r. repeat split; trivial.
  - cbn [fold_left]. unfold dedup_step at 2. cbn [find].
    assert (Hf : similar_fact ratio f cur = true).
    { apply Hsim; apply in_or_app; right.
      - right. apply in_or_app. right. now left.
      - now left. }
    rewrite Hf. unfold replace_or_drop. cbn [list_remove].
    rewrite node_eqb_refl. cbn [app].
    destruct (Qltb (confidence cur) (confidence f)) eqn:E.
    + apply Qltb_lt in E.
      destruct (IH (pre ++ cur :: post) f []) as (pre' & best & post' & H).
      * cbn [app]. rewrite <- app_assoc. cbn [app]. exact Hsim.
      * intros x Hx. apply in_app_or in Hx as [Hx|[<-|Hx]]; trivial.
        -- eapply Qlt_trans; [apply Hpre, Hx | exact E].
        -- eapply Qle_lt_trans; [apply Hpost, Hx | exact E].
      * intros x [].
      * exists pre', best, post'. cbn [app] in H.
        rewrite <- app_assoc in H. exact H.
    + apply Qltb_ge in E.
      destruct (IH pre cur (post ++ [f])) as (pre' & best & post' & H).
      * rewrite <- app_assoc. exact Hsim.
      * exact Hpre.
      * intros x Hx. apply in_app_or in Hx as [Hx|[<-|[]]]; auto.
      * exists pre', best, post'. rewrite <- app_assoc in H. exact H.
Qed.

(** X14: when every two candidates of a list are similar (same type,
    ratio above 85), [_deduplicate_facts] keeps exactly one of them: the
    first of greatest confidence. *)
Theorem deduplicate_facts_collapse (ratio : string -> string -> Z)
    (facts : list Node) :
  facts <> [] ->
  (forall a b, In a facts -> In b facts -> similar_fact ratio a b = true) ->
  exists pre best post,
    facts = pre ++ best :: post /\
    _deduplicate_facts ratio facts = [best] /\
    (forall x, In x pre -> (confidence x < confidence best)%Q) /\
    (forall x, In x post -> (confidence x <= confidence best)%Q).
Proof.
  intros Hne Hsim. destruct facts as [|x l]; [congruence|].
  unfold _deduplicate_facts. cbn [fold_left].
  change (dedup_step ratio [] x) with [x].
  apply (@deduplicate_facts_collapse_from ratio l [] x []); trivial;
    intros y [].
Qed.

Lemma deduplicate_facts_collapse_witness :
  exists pre best post,
    [name_fact "Asha Rao" (8 # 10); name_fact "asha rao" (9 # 10);
     name_fact "Asha  Rao" (9 # 10)] = pre ++ best :: post /\
    _deduplicate_facts fuzz_ratio
      [name_fact "Asha Rao" (8 # 10); name_fact "asha rao" (9 # 10);
       name_fact "Asha  Rao" (9 # 10)] = [best] /\
    (forall x, In x pre -> (confidence x < confidence best)%Q) /\
    (forall x, In x post -> (confidence x <= confidence best)%Q).
Proof.
  apply deduplicate_facts_collapse; [discriminate|].
  intros a b [<-|[<-|[<-|[]]]] [<-|[<-|[<-|[]]]]; vm_compute; reflexivity.
Defined.

(** X15: when the similarity test is symmetric and transitive among the
    candidates, no two candidates kept by [_deduplicate_facts] are
    similar. *)
Theorem deduplicate_facts_duplicate_free (ratio : string -> string -> Z)
    (facts : list Node) :
  (forall a b, In a facts -> In b facts ->
               similar_fact ratio a b = true -> similar_fact ratio b a = true) ->
  (forall a b c, In a facts -> In b facts -> In c facts ->
                 similar_fact ratio a b = true ->
                 similar_fact ratio b c = true ->
                 similar_fact ratio a c = true) ->
  duplicate_free (similar_fact ratio) (_deduplicate_facts ratio facts).
Proof.
  intros Hsym Htrans. rewrite dedup_step_greedy.
  apply (@greedy_fold_duplicate_free (similar_fact ratio) true facts);
    trivial.
  - intros f e1 e2. apply similar_fact_eqb.
  - apply incl_refl.
  - intros x [].
  - exact I.
Qed.

Lemma deduplicate_facts_duplicate_free_witness :
  duplicate_free (similar_fact fuzz_ratio)
                 (_deduplicate_facts fuzz_ratio repeated_facts).
Proof.
  apply deduplicate_facts_duplicate_free.
  - intros a b [<-|[<-|[<-|[]]]] [<-|[<-|[<-|[]]]]; vm_compute; trivial.
  - intros a b c [<-|[<-|[<-|[]]]] [<-|[<-|[<-|[]]]] [<-|[<-|[<-|[]]]];
      vm_compute; trivial.
Defined.







(** The first address stays although the second is more confident. *)
Example deduplicate_emails_keeps_first :
  _deduplicate_contact_info fuzz_ratio
    [mkNode (mkDetail "email" "Asha@Example.com") (8 # 10) [];
     mkNode (mkDetail "email" "asha@example.com ") (95 # 100) []]
    "email"
  = [mkNode (mkDetail "email" "Asha@Example.com") (8 # 10) []].
Proof. vm_compute. reflexivity. Qed.

(** X17: on a dict of layers (distinct keys) the fallback runs the
    rule-based pass on each layer and keeps the layers, empty ones too,
    in their order. *)
Theorem apply_fallback_deduplication_layers (ratio : string -> string -> Z)
    (extracted_data : dict (list Node)) :
  NoDup (map fst extracted_data) ->
  _apply_fallback_deduplication ratio extracted_data
  = map (fun entry =>
           (fst entry,
            _deduplicate_facts_enhanced ratio (snd entry) (fst entry)))
        extracted_data.
Proof.
  intros Hnd. unfold _apply_fallback_deduplication.
  assert (H : forall rest (acc : dict (list Node)),
            NoDup (map fst acc ++ map fst rest) ->
            fold_left
              (fun result entry =>
                 let '(layer, nodes) := entry in
                 dict_set result layer
                          (_deduplicate_facts_enhanced ratio nodes layer))
              rest acc
            = acc ++ map (fun entry =>
                            (fst entry,
                             _deduplicate_facts_enhanced ratio (snd entry)
                                                         (fst entry)))
                         rest).
  { induction rest as [|[layer nodes] rest IH]; intros acc Hk;
      cbn [fold_left map fst snd].
    - now rewrite app_nil_r.
    - cbn [map fst] in Hk.
      rewrite dict_set_absent.
      + rewrite IH; [now rewrite <- app_assoc|].
        rewrite map_app. cbn [map fst]. now rewrite <- app_assoc.
      + apply NoDup_remove_2 in Hk. intros Hin. apply Hk, in_or_app.
        now left. }
  apply (H extracted_data []). exact Hnd.
Qed.

Lemma apply_fallback_deduplication_layers_witness :
  _apply_fallback_deduplication fuzz_ratio
    [("Layer1", phone_facts_3); ("Layer2", [])]
  = map (fun entry =>
           (fst entry,
            _deduplicate_facts_enhanced fuzz_ratio (snd entry) (fst entry)))
        [("Layer1", phone_facts_3); ("Layer2", [])].
Proof.
  apply apply_fallback_deduplication_layers.
  repeat constructor; cbn; intuition discriminate.
Defined.

(** ** The Merger *)

(** X18: the Merger always returns the four layers, in order; a layer
    holds candidates of the chunks' lists for that layer only, at least
    one when they have any; what a chunk result has under another key is
    ignored. *)
Theorem merge_extracted_data_from_chunks (ratio : string -> string -> Z)
    (all_extracted : list (dict (list Node))) :
  map fst (merge_extracted_data ratio all_extracted) = LAYERS /\
  (forall layer nodes,
      In (layer, nodes) (merge_extracted_data ratio all_extracted) ->
      incl nodes (concatenated_layer all_extracted layer) /\
      (concatenated_layer all_extracted layer <> [] -> nodes <> [])).
Proof.
  unfold merge_extracted_data, LAYERS. cbn [map].
  rewrite fold_extend_layers. cbn [map fst snd app]. split; [reflexivity|].
  intros layer nodes Hin.
  assert (H : nodes = _deduplicate_facts ratio
                        (concatenated_layer all_extracted layer)).
  { destruct Hin as [E|[E|[E|[E|[]]]]]; now injection E as <- <-. }
  rewrite H, dedup_step_greedy. split.
  - apply (@greedy_fold_incl _ _ _ []).
  - intros Hne. now apply greedy_fold_nonempty.
Qed.

(** ** The model-based deduplication *)

Lemma from_to_llm_fact (n : Node) :
  from_llm_fact (to_llm_fact n) = Some (prompt_node n).
Proof.
  unfold from_llm_fact, to_llm_fact, prompt_node. cbn.
  destruct n as [[t v] c evs]. cbn. do 2 f_equal.
  rewrite map_map. apply map_ext. intros [i s1 s2]. reflexivity.
Qed.

Lemma from_to_llm_facts (nodes : list Node) :
  from_llm_facts (map to_llm_fact nodes) = map prompt_node nodes.
Proof.
  unfold from_llm_facts. induction nodes as [|n nodes IH]; [reflexivity|].
  cbn [map flat_map]. now rewrite from_to_llm_fact, IH.
Qed.

Lemma count_facts_prompt (d : dict (list Node)) :
  count_facts (prompt_facts d) = count_facts d.
Proof.
  unfold count_facts, prompt_facts. rewrite map_map. f_equal.
  apply map_ext. intros [k l]. cbn [fst snd]. apply length_map.
Qed.

Lemma no_missing_layers (keys : list string) :
  filter (fun layer => negb (str_in layer keys)) keys = [].
Proof.
  apply filter_all_false. intros k Hk. apply negb_false_iff.
  now apply str_in_In.
Qed.

Lemma fold_dict_set_fresh {A B} (g : list A -> list B)
    (rest : dict (list A)) :
  forall acc : dict (list B),
    NoDup (map fst acc ++ map fst rest) ->
    fold_left (fun result entry => dict_set result (fst entry) (g (snd entry)))
              rest acc
    = acc ++ map (fun entry => (fst entry, g (snd entry))) rest.
Proof.
  induction rest as [|[k l] rest IH]; intros acc Hk; cbn [fold_left map fst snd].
  - now rewrite app_nil_r.
  - cbn [map fst] in Hk. rewrite dict_set_absent.
    + rewrite IH; [now rewrite <- app_assoc|].
      rewrite map_app. cbn [map fst]. now rewrite <- app_assoc.
    + apply NoDup_remove_2 in Hk. intros Hin. apply Hk, in_or_app. now left.
Qed.

(** The reply is accepted when it is not empty, has every layer shown,
    and has a fact unless none was shown. *)
Lemma deduplicate_with_llm_accepts (ratio : string -> string -> Z)
    (o : Oracle) (w : World) (extracted_data : dict (list Node))
    (user_id : string) :
  extracted_data <> [] ->
  let reply := llm_dedup o (history w) user_id (prompt_facts extracted_data) in
  reply <> [] ->
  filter (fun layer => negb (str_in layer (map fst reply)))
         (map fst extracted_data) = [] ->
  (count_facts reply =? 0)%nat && (0 <? count_facts extracted_data)%nat
  = false ->
  snd (deduplicate_with_llm ratio o w extracted_data user_id)
  = fold_left (fun result entry =>
                 dict_set result (fst entry) (from_llm_facts (snd entry)))
              reply [].
Proof.
  cbv zeta. intros Hne Hreply Hmissing Hcount. unfold deduplicate_with_llm.
  destruct extracted_data as [|e rest] eqn:E; [congruence|].
  rewrite <- E in *. cbv zeta. fold (prompt_facts extracted_data).
  rewrite Hmissing, Hcount.
  destruct (llm_dedup o (history w) user_id (prompt_facts extracted_data));
    [congruence | reflexivity].
Qed.

(** X19: when the model returns the facts it was shown, the
    model-based pass gives every candidate back with its type, value
    and confidence, layer by layer; only the evidence entries change
    shape (the snippet moves to the key [snippet], a missing id becomes
    [unknown]). *)
Theorem deduplicate_with_llm_echo (ratio : string -> string -> Z)
    (o : Oracle) (w : World) (extracted_data : dict (list Node))
    (user_id : string) :
  NoDup (map fst extracted_data) ->
  llm_dedup o (history w) user_id (prompt_facts extracted_data)
  = prompt_facts extracted_data ->
  snd (deduplicate_with_llm ratio o w extracted_data user_id)
  = map (fun entry => (fst entry, map prompt_node (snd entry))) extracted_data.
Proof.
  intros Hnd Hecho.
  destruct extracted_data as [|e rest] eqn:E; [reflexivity|].
  rewrite <- E in *.
  assert (Hkeys : map fst (prompt_facts extracted_data) = map fst extracted_data).
  { unfold prompt_facts. rewrite map_map. reflexivity. }
  rewrite deduplicate_with_llm_accepts; rewrite ?Hecho.
  - rewrite (@fold_dict_set_fresh LFact Node from_llm_facts
               (prompt_facts extracted_data) [])
      by (cbn [map app]; now rewrite Hkeys).
    cbn [app]. unfold prompt_facts. rewrite map_map. apply map_ext.
    intros [k l]. cbn [fst snd]. now rewrite from_to_llm_facts.
  - rewrite E. discriminate.
  - rewrite E. discriminate.
  - rewrite Hkeys. apply no_missing_layers.
  - rewrite count_facts_prompt.
    destruct (count_facts extracted_data); reflexivity.
Qed.

Lemma deduplicate_with_llm_echo_witness :
  snd (deduplicate_with_llm fuzz_ratio
         (mkOracle (fun _ _ _ => None) (fun _ _ facts => facts)
                   (fun _ _ => None) (fun _ => true))
         (mkWorld true [] [] []) [("Layer1", phone_facts_3)] "asha")
  = map (fun entry => (fst entry, map prompt_node (snd entry)))
        [("Layer1", phone_facts_3)].
Proof.
  apply deduplicate_with_llm_echo.
  - repeat constructor. intros [].
  - reflexivity.
Defined.

Lemma dict_get_set_some {V} (d : dict V) (k k' : string) (v : V) :
  k' = k \/ dict_get d k' <> None ->
  dict_get (dict_set d k v) k' <> None.
Proof.
  intros H. destruct (String.eqb_spec k' k) as [->|Hne].
  - rewrite dict_get_set_same. discriminate.
  - rewrite dict_get_set_other by trivial. destruct H; congruence.
Qed.

Lemma fold_dict_set_has {A B} (step : dict B -> string * A -> dict B)
    (g : string * A -> B) (entries : list (string * A)) :
  (forall r e, step r e = dict_set r (fst e) (g e)) ->
  forall acc k,
    In k (map fst entries) \/ dict_get acc k <> None ->
    dict_get (fold_left step entries acc) k <> None.
Proof.
  intros Hstep. induction entries as [|e entries IH]; intros acc k H;
    cbn [fold_left].
  - destruct H as [[]|H]; exact H.
  - apply IH. rewrite Hstep. cbn [map] in H.
    destruct H as [[H|H]|H].
    + right. apply dict_get_set_some. now left.
    + now left.
    + right. apply dict_get_set_some. now right.
Qed.

Lemma filter_nil_all {A} (p : A -> bool) (l : list A) :
  filter p l = [] -> forall x, In x l -> p x = false.
Proof.
  induction l as [|a l IH]; cbn [filter]; [intros _ x []|].
  destruct (p a) eqn:E; [discriminate|].
  intros H x [<-|Hx]; auto.
Qed.

(** X20: the model-based pass asks the model once when there is a layer
    to deduplicate and not at all otherwise, leaves the store as it is,
    and returns every layer it was given, whether the reply is accepted
    or the rule-based pass takes over. *)
Theorem deduplicate_with_llm_layers (ratio : string -> string -> Z)
    (o : Oracle) (w : World) (extracted_data : dict (list Node))
    (user_id : string) :
  let (w', result) := deduplicate_with_llm ratio o w extracted_data user_id in
  history w'
  = history w
    ++ match extracted_data with
       | [] => []
       | _ :: _ => [LLMDedup user_id (prompt_facts extracted_data)]
       end
  /\ memory_nodes w' = memory_nodes w
  /\ processed_files w' = processed_files w
  /\ (forall layer, In layer (map fst extracted_data) ->
                    dict_get result layer <> None).
Proof.
  unfold deduplicate_with_llm.
  destruct extracted_data as [|e rest] eqn:E.
  { rewrite app_nil_r. repeat split; trivial. intros layer []. }
  rewrite <- E in *. cbv zeta. fold (prompt_facts extracted_data).
  assert (Hfallback : forall layer,
            In layer (map fst extracted_data) ->
            dict_get (_apply_fallback_deduplication ratio extracted_data) layer
            <> None).
  { intros layer Hin. unfold _apply_fallback_deduplication.
    apply (@fold_dict_set_has _ _ _
             (fun e => _deduplicate_facts_enhanced ratio (snd e) (fst e))).
    - now intros r [k l].
    - now left. }
  destruct (llm_dedup o (history w) user_id (prompt_facts extracted_data))
    as [|p reply] eqn:Hreply; [now repeat split|].
  destruct (filter _ (map fst extracted_data)) eqn:Hmissing;
    [|now repeat split].
  destruct (_ && _); [now repeat split|].
  repeat split. intros layer Hin.
  apply (@fold_dict_set_has _ _ _ (fun e => from_llm_facts (snd e))).
  - reflexivity.
  - left. pose proof (filter_nil_all _ _ Hmissing layer Hin) as H.
    apply negb_false_iff in H. now apply str_in_In.
Qed.

(** ** The Persistence Adapter *)

Lemma store_memory_node_row (o : Oracle) (w : World) (user_id : string)
    (number : Z) (n : Node) :
  let (w', node_id) :=
    store_memory_node o w user_id number (fact_type (detail n))
                      (fact_value (detail n))
                      (_format_concluded_fact user_id (fact_type (detail n))
                                              (fact_value (detail n)))
                      (confidence n) (evidence n) "initial" None in
  connected w' = connected w /\
  processed_files w' = processed_files w /\
  (memory_nodes w' = memory_nodes w \/
   memory_nodes w' = memory_nodes w ++ [row_of user_id number n]).
Proof.
  unfold store_memory_node. fold (row_of user_id number n).
  destruct (negb (is_connected w)); [now repeat split; left|].
  destruct (db_insert o (history w) (row_of user_id number n)); cbn;
    repeat split; auto.
Qed.

Section StoreRows.

Variable o : Oracle.
Variable user_id : string.
Variable extracted_nodes : dict (list Node).

Lemma rows_added_refl (w : World) : rows_added user_id extracted_nodes w w.
Proof.
  repeat split. exists []. now rewrite app_nil_r.
Qed.

Lemma rows_added_trans (w1 w2 w3 : World) :
  rows_added user_id extracted_nodes w1 w2 -> rows_added user_id extracted_nodes w2 w3 -> rows_added user_id extracted_nodes w1 w3.
Proof.
  intros (C1 & P1 & r1 & M1 & F1) (C2 & P2 & r2 & M2 & F2).
  split; [congruence|]. split; [congruence|].
  exists (r1 ++ r2). split.
  - now rewrite M2, M1, app_assoc.
  - apply Forall_app. now split.
Qed.

Lemma store_node_rows (layer : string) (nodes : list Node) (number : Z)
    (st : StoreState) (n : Node) :
  In (layer, nodes) extracted_nodes -> In n nodes ->
  layer_number layer = Ok number ->
  rows_added user_id extracted_nodes (st_world st) (st_world (store_node o user_id layer number st n)).
Proof.
  intros Hentry Hn Hnum. unfold store_node.
  destruct (Qltb (confidence n) CONFIDENCE_THRESHOLD) eqn:Hconf;
    [apply rows_added_refl|].
  pose proof (store_memory_node_row o (st_world st) user_id number n) as H.
  destruct (store_memory_node o (st_world st) user_id number
              (fact_type (detail n)) (fact_value (detail n))
              (_format_concluded_fact user_id (fact_type (detail n))
                                      (fact_value (detail n)))
              (confidence n) (evidence n) "initial" None) as [w' node_id].
  destruct H as (C & P & M).
  assert (Hadded : rows_added user_id extracted_nodes (st_world st) w').
  { split; trivial. split; trivial. destruct M as [M|M].
    - exists []. rewrite app_nil_r. now split.
    - exists [row_of user_id number n]. split; trivial.
      constructor; [|constructor].
      exists layer, nodes, n, number. repeat split; trivial.
      unfold Qltb in Hconf. now apply negb_false_iff in Hconf. }
  now destruct (truthy_id node_id).
Qed.

Lemma store_nodes_rows (layer : string) (nodes : list Node) (number : Z) :
  In (layer, nodes) extracted_nodes ->
  layer_number layer = Ok number ->
  forall l st,
    incl l nodes ->
    rows_added user_id extracted_nodes (st_world st)
               (st_world (fold_left (store_node o user_id layer number) l st)).
Proof.
  intros Hentry Hnum. induction l as [|n l IH]; intros st Hl; cbn [fold_left].
  - apply rows_added_refl.
  - eapply rows_added_trans.
    + apply (@store_node_rows layer nodes number st n); trivial.
      apply Hl. now left.
    + apply IH. intros x Hx. apply Hl. now right.
Qed.

Lemma store_layers_rows (entries : dict (list Node)) :
  incl entries extracted_nodes ->
  forall st,
    rows_added user_id extracted_nodes (st_world st) (st_world (fst (store_layers o user_id entries st))).
Proof.
  induction entries as [|[layer nodes] entries IH]; intros Hentries st;
    cbn [store_layers].
  - apply rows_added_refl.
  - destruct (layer_number layer) as [number|e] eqn:Hnum;
      [|apply rows_added_refl].
    eapply rows_added_trans; [|apply IH; intros x Hx; apply Hentries; now right].
    apply (@store_nodes_rows layer nodes number
             (Hentries _ (or_introl eq_refl)) Hnum nodes
             (mkStoreState (st_world st) (st_stored st) (st_duplicate st)
                           (st_rejected st) (dict_set (st_newly st) layer []))).
    apply incl_refl.
Qed.

End StoreRows.

Lemma store_in_db_rows_added (o : Oracle) (self : Extractor) (w : World)
    (extracted_nodes : dict (list Node)) (user_id : string) :
  rows_added user_id extracted_nodes w
             (fst (store_in_db o self w extracted_nodes user_id)).
Proof.
  unfold store_in_db.
  destruct (negb (db_enabled self)); [apply rows_added_refl|].
  pose proof (@store_layers_rows o user_id extracted_nodes extracted_nodes
                (incl_refl _) (mkStoreState w 0 0 0 [])) as H.
  destruct (store_layers o user_id extracted_nodes (mkStoreState w 0 0 0 []))
    as [st [e|]]; cbn [fst snd st_world] in *; trivial.
  unfold get_user_summary.
  destruct (negb (is_connected (st_world st))); trivial.
Qed.

(** X21: whatever the store answers, [store_in_db] only adds rows to
    [memory_nodes]: each is the row of a candidate it was given, under
    the number of its layer, for this user, pending, of method
    [initial], and of a confidence of at least 0.75; the markers are
    left alone. *)
Theorem store_in_db_rows (o : Oracle) (self : Extractor) (w : World)
    (extracted_nodes : dict (list Node)) (user_id : string) :
  rows_added user_id extracted_nodes w
             (fst (store_in_db o self w extracted_nodes user_id)).
Proof.
  unfold store_in_db.
  destruct (negb (db_enabled self)); [apply rows_added_refl|].
  pose proof (@store_layers_rows o user_id extracted_nodes extracted_nodes
                (incl_refl _) (mkStoreState w 0 0 0 [])) as H.
  destruct (store_layers o user_id extracted_nodes (mkStoreState w 0 0 0 []))
    as [st [e|]]; cbn [fst snd st_world] in *; trivial.
  unfold get_user_summary.
  destruct (negb (is_connected (st_world st))); trivial.
Qed.

Lemma count_facts_app {A} (d1 d2 : dict (list A)) :
  count_facts (d1 ++ d2) = count_facts d1 + count_facts d2.
Proof. unfold count_facts. now rewrite map_app, list_sum_app. Qed.

Lemma count_facts_cons {A} (k : string) (l : list A) (d : dict (list A)) :
  count_facts ((k, l) :: d) = List.length l + count_facts d.
Proof. reflexivity. Qed.

Lemma count_facts_append {A} (d : dict (list A)) (k : string) (x : A) :
  count_facts (dict_append d k x) = S (count_facts d).
Proof.
  unfold dict_append. destruct (dict_get d k) as [l|] eqn:E.
  - destruct (dict_get_present _ _ E) as (d1 & d2 & -> & Hk).
    rewrite dict_set_present by trivial.
    rewrite !count_facts_app, !count_facts_cons, length_app.
    cbn [List.length]. lia.
  - apply dict_get_none in E. rewrite dict_set_absent by trivial.
    rewrite count_facts_app, count_facts_cons. cbn. lia.
Qed.

Lemma dict_append_keys {A} (d : dict (list A)) (k : string) (x : A) :
  In k (map fst d) -> map fst (dict_append d k x) = map fst d.
Proof.
  intros Hk. unfold dict_append. destruct (dict_get d k) as [l|] eqn:E.
  - destruct (dict_get_present _ _ E) as (d1 & d2 & -> & Hk1).
    rewrite dict_set_present by trivial. now rewrite !map_app.
  - apply dict_get_none in E. contradiction.
Qed.

Lemma count_facts_nonempty_layers (d : dict (list Node)) :
  count_facts (nonempty_layers d) = count_facts d.
Proof.
  unfold nonempty_layers.
  induction d as [|[k l] d IH]; [reflexivity|].
  cbn [filter snd]. destruct l; rewrite ?count_facts_cons, IH; reflexivity.
Qed.

Section StoreCounts.

Variable o : Oracle.
Variable user_id : string.
Variable extracted_nodes : dict (list Node).

Lemma store_node_counted (layer : string) (nodes : list Node) (number : Z)
    (st : StoreState) (n : Node) (total : nat) :
  In (layer, nodes) extracted_nodes -> In n nodes ->
  In layer (map fst (st_newly st)) ->
  st_stored st + st_duplicate st + st_rejected st = total ->
  count_facts (st_newly st) = st_stored st ->
  all_entries (confident_candidate extracted_nodes) (st_newly st) ->
  let st' := store_node o user_id layer number st n in
  st_stored st' + st_duplicate st' + st_rejected st' = S total /\
  count_facts (st_newly st') = st_stored st' /\
  map fst (st_newly st') = map fst (st_newly st) /\
  all_entries (confident_candidate extracted_nodes) (st_newly st').
Proof.
  intros Hentry Hn Hkey Htotal Hcount Hall. cbv zeta. unfold store_node.
  destruct (Qltb (confidence n) CONFIDENCE_THRESHOLD) eqn:Hconf.
  - cbn [st_stored st_duplicate st_rejected st_newly].
    repeat split; trivial. lia.
  - destruct (store_memory_node o (st_world st) user_id number
                (fact_type (detail n)) (fact_value (detail n))
                (_format_concluded_fact user_id (fact_type (detail n))
                                        (fact_value (detail n)))
                (confidence n) (evidence n) "initial" None) as [w' node_id].
    destruct (truthy_id node_id);
      cbn [st_stored st_duplicate st_rejected st_newly].
    + repeat split.
      * lia.
      * rewrite count_facts_append. lia.
      * now apply dict_append_keys.
      * apply all_entries_append; trivial. split.
        -- unfold Qltb in Hconf. now apply negb_false_iff in Hconf.
        -- now exists nodes.
    + repeat split; trivial. lia.
Qed.

Lemma store_nodes_counted (layer : string) (nodes : list Node) (number : Z) :
  In (layer, nodes) extracted_nodes ->
  forall l st total,
    incl l nodes ->
    In layer (map fst (st_newly st)) ->
    st_stored st + st_duplicate st + st_rejected st = total ->
    count_facts (st_newly st) = st_stored st ->
    all_entries (confident_candidate extracted_nodes) (st_newly st) ->
    let st' := fold_left (store_node o user_id layer number) l st in
    st_stored st' + st_duplicate st' + st_rejected st'
    = total + List.length l /\
    count_facts (st_newly st') = st_stored st' /\
    map fst (st_newly st') = map fst (st_newly st) /\
    all_entries (confident_candidate extracted_nodes) (st_newly st').
Proof.
  intros Hentry. induction l as [|n l IH];
    intros st total Hl Hkey Htotal Hcount Hall; cbv zeta; cbn [fold_left].
  - cbn [List.length]. repeat split; trivial. lia.
  - destruct (@store_node_counted layer nodes number st n total Hentry
                (Hl n (or_introl eq_refl)) Hkey Htotal Hcount Hall)
      as (T & C & K & A).
    destruct (IH (store_node o user_id layer number st n) (S total))
      as (T' & C' & K' & A'); trivial.
    + intros x Hx. apply Hl. now right.
    + now rewrite K.
    + cbv zeta in *. repeat split; trivial.
      * cbn [List.length]. lia.
      * now rewrite K'.
Qed.

Lemma store_layers_counted (entries : dict (list Node)) :
  forall done st,
    incl entries extracted_nodes ->
    NoDup (map fst done ++ map fst entries) ->
    (forall layer, In layer (map fst entries) ->
                   exists number, layer_number layer = Ok number) ->
    counted extracted_nodes done st ->
    snd (store_layers o user_id entries st) = None /\
    counted extracted_nodes (done ++ entries) (fst (store_layers o user_id entries st)).
Proof.
  induction entries as [|[layer nodes] entries IH];
    intros done st Hentries Hnd Hparse (T & C & K & A); cbn [store_layers].
  - rewrite app_nil_r. repeat split; trivial.
  - destruct (Hparse layer (or_introl eq_refl)) as [number Hnum].
    rewrite Hnum. cbn [map fst] in Hnd.
    assert (Hfresh : ~ In layer (map fst (st_newly st))).
    { rewrite K. apply NoDup_remove_2 in Hnd. intros Hin.
      apply Hnd, in_or_app. now left. }
    set (st0 := mkStoreState (st_world st) (st_stored st) (st_duplicate st)
                             (st_rejected st)
                             (dict_set (st_newly st) layer [])).
    assert (Hnewly : st_newly st0 = st_newly st ++ [(layer, [])]).
    { unfold st0. cbn. now apply dict_set_absent. }
    destruct (@store_nodes_counted layer nodes number
                (Hentries _ (or_introl eq_refl)) nodes st0
                (count_facts done) (incl_refl _))
      as (T' & C' & K' & A').
    + rewrite Hnewly, map_app. apply in_or_app. right. now left.
    + exact T.
    + rewrite Hnewly, count_facts_app. unfold count_facts at 2. cbn.
      cbn in C. lia.
    + rewrite Hnewly. unfold all_entries. apply Forall_app. split; trivial.
      constructor; [constructor | constructor].
    + cbv zeta in *.
      replace (done ++ (layer, nodes) :: entries)
        with ((done ++ [(layer, nodes)]) ++ entries)
        by now rewrite <- app_assoc.
      apply IH.
      * intros x Hx. apply Hentries. now right.
      * rewrite map_app. cbn [map fst]. now rewrite <- app_assoc.
      * intros l Hl. apply Hparse. now right.
      * repeat split; trivial.
        -- rewrite T', count_facts_app. unfold count_facts at 3. cbn. lia.
        -- rewrite K', Hnewly, !map_app, K. reflexivity.
Qed.

End StoreCounts.

(** X22: with the store enabled, distinct layer keys and every key a
    layer number, the three counters of [store_in_db] add up to the
    number of candidates given, the candidates reported as newly stored
    are as many as the stored count, and each of them is a candidate of
    that layer of the input with a confidence of at least 0.75. *)
Theorem store_in_db_stats (o : Oracle) (self : Extractor) (w : World)
    (extracted_nodes : dict (list Node)) (user_id : string) :
  db_enabled self = true ->
  NoDup (map fst extracted_nodes) ->
  (forall layer, In layer (map fst extracted_nodes) ->
                 exists number, layer_number layer = Ok number) ->
  let r := snd (store_in_db o self w extracted_nodes user_id) in
  stored (stats r) + duplicate (stats r) + low_confidence_rejected (stats r)
  = count_facts extracted_nodes /\
  count_facts (newly_stored_nodes r) = stored (stats r) /\
  all_entries (confident_candidate extracted_nodes) (newly_stored_nodes r).
Proof.
  intros Hdb Hnd Hparse. cbv zeta. unfold store_in_db. rewrite Hdb.
  cbn [negb].
  destruct (@store_layers_counted o user_id extracted_nodes extracted_nodes
              [] (mkStoreState w 0 0 0 []) (incl_refl _) Hnd Hparse)
    as [Hnone (T & C & K & A)].
  { repeat split; constructor. }
  destruct (store_layers o user_id extracted_nodes (mkStoreState w 0 0 0 []))
    as [st exn]. cbn [fst snd] in *. subst exn.
  cbn [snd newly_stored_nodes stats stored duplicate low_confidence_rejected].
  repeat split; trivial.
  - now rewrite count_facts_nonempty_layers.
  - unfold all_entries, nonempty_layers in *. rewrite Forall_forall in *.
    intros e He. apply filter_In in He as [He _]. now apply A.
Qed.

Lemma store_in_db_stats_witness :
  let r := snd (store_in_db helpful_oracle (mkExtractor 100 20 true)
                            (mkWorld true [] [] [])
                            [("Layer1", phone_facts_3)] "asha") in
  stored (stats r) + duplicate (stats r) + low_confidence_rejected (stats r)
  = count_facts [("Layer1", phone_facts_3)] /\
  count_facts (newly_stored_nodes r) = stored (stats r) /\
  all_entries (confident_candidate [("Layer1", phone_facts_3)])
              (newly_stored_nodes r).
Proof.
  apply (@store_in_db_stats helpful_oracle (mkExtractor 100 20 true)
           (mkWorld true [] [] []) [("Layer1", phone_facts_3)] "asha").
  - reflexivity.
  - repeat constructor. intros [].
  - intros layer [<-|[]]. exists 1%Z. vm_compute. reflexivity.
Defined.

Example store_in_db_phone_facts :
  stats (snd (store_in_db helpful_oracle (mkExtractor 100 20 true)
                          (mkWorld true [] [] [])
                          [("Layer1", phone_facts_3)] "asha"))
  = mkStats 2 0 1.
Proof. vm_compute. reflexivity. Qed.

(** *** Layer keys *)









(** *** The pipeline *)

Lemma same_store_refl (w : World) : same_store w w.
Proof. now repeat split. Qed.

Lemma same_store_trans (w1 w2 w3 : World) :
  same_store w1 w2 -> same_store w2 w3 -> same_store w1 w3.
Proof.
  intros (C1 & M1 & P1) (C2 & M2 & P2). repeat split; congruence.
Qed.

Lemma record_event_same_store (w : World) (e : Event) :
  same_store w (record_event w e).
Proof. now repeat split. Qed.

Lemma extraction_calls_app (h1 h2 : list Event) :
  extraction_calls (h1 ++ h2) = extraction_calls h1 ++ extraction_calls h2.
Proof. apply flat_map_app. Qed.

Lemma is_file_processed_same_store (o : Oracle) (w : World) (u : string) :
  same_store w (fst (is_file_processed o w u)) /\
  extraction_calls (history (fst (is_file_processed o w u)))
  = extraction_calls (history w).
Proof.
  unfold is_file_processed. destruct (negb (is_connected w)); cbn [fst].
  - split; [apply same_store_refl | reflexivity].
  - split; [apply record_event_same_store|].
    cbn [record_event history]. rewrite extraction_calls_app.
    cbn. apply app_nil_r.
Qed.

Section ExtractionLoop.

Variable ratio : string -> string -> Z.
Variable o : Oracle.
Variable user_id : string.

Lemma extract_loop_world (chunks : list (list Message)) :
  forall (w : World) (acc : list (dict (list Node))),
    same_store w (fst (fold_left (extract_chunk ratio o user_id) chunks (w, acc)))
    /\ history (fst (fold_left (extract_chunk ratio o user_id) chunks (w, acc)))
       = history w
         ++ map (fun chunk => LLMExtract user_id (deduplicate_messages ratio chunk))
                chunks.
Proof.
  induction chunks as [|chunk chunks IH]; intros w acc; cbn [fold_left map].
  - split; [apply same_store_refl | now rewrite app_nil_r].
  - assert (Hstep : exists acc',
               extract_chunk ratio o user_id (w, acc) chunk
               = (record_event w (LLMExtract user_id
                                    (deduplicate_messages ratio chunk)), acc')).
    { unfold extract_chunk, call_llm_for_extraction.
      destruct (match llm_extract o (history w) user_id
                        (deduplicate_messages ratio chunk) with
                | Some raw_data => _validate_extractions raw_data
                | None => []
                end); eauto. }
    destruct Hstep as [acc' ->].
    destruct (IH (record_event w (LLMExtract user_id
                                    (deduplicate_messages ratio chunk))) acc')
      as [Hs Hh].
    split.
    + eapply same_store_trans; [apply record_event_same_store | exact Hs].
    + rewrite Hh. cbn [record_event history]. now rewrite <- app_assoc.
Qed.

Lemma extract_loop_nothing (chunks : list (list Message)) :
  nothing_extracted o user_id ->
  forall (w : World) (acc : list (dict (list Node))),
    snd (fold_left (extract_chunk ratio o user_id) chunks (w, acc)) = acc.
Proof.
  intros Hnone. induction chunks as [|chunk chunks IH]; intros w acc;
    cbn [fold_left]; trivial.
  assert (Hstep : extract_chunk ratio o user_id (w, acc) chunk
                  = (record_event w (LLMExtract user_id
                                       (deduplicate_messages ratio chunk)), acc)).
  { unfold extract_chunk, call_llm_for_extraction.
    specialize (Hnone (history w) (deduplicate_messages ratio chunk)).
    destruct (llm_extract o (history w) user_id
                          (deduplicate_messages ratio chunk));
      [rewrite Hnone|]; reflexivity. }
  rewrite Hstep. apply IH.
Qed.

Lemma deduplicate_with_llm_world (w : World)
    (extracted_data : dict (list Node)) :
  same_store w (fst (deduplicate_with_llm ratio o w extracted_data user_id)) /\
  extraction_calls
    (history (fst (deduplicate_with_llm ratio o w extracted_data user_id)))
  = extraction_calls (history w).
Proof.
  assert (Hrec : forall facts_by_layer,
             same_store w (record_event w (LLMDedup user_id facts_by_layer)) /\
             extraction_calls
               (history (record_event w (LLMDedup user_id facts_by_layer)))
             = extraction_calls (history w)).
  { intros f. split; [apply record_event_same_store|].
    cbn [record_event history]. rewrite extraction_calls_app.
    cbn. apply app_nil_r. }
  unfold deduplicate_with_llm.
  destruct extracted_data as [|entry rest];
    [split; [apply same_store_refl | reflexivity]|].
  cbv zeta.
  destruct (llm_dedup o (history w) user_id _); [apply Hrec|].
  destruct (filter _ _); [|apply Hrec].
  destruct (_ && _); apply Hrec.
Qed.

End ExtractionLoop.

Section StoreCalls.

Variable o : Oracle.
Variable user_id : string.

Lemma store_memory_node_calls (w : World) (layer : Z)
    (ftype content concluded_fact : string) (conf : Q) (evs : list Evidence)
    (extraction_method : string) (parent_update_id : option string) :
  extraction_calls
    (history (fst (store_memory_node o w user_id layer ftype content
                                     concluded_fact conf evs extraction_method
                                     parent_update_id)))
  = extraction_calls (history w).
Proof.
  unfold store_memory_node. destruct (negb (is_connected w)); trivial.
  destruct (db_insert o (history w) _); cbn [fst record_event history];
    rewrite extraction_calls_app; cbn; apply app_nil_r.
Qed.

Lemma store_node_calls (layer : string) (number : Z) (st : StoreState)
    (n : Node) :
  extraction_calls (history (st_world (store_node o user_id layer number st n)))
  = extraction_calls (history (st_world st)).
Proof.
  unfold store_node.
  destruct (Qltb (confidence n) CONFIDENCE_THRESHOLD); trivial.
  pose proof (store_memory_node_calls (st_world st) number
                (fact_type (detail n)) (fact_value (detail n))
                (_format_concluded_fact user_id (fact_type (detail n))
                                        (fact_value (detail n)))
                (confidence n) (evidence n) "initial" None) as H.
  destruct (store_memory_node o (st_world st) user_id number
              (fact_type (detail n)) (fact_value (detail n))
              (_format_concluded_fact user_id (fact_type (detail n))
                                      (fact_value (detail n)))
              (confidence n) (evidence n) "initial" None) as [w' node_id].
  now destruct (truthy_id node_id).
Qed.

Lemma store_nodes_calls (layer : string) (number : Z) (nodes : list Node) :
  forall st,
    extraction_calls
      (history (st_world (fold_left (store_node o user_id layer number)
                                    nodes st)))
    = extraction_calls (history (st_world st)).
Proof.
  induction nodes as [|n nodes IH]; intros st; cbn [fold_left]; trivial.
  now rewrite IH, store_node_calls.
Qed.

Lemma store_layers_calls (entries : dict (list Node)) :
  forall st,
    extraction_calls
      (history (st_world (fst (store_layers o user_id entries st))))
    = extraction_calls (history (st_world st)).
Proof.
  induction entries as [|[layer nodes] entries IH]; intros st;
    cbn [store_layers]; trivial.
  destruct (layer_number layer) as [number|e]; trivial.
  now rewrite IH, store_nodes_calls.
Qed.

Lemma store_in_db_calls (self : Extractor) (w : World)
    (extracted_nodes : dict (list Node)) :
  extraction_calls
    (history (fst (store_in_db o self w extracted_nodes user_id)))
  = extraction_calls (history w).
Proof.
  unfold store_in_db. destruct (negb (db_enabled self)); trivial.
  pose proof (store_layers_calls extracted_nodes (mkStoreState w 0 0 0 []))
    as H.
  destruct (store_layers o user_id extracted_nodes (mkStoreState w 0 0 0 []))
    as [st [e|]]; cbn [fst snd st_world] in *; trivial.
  unfold get_user_summary.
  destruct (negb (is_connected (st_world st))); trivial.
  cbn [record_event history]. rewrite extraction_calls_app, H.
  cbn. apply app_nil_r.
Qed.

Lemma mark_file_processed_world (w : World) (total : nat) :
  connected (fst (mark_file_processed o w user_id total)) = connected w /\
  memory_nodes (fst (mark_file_processed o w user_id total)) = memory_nodes w /\
  (forall u, u <> user_id ->
             markers_of u (fst (mark_file_processed o w user_id total))
             = markers_of u w) /\
  extraction_calls (history (fst (mark_file_processed o w user_id total)))
  = extraction_calls (history w).
Proof.
  unfold mark_file_processed. destruct (negb (is_connected w)); [easy|].
  assert (Hcalls :
            extraction_calls
              (history (record_event w (UpsertProcessed user_id total)))
            = extraction_calls (history w)).
  { cbn [record_event history]. rewrite extraction_calls_app.
    cbn. apply app_nil_r. }
  destruct (db_ok o (history w)); cbn [fst]; [|easy].
  split; [reflexivity|]. split; [reflexivity|]. split; [|exact Hcalls].
  intros u Hu. unfold markers_of. cbn [processed_files record_event].
  rewrite filter_app. cbn [filter fst].
  destruct (String.eqb_spec user_id u) as [->|_]; [congruence|].
  rewrite app_nil_r.
  induction (processed_files w) as [|row rows IH]; cbn [filter]; trivial.
  destruct (String.eqb_spec (fst row) user_id) as [Hrow|Hrow]; cbn [negb].
  - rewrite IH. destruct (String.eqb_spec (fst row) u); congruence.
  - cbn [filter]. now rewrite IH.
Qed.

Lemma mark_file_processed_marker (w : World) (total : nat) :
  connected w = true -> db_ok o (history w) = true ->
  marker_present (fst (mark_file_processed o w user_id total)) user_id = true.
Proof.
  intros Hc Hok. unfold mark_file_processed, is_connected.
  rewrite Hc, Hok. cbn [negb fst]. unfold marker_present.
  cbn [processed_files]. rewrite existsb_app. cbn [existsb fst].
  rewrite String.eqb_refl. now rewrite orb_true_r.
Qed.

End StoreCalls.

(** The four ways a run of [process_json] ends. *)
Lemma process_json_cases (ratio : string -> string -> Z) (o : Oracle)
    (self : Extractor) (w : World) (input_json : list Conversation)
    (user_id : string) (force_reprocess : bool) :
  let guard := negb force_reprocess && db_enabled self in
  let w1 := if guard then fst (is_file_processed o w user_id) else w in
  let run := process_json ratio o self w input_json user_id force_reprocess in
  (guard = true /\ snd (is_file_processed o w user_id) = true /\
   run = (w1, Ok skip_notice))
  \/
  ((guard = true -> snd (is_file_processed o w user_id) = false) /\
   ((exists e,
       chunk_messages (chunk_size self) (overlap_size self)
                      (flatten_messages input_json) = Raise e /\
       run = (w1, Raise e))
    \/
    (exists chunks,
       chunk_messages (chunk_size self) (overlap_size self)
                      (flatten_messages input_json) = Ok chunks /\
       let st := fold_left (extract_chunk ratio o user_id) chunks (w1, []) in
       (snd st = [] /\ run = (fst st, Ok []))
       \/
       (snd st <> [] /\
        let d := deduplicate_with_llm ratio o (fst st)
                   (merge_extracted_data ratio (snd st)) user_id in
        let s := store_in_db o self (fst d) (snd d) user_id in
        run
        = (if db_enabled self
           then fst (mark_file_processed o (fst s) user_id
                                         (count_facts (snd d)))
           else fst s,
           Ok (map (fun entry => (fst entry, PNodes (snd entry)))
                   (newly_stored_nodes (snd s)))))))).
Proof.
  cbv zeta. unfold process_json.
  destruct (negb force_reprocess && db_enabled self) eqn:Hguard.
  - destruct (is_file_processed o w user_id) as [w1 [|]] eqn:Hfile;
      cbn [fst snd]; [left; now repeat split|].
    right. split; [trivial|].
    destruct (chunk_messages (chunk_size self) (overlap_size self)
                             (flatten_messages input_json)) as [chunks|e];
      [right; exists chunks; split; trivial | left; exists e; now split].
    destruct (fold_left (extract_chunk ratio o user_id) chunks (w1, []))
      as [w2 [|data rest]]; cbn [fst snd]; [left; now split|].
    right. split; [discriminate|].
    destruct (deduplicate_with_llm ratio o w2
                (merge_extracted_data ratio (data :: rest)) user_id)
      as [w3 deduplicated_data]; cbn [fst snd].
    now destruct (store_in_db o self w3 deduplicated_data user_id)
      as [w4 storage_result].
  - right. split; [discriminate|].
    destruct (chunk_messages (chunk_size self) (overlap_size self)
                             (flatten_messages input_json)) as [chunks|e];
      [right; exists chunks; split; trivial | left; exists e; now split].
    destruct (fold_left (extract_chunk ratio o user_id) chunks (w, []))
      as [w2 [|data rest]]; cbn [fst snd]; [left; now split|].
    right. split; [discriminate|].
    destruct (deduplicate_with_llm ratio o w2
                (merge_extracted_data ratio (data :: rest)) user_id)
      as [w3 deduplicated_data]; cbn [fst snd].
    now destruct (store_in_db o self w3 deduplicated_data user_id)
      as [w4 storage_result].
Qed.

Lemma store_grown_trans (user_id : string) (w1 w2 w3 : World) :
  store_grown user_id w1 w2 -> store_grown user_id w2 w3 ->
  store_grown user_id w1 w3.
Proof.
  intros (C1 & (r1 & M1 & F1) & P1) (C2 & (r2 & M2 & F2) & P2).
  split; [congruence|]. split.
  - exists (r1 ++ r2). split; [now rewrite M2, M1, app_assoc|].
    apply Forall_app. now split.
  - intros u Hu. now rewrite P2, P1.
Qed.

Lemma same_store_grown (user_id : string) (w w' : World) :
  same_store w w' -> store_grown user_id w w'.
Proof.
  intros (C & M & P). split; trivial. split.
  - exists []. now rewrite app_nil_r.
  - intros u _. unfold markers_of. now rewrite P.
Qed.

Lemma rows_added_grown (user_id : string) (extracted_nodes : dict (list Node))
    (w w' : World) :
  rows_added user_id extracted_nodes w w' -> store_grown user_id w w'.
Proof.
  intros (C & P & rows & M & F). split; trivial. split.
  - exists rows. split; trivial.
    eapply Forall_impl; [|exact F].
    intros row (layer & nodes & n & number & _ & _ & _ & Hconf & ->).
    now repeat split.
  - intros u _. unfold markers_of. now rewrite P.
Qed.

Lemma extraction_calls_map (user_id : string) (f : list Message -> list Message)
    (chunks : list (list Message)) :
  extraction_calls (map (fun chunk => LLMExtract user_id (f chunk)) chunks)
  = map (fun chunk => (user_id, f chunk)) chunks.
Proof.
  induction chunks as [|chunk chunks IH]; cbn; [|rewrite <- IH]; reflexivity.
Qed.

(** X24: whatever the model and the store answer, a run of the pipeline
    changes the store only by adding rows to [memory_nodes], each
    pending, of method [initial], for this user and of a confidence of
    at least 0.75, and by writing this user's marker; without a
    connection at start-up it changes nothing in the store. *)
Theorem process_json_store_changes (ratio : string -> string -> Z)
    (o : Oracle) (self : Extractor) (w : World)
    (input_json : list Conversation) (user_id : string)
    (force_reprocess : bool) :
  store_grown user_id w
    (fst (process_json ratio o self w input_json user_id force_reprocess)) /\
  (db_enabled self = false ->
   same_store w
     (fst (process_json ratio o self w input_json user_id force_reprocess))).
Proof.
  pose proof (process_json_cases ratio o self w input_json user_id
                force_reprocess) as Hcases.
  cbv zeta in Hcases.
  assert (H1 : same_store w
                 (if negb force_reprocess && db_enabled self
                  then fst (is_file_processed o w user_id) else w)).
  { destruct (negb force_reprocess && db_enabled self);
      [apply is_file_processed_same_store | apply same_store_refl]. }
  destruct Hcases as [(_ & _ & ->)|[_ [(e & _ & ->)|(chunks & _ & Hrun)]]];
    cbn [fst]; try (split; [now apply same_store_grown | trivial]).
  pose proof (extract_loop_world ratio o user_id chunks
                (if negb force_reprocess && db_enabled self
                 then fst (is_file_processed o w user_id) else w) [])
    as [H2 _].
  pose proof (same_store_trans H1 H2) as H12.
  destruct Hrun as [(_ & ->)|(_ & ->)]; cbn [fst];
    [split; [now apply same_store_grown | trivial]|].
  set (st := fold_left (extract_chunk ratio o user_id) chunks _) in *.
  pose proof (deduplicate_with_llm_world ratio o user_id (fst st)
                (merge_extracted_data ratio (snd st))) as [H3 _].
  set (d := deduplicate_with_llm ratio o (fst st) _ user_id) in *.
  pose proof (same_store_trans H12 H3) as H13.
  pose proof (store_in_db_rows_added o self (fst d) (snd d) user_id) as H4.
  split.
  - eapply store_grown_trans; [apply same_store_grown; exact H13|].
    eapply store_grown_trans; [eapply rows_added_grown; exact H4|].
    destruct (db_enabled self); [|apply same_store_grown, same_store_refl].
    destruct (mark_file_processed_world o user_id
                (fst (store_in_db o self (fst d) (snd d) user_id))
                (count_facts (snd d))) as (C & M & P & _).
    split; trivial. split; trivial.
    exists []. now rewrite app_nil_r.
  - intros Hdb. rewrite Hdb. eapply same_store_trans; [exact H13|].
    unfold store_in_db. rewrite Hdb. cbn [negb fst]. apply same_store_refl.
Qed.

(** X25: with [chunk_size = overlap_size] and at least one message, a
    run that is not skipped ends in the [ValueError] of the Chunker
    before any extraction call and any write to the store. *)
Theorem process_json_zero_step (ratio : string -> string -> Z)
    (o : Oracle) (self : Extractor) (w : World)
    (input_json : list Conversation) (user_id : string)
    (force_reprocess : bool) :
  chunk_size self = overlap_size self ->
  flatten_messages input_json <> [] ->
  let run := process_json ratio o self w input_json user_id force_reprocess in
  (snd run = Ok skip_notice \/ snd run = Raise ValueError) /\
  same_store w (fst run) /\
  extraction_calls (history (fst run)) = extraction_calls (history w).
Proof.
  intros Hsize Hmessages. cbv zeta.
  pose proof (process_json_cases ratio o self w input_json user_id
                force_reprocess) as Hcases.
  cbv zeta in Hcases.
  assert (H1 : same_store w
                 (if negb force_reprocess && db_enabled self
                  then fst (is_file_processed o w user_id) else w) /\
               extraction_calls
                 (history (if negb force_reprocess && db_enabled self
                           then fst (is_file_processed o w user_id) else w))
               = extraction_calls (history w)).
  { destruct (negb force_reprocess && db_enabled self);
      [apply is_file_processed_same_store
      | split; [apply same_store_refl | reflexivity]]. }
  assert (Hraise : chunk_messages (chunk_size self) (overlap_size self)
                                  (flatten_messages input_json)
                   = Raise ValueError).
  { unfold chunk_messages, range0. rewrite Hsize, Z.sub_diag.
    now destruct (flatten_messages input_json). }
  destruct Hcases as [(_ & _ & ->)|[_ [(e & He & ->)|(chunks & He & _)]]];
    cbn [fst snd].
  - split; [now left | exact H1].
  - split; [right; congruence | exact H1].
  - congruence.
Qed.

Lemma process_json_zero_step_witness :
  let run := process_json fuzz_ratio helpful_oracle (mkExtractor 3 3 true)
                          fresh_world one_conversation "asha" false in
  (snd run = Ok skip_notice \/ snd run = Raise ValueError) /\
  same_store fresh_world (fst run) /\
  extraction_calls (history (fst run)) = extraction_calls (history fresh_world).
Proof.
  apply (@process_json_zero_step fuzz_ratio helpful_oracle
           (mkExtractor 3 3 true) fresh_world one_conversation "asha" false).
  - reflexivity.
  - discriminate.
Defined.

(** X26: on an input with no message a run makes no extraction call and
    writes nothing, whatever the chunk size and the overlap: it returns
    the empty dict (or the notice of a skipped run), and leaves no
    marker. *)
Theorem process_json_no_messages (ratio : string -> string -> Z)
    (o : Oracle) (self : Extractor) (w : World)
    (input_json : list Conversation) (user_id : string)
    (force_reprocess : bool) :
  flatten_messages input_json = [] ->
  let run := process_json ratio o self w input_json user_id force_reprocess in
  (snd run = Ok skip_notice \/ snd run = Ok []) /\
  same_store w (fst run) /\
  extraction_calls (history (fst run)) = extraction_calls (history w).
Proof.
  intros Hmessages. cbv zeta.
  pose proof (process_json_cases ratio o self w input_json user_id
                force_reprocess) as Hcases.
  cbv zeta in Hcases. rewrite Hmessages in Hcases.
  assert (H1 : same_store w
                 (if negb force_reprocess && db_enabled self
                  then fst (is_file_processed o w user_id) else w) /\
               extraction_calls
                 (history (if negb force_reprocess && db_enabled self
                           then fst (is_file_processed o w user_id) else w))
               = extraction_calls (history w)).
  { destruct (negb force_reprocess && db_enabled self);
      [apply is_file_processed_same_store
      | split; [apply same_store_refl | reflexivity]]. }
  destruct Hcases as [(_ & _ & ->)|[_ [(e & He & _)|(chunks & He & Hrun)]]];
    cbn [fst snd].
  - split; [now left | exact H1].
  - discriminate He.
  - cbn in He. injection He as <-. cbn [fold_left fst snd] in Hrun.
    destruct Hrun as [(_ & ->)|(Hne & _)]; [|congruence].
    cbn [fst snd]. split; [now right | exact H1].
Qed.

Lemma process_json_no_messages_witness :
  let run := process_json fuzz_ratio helpful_oracle (mkExtractor 3 3 true)
                          fresh_world [mkConversation (Some []) None]
                          "asha" false in
  (snd run = Ok skip_notice \/ snd run = Ok []) /\
  same_store fresh_world (fst run) /\
  extraction_calls (history (fst run)) = extraction_calls (history fresh_world).
Proof.
  apply (@process_json_no_messages fuzz_ratio helpful_oracle
           (mkExtractor 3 3 true) fresh_world [mkConversation (Some []) None]
           "asha" false).
  reflexivity.
Defined.

(** X27: when no chunk gets a reply with a candidate the Validator
    keeps, the run stores nothing and writes no marker (a later run is
    not skipped on its account); it returns the empty dict, unless it
    was skipped or the Chunker raised. *)
Theorem process_json_nothing_extracted (ratio : string -> string -> Z)
    (o : Oracle) (self : Extractor) (w : World)
    (input_json : list Conversation) (user_id : string)
    (force_reprocess : bool) :
  nothing_extracted o user_id ->
  let run := process_json ratio o self w input_json user_id force_reprocess in
  same_store w (fst run) /\
  (snd run = Ok skip_notice \/ snd run = Raise ValueError \/ snd run = Ok []).
Proof.
  intros Hnone. cbv zeta.
  pose proof (process_json_cases ratio o self w input_json user_id
                force_reprocess) as Hcases.
  cbv zeta in Hcases.
  assert (H1 : same_store w
                 (if negb force_reprocess && db_enabled self
                  then fst (is_file_processed o w user_id) else w)).
  { destruct (negb force_reprocess && db_enabled self);
      [apply is_file_processed_same_store | apply same_store_refl]. }
  destruct Hcases as [(_ & _ & ->)|[_ [(e & _ & ->)|(chunks & _ & Hrun)]]];
    cbn [fst snd].
  - split; [exact H1 | now left].
  - split; [exact H1 | right; left; now destruct e].
  - rewrite (extract_loop_nothing ratio chunks Hnone) in Hrun.
    destruct Hrun as [(_ & ->)|(Hne & _)]; [|congruence].
    cbn [fst snd]. split; [|now right; right].
    eapply same_store_trans; [exact H1 | apply extract_loop_world].
Qed.

Lemma process_json_nothing_extracted_witness :
  let run := process_json fuzz_ratio silent_oracle (mkExtractor 3 1 true)
                          fresh_world one_conversation "asha" false in
  same_store fresh_world (fst run) /\
  (snd run = Ok skip_notice \/ snd run = Raise ValueError \/ snd run = Ok []).
Proof.
  apply (@process_json_nothing_extracted fuzz_ratio silent_oracle
           (mkExtractor 3 1 true) fresh_world one_conversation "asha" false).
  intros h chunk. exact I.
Defined.

(** X28: with the store connected and answering, a run that returns
    something (facts, or the notice of a skipped run) leaves the user's
    marker behind, so that the next run without the force-override on
    any input is skipped. *)
Theorem process_json_rerun_skipped (ratio : string -> string -> Z)
    (o : Oracle) (self : Extractor) (w : World)
    (input_json input_json' : list Conversation) (user_id : string)
    (force_reprocess : bool) (r : dict PyValue) :
  db_enabled self = true ->
  connected w = true ->
  (forall h, db_ok o h = true) ->
  snd (process_json ratio o self w input_json user_id force_reprocess) = Ok r ->
  r <> [] ->
  snd (process_json ratio o self
         (fst (process_json ratio o self w input_json user_id force_reprocess))
         input_json' user_id false)
  = Ok skip_notice.
Proof.
  intros Hdb Hconn Hok Hrun Hr.
  assert (Hmarked :
            connected (fst (process_json ratio o self w input_json user_id
                                         force_reprocess)) = true /\
            marker_present (fst (process_json ratio o self w input_json user_id
                                              force_reprocess)) user_id = true).
  { pose proof (process_json_cases ratio o self w input_json user_id
                  force_reprocess) as Hcases.
    cbv zeta in Hcases.
    assert (H1 : same_store w
                   (if negb force_reprocess && db_enabled self
                    then fst (is_file_processed o w user_id) else w)).
    { destruct (negb force_reprocess && db_enabled self);
        [apply is_file_processed_same_store | apply same_store_refl]. }
    destruct Hcases as [(Hg & Hfile & E)|[_ [(e & _ & E)|(chunks & _ & E)]]].
    - rewrite E. cbn [fst]. rewrite Hg in *. destruct H1 as (C & _ & P).
      split; [congruence|]. unfold marker_present. rewrite P.
      unfold is_file_processed, is_connected in Hfile. rewrite Hconn in Hfile.
      cbn [negb snd] in Hfile. now apply andb_true_iff in Hfile.
    - rewrite E in Hrun. discriminate Hrun.
    - pose proof (extract_loop_world ratio o user_id chunks
                    (if negb force_reprocess && db_enabled self
                     then fst (is_file_processed o w user_id) else w) [])
        as [H2 _].
      destruct E as [(_ & E)|(_ & E)].
      + rewrite E in Hrun. cbn [snd] in Hrun. congruence.
      + rewrite E. cbn [fst].
        set (st := fold_left (extract_chunk ratio o user_id) chunks _) in *.
        pose proof (deduplicate_with_llm_world ratio o user_id (fst st)
                      (merge_extracted_data ratio (snd st))) as [H3 _].
        set (d := deduplicate_with_llm ratio o (fst st) _ user_id) in *.
        rewrite Hdb.
        pose proof (store_in_db_rows_added o self (fst d) (snd d) user_id)
          as (C4 & _).
        assert (Hc : connected (fst (store_in_db o self (fst d) (snd d)
                                                 user_id)) = true).
        { destruct H1 as (C1 & _), H2 as (C2 & _), H3 as (C3 & _).
          congruence. }
        split.
        * destruct (mark_file_processed_world o user_id
                      (fst (store_in_db o self (fst d) (snd d) user_id))
                      (count_facts (snd d))) as (C & _).
          congruence.
        * apply mark_file_processed_marker; [exact Hc | apply Hok]. }
  destruct Hmarked as [Hc Hm].
  set (w' := fst (process_json ratio o self w input_json user_id
                               force_reprocess)) in *.
  unfold process_json. rewrite Hdb. cbn [negb andb].
  unfold is_file_processed, is_connected. rewrite Hc. cbn [negb].
  rewrite Hok. unfold marker_present in Hm. rewrite Hm. reflexivity.
Qed.

Lemma process_json_rerun_skipped_witness :
  snd (process_json fuzz_ratio helpful_oracle (mkExtractor 3 1 true)
         (fst (process_json fuzz_ratio helpful_oracle (mkExtractor 3 1 true)
                            fresh_world one_conversation "asha" false))
         [] "asha" false)
  = Ok skip_notice.
Proof.
  apply (@process_json_rerun_skipped fuzz_ratio helpful_oracle
           (mkExtractor 3 1 true) fresh_world one_conversation [] "asha" false
           [("Layer1", PNodes [phone_fact "9876543210" (95 # 100)])]).
  - reflexivity.
  - reflexivity.
  - reflexivity.
  - vm_compute. reflexivity.
  - discriminate.
Defined.

(** X29: a run that is not skipped makes one extraction call for each
    chunk of the flattened messages, in the order of the chunks, each
    with the chunk's messages after [deduplicate_messages], whatever
    the model replies. *)
Theorem process_json_extraction_calls (ratio : string -> string -> Z)
    (o : Oracle) (self : Extractor) (w : World)
    (input_json : list Conversation) (user_id : string)
    (force_reprocess : bool) (chunks : list (list Message)) :
  chunk_messages (chunk_size self) (overlap_size self)
                 (flatten_messages input_json) = Ok chunks ->
  snd (process_json ratio o self w input_json user_id force_reprocess)
  <> Ok skip_notice ->
  extraction_calls
    (history (fst (process_json ratio o self w input_json user_id
                                force_reprocess)))
  = extraction_calls (history w)
    ++ map (fun chunk => (user_id, deduplicate_messages ratio chunk)) chunks.
Proof.
  intros Hchunks Hrun.
  pose proof (process_json_cases ratio o self w input_json user_id
                force_reprocess) as Hcases.
  cbv zeta in Hcases.
  assert (H1 : extraction_calls
                 (history (if negb force_reprocess && db_enabled self
                           then fst (is_file_processed o w user_id) else w))
               = extraction_calls (history w)).
  { destruct (negb force_reprocess && db_enabled self);
      [apply is_file_processed_same_store | reflexivity]. }
  destruct Hcases as [(_ & _ & E)|[_ [(e & He & _)|(chunks' & He & E)]]].
  - rewrite E in Hrun. now elim Hrun.
  - congruence.
  - assert (chunks' = chunks) as -> by congruence.
    pose proof (extract_loop_world ratio o user_id chunks
                  (if negb force_reprocess && db_enabled self
                   then fst (is_file_processed o w user_id) else w) [])
      as [_ H2].
    assert (Hloop :
              extraction_calls
                (history (fst (fold_left (extract_chunk ratio o user_id) chunks
                    (if negb force_reprocess && db_enabled self
                     then fst (is_file_processed o w user_id) else w, []))))
              = extraction_calls (history w)
                ++ map (fun chunk => (user_id, deduplicate_messages ratio chunk))
                       chunks).
    { now rewrite H2, extraction_calls_app, H1, extraction_calls_map. }
    destruct E as [(_ & ->)|(_ & ->)]; cbn [fst]; [exact Hloop|].
    rewrite <- Hloop.
    set (st := fold_left (extract_chunk ratio o user_id) chunks _) in *.
    pose proof (deduplicate_with_llm_world ratio o user_id (fst st)
                  (merge_extracted_data ratio (snd st))) as [_ H3].
    rewrite <- H3.
    set (d := deduplicate_with_llm ratio o (fst st) _ user_id) in *.
    rewrite <- (store_in_db_calls o user_id self (fst d) (snd d)).
    destruct (db_enabled self); trivial.
    apply mark_file_processed_world.
Qed.

Lemma process_json_extraction_calls_witness :
  extraction_calls
    (history (fst (process_json fuzz_ratio helpful_oracle (mkExtractor 3 1 true)
                                fresh_world one_conversation "asha" false)))
  = extraction_calls (history fresh_world)
    ++ map (fun chunk => ("asha", deduplicate_messages fuzz_ratio chunk))
           [flatten_messages one_conversation].
Proof.
  apply (@process_json_extraction_calls fuzz_ratio helpful_oracle
           (mkExtractor 3 1 true) fresh_world one_conversation "asha" false
           [flatten_messages one_conversation]).
  - reflexivity.
  - vm_compute. discriminate.
Defined.

(** *** Conclusions *)

Lemma string_app_assoc (a b c : string) :
  ((a ++ b) ++ c = a ++ b ++ c)%string.
Proof. induction a as [|x a IH]; cbn; [|rewrite IH]; reflexivity. Qed.

Lemma string_app_nil_r (a : string) : (a ++ EmptyString = a)%string.
Proof. induction a as [|x a IH]; cbn; [|rewrite IH]; reflexivity. Qed.

Lemma mentions_end (part : string) : mentions part part.
Proof. exists EmptyString, EmptyString. now rewrite string_app_nil_r. Qed.

Lemma mentions_here (part post : string) : mentions (part ++ post) part.
Proof. now exists EmptyString, post. Qed.

Lemma mentions_skip (a s part : string) :
  mentions s part -> mentions (a ++ s) part.
Proof.
  intros (pre & post & ->). exists (a ++ pre)%string, post.
  now rewrite string_app_assoc.
Qed.

Ltac find_mention :=
  repeat first [apply mentions_end | apply mentions_here | apply mentions_skip].

Lemma formatter_lookup (P : string -> Prop) (d : dict string)
    (k default : string) :
  Forall (fun entry => P (snd entry)) d -> P default ->
  P (get_default (dict_get d k) default).
Proof.
  intros Hd Hdefault. induction Hd as [|[k' v] d Hv _ IH]; cbn [dict_get];
    [exact Hdefault|].
  now destruct (String.eqb k' k).
Qed.

(** X30: whatever the fact type, listed in [fact_formatters] or not,
    the concluded fact names both the user and the value. *)
Theorem format_concluded_fact_mentions (user_id ftype value : string) :
  mentions (_format_concluded_fact user_id ftype value) user_id /\
  mentions (_format_concluded_fact user_id ftype value) value.
Proof.
  unfold _format_concluded_fact.
  apply (@formatter_lookup
           (fun s => mentions s user_id /\ mentions s value)).
  - unfold fact_formatters.
    repeat (apply Forall_cons; [cbn [snd]; split; find_mention|]).
    apply Forall_nil.
  - split; find_mention.
Qed.
